(** * Embedding store and similarity search

    A shallow embedding of the similarity-search core of the assistant
    repository: the hashing endpoint of [main.py] (module [Main]), the
    learned-model service of [embedding_service.py] (module [Service]), the
    endpoints of [api_chandresh.py] in front of the service, and the other
    handlers of [main.py].

    Conventions of the model.
    - In [Main] and [Service] a Python [float] is an exact real number ([R]):
      sums, products, quotients and square roots are the mathematical ones.
      What is proved there about the order and the number of results, and
      about what is stored and read back, does not depend on rounding; what
      is proved about the value of a score is about the exact value.  Module
      [Double] is [cosine_similarity] on IEEE 754 doubles and shows where the
      computed value leaves the exact one.
    - The built-in [hash] of strings differs from one interpreter process to
      the next (it is salted when the interpreter starts).  It is a parameter
      [hash] of every function that hashes, standing for the hash of the
      process that runs the function: a store and a later search by another
      process take two such parameters.
    - A Python [str] is a [string] whose characters are code points below 256.
    - [Optional[str]] is [option string]; Python truthiness of such a value is
      read through [nonempty].
    - The SQLite table [embeddings] is the list of its rows in rowid order,
      which is the order of a full scan.  Reads of the table succeed; a failing
      write is the [db_ok = false] input of [store_embedding].
    - Exceptions are explicit: a function that may raise returns an [option]
      or a dedicated result type, and every [try]/[except] of the source is a
      [match] on it. *)

From Stdlib Require Import Floats.
From Stdlib Require Import Reals Lra Lia ZArith String Ascii List Permutation Sorted.
From stdpp Require Import base option list strings.
Import ListNotations.
Open Scope R_scope.

(** ** Python values *)

Abbreviation vector := (list R).

(** [a == b] on floats. *)
#[global] Instance R_eq_dec : EqDecision R := Req_dec_T.

(** [sum(xs)]: left-to-right accumulation from [0]. *)
Definition py_sum (xs : vector) : R := fold_left Rplus xs 0.

(** [sum(a * b for a, b in zip(v1, v2))]: [zip] stops at the shorter list. *)
Definition zip_dot (v1 v2 : vector) : R :=
  py_sum (map (fun ab : R * R => fst ab * snd ab) (combine v1 v2)).

(** [a * a for a in v]. *)
Definition squares (v : vector) : vector := map (fun a => a * a) v.

(** [sum(a * a for a in v) ** 0.5], also [np.linalg.norm(v)] on a flat array. *)
Definition l2_norm (v : vector) : R := sqrt (py_sum (squares v)).

(** Python's [x / y] on floats raises [ZeroDivisionError] when [y == 0]. *)
Definition py_div (x y : R) : option R :=
  if Req_dec_T y 0 then None else Some (x / y).

(** [np.dot(v1, v2)] on flat arrays: [ValueError] when the shapes differ. *)
Definition np_dot (v1 v2 : vector) : option R :=
  if Nat.eqb (length v1) (length v2) then Some (zip_dot v1 v2) else None.

(** Python's [h % d] on integers raises [ZeroDivisionError] when [d == 0];
    otherwise the result takes the sign of [d], like [Z.modulo]. *)
Definition py_mod (h d : Z) : option Z :=
  if (d =? 0)%Z then None else Some (h mod d)%Z.

(** The position that [l[idx]] denotes in a list of length [len]: a negative
    index counts from the end, anything out of range is an [IndexError]. *)
Definition py_index (len : nat) (idx : Z) : option nat :=
  if (0 <=? idx)%Z then
    if (idx <? Z.of_nat len)%Z then Some (Z.to_nat idx) else None
  else
    if (- Z.of_nat len <=? idx)%Z then Some (Z.to_nat (Z.of_nat len + idx))
    else None.

(** Truthiness of an [Optional[str]]: [None] and the empty string are false.
    [nonempty o] is [Some s] exactly when [o] is truthy with value [s]. *)
Definition nonempty (o : option string) : option string :=
  match o with
  | Some s => if String.eqb s "" then None else Some s
  | None => None
  end.

(** [str.isspace] on a code point below 256. *)
Definition is_space (c : ascii) : bool :=
  let n := N_of_ascii c in
  ((9 <=? n) && (n <=? 13) || (28 <=? n) && (n <=? 32)
   || (n =? 133) || (n =? 160))%N.

(** [text.split()]: maximal runs of non-space characters, in order.  [tok] is
    the token read so far. *)
Fixpoint split_from (tok : string) (s : string) : list string :=
  match s with
  | EmptyString => if String.eqb tok "" then [] else [tok]
  | String c s' =>
      if is_space c then
        if String.eqb tok "" then split_from "" s'
        else tok :: split_from "" s'
      else split_from (tok ++ String c "") s'
  end.

Definition py_split (text : string) : list string := split_from "" text.

(** [l[:k]] for an integer [k]: a negative bound counts from the end. *)
Definition py_slice_to {A} (l : list A) (k : Z) : list A :=
  if (0 <=? k)%Z then firstn (Z.to_nat k) l
  else firstn (length l - Z.to_nat (- k)) l.

(** [text[:n] + '...' if len(text) > n else text]. *)
Definition truncate (n : nat) (text : string) : string :=
  if (n <? String.length text)%nat then (substring 0 n text ++ "...")%string
  else text.

(** ** The JSON column

    [vector_blob] is a TEXT column read back with [json.loads].  In [Main]
    and [Service] the column holds either what [store_embedding] writes, the
    JSON array of floats produced by [json.dumps], or a text on which
    [json.loads] raises.  A text that is valid JSON but no array of floats
    ([null], a number, a string) is neither: module [Raw] below is [main.py]
    on tables that hold such documents too. *)

Inductive blob : Type :=
  | JsonArray (v : vector)
  | Unparsable (raw : string).

Definition json_dumps (v : vector) : blob := JsonArray v.

(** [None] stands for [json.JSONDecodeError]. *)
Definition json_loads (b : blob) : option vector :=
  match b with
  | JsonArray v => Some v
  | Unparsable _ => None
  end.

(** ** The [embeddings] table

    Both schemas declare [UNIQUE(item_type, item_id)].  [INSERT OR REPLACE]
    deletes the rows that conflict with the new one on that constraint and
    then inserts the new row, which takes a fresh, largest rowid. *)

Section Table.
Context {row K : Type} `{EqDecision K} (key : row -> K).

Definition insert_or_replace (new : row) (rows : list row) : list row :=
  filter (fun r => key r <> key new) rows ++ [new].

(** [SELECT ... WHERE key = k] followed by [fetchone()]. *)
Definition fetchone (k : K) (rows : list row) : option row :=
  List.find (fun r => bool_decide (key r = k)) rows.

(** The uniqueness constraint as a property of a table state. *)
Definition unique_keys (rows : list row) : Prop := NoDup (key <$> rows).

(** The records stored under a key. *)
Definition records_at (k : K) (rows : list row) : list row :=
  filter (fun r => key r = k) rows.
End Table.

(** ** Ranking

    [l.sort(key=score, reverse=True)] is a stable sort: the result is ordered
    by non-increasing score and entries of equal score keep their order.  A
    stable sort has one possible result, computed here by insertion. *)

Section Ranking.
Context {A : Type} (score : A -> R).

Fixpoint insert_desc (x : A) (l : list A) : list A :=
  match l with
  | [] => [x]
  | y :: l' =>
      if Rlt_dec (score x) (score y) then y :: insert_desc x l'
      else x :: y :: l'
  end.

Definition sort_desc (l : list A) : list A := foldr insert_desc [] l.

(** Non-increasing order of score. *)
Definition ranked (l : list A) : Prop :=
  StronglySorted (fun a b => score b <= score a) l.
End Ranking.

(** ** The process-wide random generator

    The state of numpy's global generator is the stream of uniform draws it
    will produce.  [np.random.random(n)] returns the next [n] draws and
    advances the stream. *)

Definition rng : Type := nat -> R.

Definition np_random_random (n : nat) (g : rng) : vector * rng :=
  (map g (seq 0 n), fun i => g (n + i)%nat).

(** ** [main.py]: the hashing endpoint *)

Module Main.

Definition DIM : Z := 64.

Record row : Type := {
  item_type : string;
  item_id : string;
  vector_blob : blob;
  timestamp : string
}.

Definition key (r : row) : string * string := (item_type r, item_id r).

Record SearchSimilarRequest : Type := {
  summary_id : option string;
  message_text : option string;
  top_k : Z
}.

Record RelatedItem : Type := {
  related_type : string;
  related_id : string;
  score : R;
  text : option string
}.

(** What a request produces: the response body, the 400 rejection, or an
    exception that leaves the handler. *)
Inductive response : Type :=
  | SearchSimilarResponse (related : list RelatedItem)
  | HTTP400
  | Uncaught.

Definition related_of (r : response) : list RelatedItem :=
  match r with
  | SearchSimilarResponse related => related
  | _ => []
  end.

Section WithHash.
(** The built-in [hash] of the process that runs the code. *)
Variable hash : string -> Z.

(** [vec[idx] += 1.0] with [idx = hash(token) % dim]. *)
Definition bump (dim : Z) (vec : vector) (token : string) : option vector :=
  idx ← py_mod (hash token) dim;
  i ← py_index (length vec) idx;
  Some (alter (fun x => x + 1) i vec).

Fixpoint accumulate (dim : Z) (vec : vector) (tokens : list string)
  : option vector :=
  match tokens with
  | [] => Some vec
  | token :: rest => vec' ← bump dim vec token; accumulate dim vec' rest
  end.

(** The division is guarded by [norm > 0]. *)
Definition l2_normalize (vec : vector) : vector :=
  let norm := l2_norm vec in
  if Rlt_dec 0 norm then map (fun v => v / norm) vec else vec.

Definition text_to_vector (text : string) (dim : Z) : option vector :=
  vec ← accumulate dim (replicate (Z.to_nat dim) 0) (py_split text);
  Some (l2_normalize vec).

Definition cosine_similarity (v1 v2 : vector) : option R :=
  let dot := zip_dot v1 v2 in
  let n1 := l2_norm v1 in
  let n2 := l2_norm v2 in
  if Req_dec_T n1 0 then Some 0
  else if Req_dec_T n2 0 then Some 0
  else py_div dot (n1 * n2).

(** The [try] covers the embedding and the write; [db_ok] tells whether the
    write goes through, [ts] is the clock reading. *)
Definition store_embedding (db_ok : bool) (ts : string) (rows : list row)
    (item_type item_id text : string) : bool * list row :=
  match text_to_vector text DIM with
  | None => (false, rows)
  | Some vec =>
      let blob := json_dumps vec in
      if db_ok then
        (true, insert_or_replace key
                 {| item_type := item_type; item_id := item_id;
                    vector_blob := blob; timestamp := ts |} rows)
      else (false, rows)
  end.

Definition get_embedding (rows : list row) (item_type item_id : string)
  : option vector :=
  match fetchone key (item_type, item_id) rows with
  | None => None
  | Some r => json_loads (vector_blob r)
  end.

Fixpoint get_all_embeddings (rows : list row)
  : list (string * string * vector) :=
  match rows with
  | [] => []
  | r :: rest =>
      match json_loads (vector_blob r) with
      | Some vec => (item_type r, item_id r, vec) :: get_all_embeddings rest
      | None => get_all_embeddings rest
      end
  end.

(** [req.summary_id and item_type == "summary" and item_id == req.summary_id] *)
Definition is_self (req : SearchSimilarRequest) (item_type item_id : string)
  : bool :=
  match nonempty (summary_id req) with
  | Some sid => String.eqb item_type "summary" && String.eqb item_id sid
  | None => false
  end.

(** The scoring loop; an exception of [cosine_similarity] is not caught. *)
Fixpoint score_all (req : SearchSimilarRequest) (query_vec : vector)
    (candidates : list (string * string * vector))
  : option (list (string * string * R)) :=
  match candidates with
  | [] => Some []
  | (item_type, item_id, vec) :: rest =>
      if is_self req item_type item_id then score_all req query_vec rest
      else
        s ← cosine_similarity query_vec vec;
        scored ← score_all req query_vec rest;
        Some ((item_type, item_id, s) :: scored)
  end.

Definition limit (req : SearchSimilarRequest) : Z :=
  Z.max 1 (Z.min (top_k req) 10).

Definition to_related (x : string * string * R) : RelatedItem :=
  {| related_type := x.1.1; related_id := x.1.2; score := x.2; text := None |}.

(** The part of the handler that follows the resolution of the query. *)
Definition rank (req : SearchSimilarRequest) (rows : list row)
    (query_vec : vector) : response :=
  match score_all req query_vec (get_all_embeddings rows) with
  | None => Uncaught
  | Some scored =>
      let sorted := sort_desc snd scored in
      let top := py_slice_to sorted (limit req) in
      SearchSimilarResponse (map to_related top)
  end.

Definition api_search_similar (rows : list row) (req : SearchSimilarRequest)
  : response :=
  match nonempty (message_text req), nonempty (summary_id req) with
  | None, None => HTTP400
  | Some message, _ =>
      match text_to_vector message DIM with
      | Some query_vec => rank req rows query_vec
      | None => Uncaught
      end
  | None, Some sid =>
      match get_embedding rows "summary" sid with
      | Some ev => rank req rows ev
      | None => SearchSimilarResponse []
      end
  end.

(** A call of [store_embedding] with its environment, and a sequence of
    such calls. *)
Record store_call : Type := {
  call_db_ok : bool;
  call_ts : string;
  call_type : string;
  call_id : string;
  call_text : string
}.

Definition store_all (calls : list store_call) (rows : list row) : list row :=
  fold_left
    (fun rows c =>
       (store_embedding (call_db_ok c) (call_ts c) rows
          (call_type c) (call_id c) (call_text c)).2)
    calls rows.
End WithHash.

(** The candidates that the handler scores: the parsable rows other than the
    referenced one. *)
Definition eligible (req : SearchSimilarRequest) (rows : list row)
  : list (string * string * vector) :=
  List.filter (fun c => negb (is_self req c.1.1 c.1.2)) (get_all_embeddings rows).

(** The handler reaches the ranking with query vector [q]: by the text when
    one is given, otherwise by the stored vector of the referenced summary. *)
Inductive resolves (hash : string -> Z) (rows : list row)
    (req : SearchSimilarRequest) (q : vector) : Prop :=
  | by_text (message : string) :
      nonempty (message_text req) = Some message ->
      text_to_vector hash message DIM = Some q ->
      resolves hash rows req q
  | by_reference (sid : string) :
      nonempty (message_text req) = None ->
      nonempty (summary_id req) = Some sid ->
      get_embedding rows "summary" sid = Some q ->
      resolves hash rows req q.

(** The count of results falls short of [top_k] exactly when fewer eligible
    candidates exist. *)
Definition short_only_when_few (hash : string -> Z) (rows : list row)
    (req : SearchSimilarRequest) : Prop :=
  (Z.of_nat (length (related_of (api_search_similar hash rows req))) < top_k req)%Z
  <-> (Z.of_nat (length (eligible req rows)) < top_k req)%Z.

End Main.

(** ** [embedding_service.py]: the learned-model service *)

Module Service.

Record row : Type := {
  item_type : string;
  item_id : string;
  vector_blob : blob;
  timestamp : string;
  text_content : option string
}.

Definition key (r : row) : string * string := (item_type r, item_id r).

(** An entry of the list that [search_similar_items] returns. *)
Record result : Type := {
  result_type : string;
  result_id : string;
  score : R;
  text : string
}.

(** [EmbeddingService.cosine_similarity].  The body sits in a [try] whose
    handler returns [0.0], so the function always returns a float; numpy's
    scalar division does not raise. *)
Definition cosine_similarity (vec1 vec2 : vector) : R :=
  match np_dot vec1 vec2 with
  | None => 0
  | Some dot_product =>
      let norm_v1 := l2_norm vec1 in
      let norm_v2 := l2_norm vec2 in
      if Req_dec_T norm_v1 0 then 0
      else if Req_dec_T norm_v2 0 then 0
      else dot_product / (norm_v1 * norm_v2)
  end.

Section WithModel.
(** [self.model.encode([text])[0].tolist()]: the sentence-transformer, with
    [None] when loading the model or encoding raises. *)
Variable encode : string -> option vector.

(** The random generator is threaded through: the fallback draws from it. *)
Definition generate_embedding (text : string) (g : rng) : vector * rng :=
  match encode text with
  | Some embedding => (embedding, g)
  | None => np_random_random 384 g
  end.

Definition store_embedding (db_ok : bool) (ts : string) (rows : list row)
    (g : rng) (item_type item_id text : string) : bool * list row * rng :=
  let '(embedding, g') := generate_embedding text g in
  let vector_blob := json_dumps embedding in
  if db_ok then
    (true,
     insert_or_replace key
       {| item_type := item_type; item_id := item_id;
          vector_blob := vector_blob; timestamp := ts;
          text_content := Some text |} rows,
     g')
  else (false, rows, g').

(** One turn of the scoring loop: [None] when the row is skipped, either by
    [continue] or by the handler of the inner [try]. *)
Definition score_row (query_embedding : vector) (r : row) : option result :=
  match nonempty (text_content r) with
  | None => None
  | Some content =>
      match json_loads (vector_blob r) with
      | None => None
      | Some item_embedding =>
          Some {| result_type := item_type r; result_id := item_id r;
                  score := cosine_similarity query_embedding item_embedding;
                  text := truncate 200 content |}
      end
  end.

Fixpoint score_all (query_embedding : vector) (rows : list row)
  : list result :=
  match rows with
  | [] => []
  | r :: rest =>
      match score_row query_embedding r with
      | Some entry => entry :: score_all query_embedding rest
      | None => score_all query_embedding rest
      end
  end.

(** The part of [search_similar_items] that follows the query embedding. *)
Definition rank (rows : list row) (query_embedding : vector) (top_k : Z)
  : list result :=
  let similarities := score_all query_embedding rows in
  py_slice_to (sort_desc score similarities) top_k.

Definition search_similar_items (rows : list row) (g : rng)
    (query_text summary_id : option string) (top_k : Z)
  : list result * rng :=
  match nonempty query_text, nonempty summary_id with
  | Some query, _ =>
      let '(query_embedding, g') := generate_embedding query g in
      (rank rows query_embedding top_k, g')
  | None, Some sid =>
      match fetchone key ("summary", sid) rows with
      | None => ([], g)
      | Some r =>
          match nonempty (text_content r) with
          | None => ([], g)
          | Some content =>
              let '(query_embedding, g') := generate_embedding content g in
              (rank rows query_embedding top_k, g')
          end
      end
  | None, None => ([], g)
  end.

(** A call of [store_embedding] with its environment, and a sequence of
    such calls on the table and the generator. *)
Record store_call : Type := {
  call_db_ok : bool;
  call_ts : string;
  call_type : string;
  call_id : string;
  call_text : string
}.

Definition store_all (calls : list store_call) (rows : list row) (g : rng)
  : list row * rng :=
  fold_left
    (fun (st : list row * rng) c =>
       let '(_, rows', g') :=
         store_embedding (call_db_ok c) (call_ts c) st.1 st.2
           (call_type c) (call_id c) (call_text c) in
       (rows', g'))
    calls (rows, g).
End WithModel.

(** The rows that the scoring loop keeps: non-empty text, parsable vector. *)
Definition eligible (rows : list row) : list row :=
  List.filter
    (fun r => match nonempty (text_content r), json_loads (vector_blob r) with
              | Some _, Some _ => true
              | _, _ => false
              end) rows.

(** The search reaches the ranking with query embedding [q], leaving the
    generator in state [g']. *)
Inductive resolves (encode : string -> option vector) (rows : list row)
    (g : rng) (query_text summary_id : option string) (q : vector) (g' : rng)
  : Prop :=
  | by_text (query : string) :
      nonempty query_text = Some query ->
      generate_embedding encode query g = (q, g') ->
      resolves encode rows g query_text summary_id q g'
  | by_reference (sid content : string) (r : row) :
      nonempty query_text = None ->
      nonempty summary_id = Some sid ->
      fetchone key ("summary", sid) rows = Some r ->
      nonempty (text_content r) = Some content ->
      generate_embedding encode content g = (q, g') ->
      resolves encode rows g query_text summary_id q g'.

End Service.

(** ** Cosine similarity as the specification words it

    [dot(v, w) / (|v| * |w|)], and [0] when a norm is zero.  The dot product
    runs over the positions that both vectors have. *)

Module CosineSpec.

Fixpoint dot (v w : vector) : R :=
  match v, w with
  | a :: v', b :: w' => a * b + dot v' w'
  | _, _ => 0
  end.

Fixpoint sum_of_squares (v : vector) : R :=
  match v with
  | [] => 0
  | a :: v' => a * a + sum_of_squares v'
  end.

Definition norm (v : vector) : R := sqrt (sum_of_squares v).

Definition cosine (v w : vector) : R :=
  if Req_dec_T (norm v) 0 then 0
  else if Req_dec_T (norm w) 0 then 0
  else dot v w / (norm v * norm w).

End CosineSpec.

(** ** [main.py]: [cosine_similarity] in double precision

    The same function on IEEE 754 binary64 numbers, which is what a Python
    [float] is: every sum, product and quotient is rounded, a product may
    overflow to infinity and [inf / inf] is NaN.  [x ** 0.5] is taken as the
    correctly rounded square root; on infinity it is infinity whatever the
    rounding of the library's [pow]. *)

Module Double.

(** [sum(xs)]: the accumulation starts from the integer [0], and [0 + x] is
    [x]. *)
Definition py_sum (xs : list float) : float :=
  fold_left PrimFloat.add xs 0%float.

(** The division raises [ZeroDivisionError] on a zero divisor ([None]). *)
Definition cosine_similarity (v1 v2 : list float) : option float :=
  let dot :=
    py_sum (map (fun ab : float * float => PrimFloat.mul ab.1 ab.2)
                (combine v1 v2)) in
  let n1 := PrimFloat.sqrt (py_sum (map (fun a => PrimFloat.mul a a) v1)) in
  let n2 := PrimFloat.sqrt (py_sum (map (fun b => PrimFloat.mul b b) v2)) in
  if PrimFloat.eqb n1 0%float || PrimFloat.eqb n2 0%float then Some 0%float
  else if PrimFloat.eqb (PrimFloat.mul n1 n2) 0%float then None
  else Some (PrimFloat.div dot (PrimFloat.mul n1 n2)).

(** The double that Python reads [1e200] as. *)
Definition big : float := 0x1.4e718d7d7625ap+664%float.

End Double.

(** ** The hashing embedding as the specification words it

    Tokens are hashed into [D] buckets, bucket [i] counts the tokens whose
    hash is [i] modulo [D], and the histogram is scaled to unit L2 norm (the
    all-zero histogram is left as it is). *)

Module HashingSpec.

Definition bucket_count (hash : string -> Z) (D : Z) (tokens : list string)
    (i : nat) : nat :=
  length (List.filter (fun t => (hash t mod D =? Z.of_nat i)%Z) tokens).

Definition histogram (hash : string -> Z) (D : Z) (tokens : list string)
  : vector :=
  (fun i => INR (bucket_count hash D tokens i)) <$> seq 0 (Z.to_nat D).

Definition unit_scaled (h : vector) : vector :=
  if Req_dec_T (l2_norm h) 0 then h else (fun c => c / l2_norm h) <$> h.

Definition embed (hash : string -> Z) (D : Z) (text : string) : vector :=
  unit_scaled (histogram hash D (py_split text)).

End HashingSpec.

(** ** Tokens

    A token is a non-empty run of characters without whitespace. *)

Fixpoint has_space (s : string) : bool :=
  match s with
  | EmptyString => false
  | String c s' => is_space c || has_space s'
  end.

Definition is_token (t : string) : Prop := t <> EmptyString /\ has_space t = false.

(** ** Whitespace tokens as the specification words them

    A text is a run of whitespace followed, any number of times, by a token
    and what comes after it; a token is a non-empty run without whitespace
    that ends where the text ends or where whitespace begins. *)

Fixpoint all_space (s : string) : bool :=
  match s with
  | EmptyString => true
  | String c s' => is_space c && all_space s'
  end.

(** Nothing, or something that starts with whitespace. *)
Definition boundary (s : string) : Prop :=
  match s with
  | EmptyString => True
  | String c _ => is_space c = true
  end.

Inductive tokenised : string -> list string -> Prop :=
  | tokenised_end (ws : string) :
      all_space ws = true -> tokenised ws []
  | tokenised_token (ws token rest : string) (tokens : list string) :
      all_space ws = true -> is_token token -> boundary rest ->
      tokenised rest tokens ->
      tokenised (ws ++ token ++ rest) (token :: tokens).

(** ** Sample inputs *)

(** A stand-in for the built-in [hash], used where a concrete one is needed. *)
Definition length_hash (s : string) : Z := Z.of_nat (String.length s).

Definition main_row (t i : string) (v : vector) : Main.row :=
  {| Main.item_type := t; Main.item_id := i;
     Main.vector_blob := json_dumps v;
     Main.timestamp := "2024-01-01T00:00:00" |}.

Definition sample_rows : list Main.row :=
  [ main_row "summary" "s1" [1; 0];
    main_row "summary" "s2" [0; 1];
    main_row "task" "t1" [1; 1] ].

Definition by_summary (sid : string) (k : Z) : Main.SearchSimilarRequest :=
  {| Main.summary_id := Some sid; Main.message_text := None; Main.top_k := k |}.

Definition by_message (message : string) (k : Z) : Main.SearchSimilarRequest :=
  {| Main.summary_id := None; Main.message_text := Some message;
     Main.top_k := k |}.

(** Eleven task rows with ids ["a"] to ["k"]. *)
Definition eleven_rows : list Main.row :=
  map (fun i => main_row "task" (String (ascii_of_nat (97 + i)) "") [1])
      (seq 0 11).

Definition service_row (t i : string) (v : vector) (content : string)
  : Service.row :=
  {| Service.item_type := t; Service.item_id := i;
     Service.vector_blob := json_dumps v;
     Service.timestamp := "2024-01-01T00:00:00";
     Service.text_content := Some content |}.

Definition service_rows : list Service.row :=
  [ service_row "summary" "s1" [1; 0] "hotel booking";
    service_row "summary" "s2" [0; 1] "flight boarding pass";
    service_row "task" "t1" [1; 1] "need hotel help" ].

(** A model that answers, and one that is unavailable. *)
Definition sample_encode (text : string) : option vector :=
  Some [INR (String.length text); 1].

Definition no_model (text : string) : option vector := None.

(** A generator whose [i]-th draw is [1 / (i + 2)]. *)
Definition sample_rng : rng := fun i => / IZR (Z.of_nat i + 2).

(** A row whose payload [json.loads] rejects. *)
Definition corrupt_service_row : Service.row :=
  {| Service.item_type := "task"; Service.item_id := "t9";
     Service.vector_blob := Unparsable "[0.12, 0.5";
     Service.timestamp := "2024-01-01T00:00:00";
     Service.text_content := Some "call the hotel" |}.

(** Two successful stores at the same key. *)
Definition store_twice : list Main.store_call :=
  [ {| Main.call_db_ok := true; Main.call_ts := "2024-01-01T00:00:00";
       Main.call_type := "summary"; Main.call_id := "s1";
       Main.call_text := "hotel booking" |};
    {| Main.call_db_ok := true; Main.call_ts := "2024-01-02T00:00:00";
       Main.call_type := "summary"; Main.call_id := "s1";
       Main.call_text := "flight boarding pass" |} ].

(** ** Auxiliary definitions for the further properties *)

(** The value that [main.cosine_similarity] returns. *)
Definition cosine_value (v w : vector) : R :=
  if Req_dec_T (l2_norm v) 0 then 0
  else if Req_dec_T (l2_norm w) 0 then 0
  else zip_dot v w / (l2_norm v * l2_norm w).

(** A candidate of the hashing endpoint with its score against [q]. *)
Definition scored_against (q : vector) (c : string * string * vector)
  : string * string * R :=
  (c.1, cosine_value q c.2).

(** The table without the rows stored under a key. *)
Definition without_key {row : Type} (key : row -> string * string)
    (k : string * string) (rows : list row) : list row :=
  filter (fun r => key r <> k) rows.

(** ** [embedding_service.py]: indexing what has no embedding yet

    [index_existing_summaries] and [index_existing_tasks] are the same code
    on two tables: the rows of [summaries] (or [tasks]) that have no row in
    [embeddings] under their key are selected, and [store_embedding] is
    called on each.  A row of [summaries] or [tasks] is the pair of its id
    and its text, both present; the list is in the order of the scan. *)

Module Indexing.

(** What the successive calls of [store_embedding] find: whether the write
    goes through, and the clock reading. *)
Definition outcomes : Type := nat -> bool * string.

Definition next (e : outcomes) : outcomes := fun n => e (S n).

(** [SELECT s.id, s.text FROM items s LEFT JOIN embeddings e
     ON s.id = e.item_id AND e.item_type = ? WHERE e.id IS NULL] *)
Definition unindexed (item_type : string) (items : list (string * string))
    (rows : list Service.row) : list (string * string) :=
  List.filter
    (fun s => match fetchone Service.key (item_type, s.1) rows with
              | Some _ => false
              | None => true
              end) items.

Section WithModel.
Variable encode : string -> option vector.

(** The loop over the selected items, with the running [indexed_count]. *)
Fixpoint index_loop (item_type : string) (todo : list (string * string))
    (e : outcomes) (rows : list Service.row) (g : rng) (indexed_count : nat)
  : nat * list Service.row * rng :=
  match todo with
  | [] => (indexed_count, rows, g)
  | (item_id, text) :: rest =>
      let '(ok, rows', g') :=
        Service.store_embedding encode (e 0%nat).1 (e 0%nat).2 rows g
          item_type item_id text in
      index_loop item_type rest (next e) rows' g'
        (if ok then S indexed_count else indexed_count)
  end.

Definition index_existing (item_type : string) (items : list (string * string))
    (e : outcomes) (rows : list Service.row) (g : rng)
  : nat * list Service.row * rng :=
  index_loop item_type (unindexed item_type items rows) e rows g 0.

Definition index_existing_summaries (summaries : list (string * string)) :=
  index_existing "summary" summaries.

Definition index_existing_tasks (tasks : list (string * string)) :=
  index_existing "task" tasks.
End WithModel.

End Indexing.

(** ** [api_chandresh.py]: the endpoints in front of the service *)

Module Chandresh.

Definition MAX_RETRIES : nat := 3.

(** The answers of [/api/store_embedding]. *)
Inductive store_response : Type :=
  | Stored (message : string)
  | StoreHTTP400
  | StoreHTTP500.

(** The answers of [/api/search_similar]. *)
Inductive search_response : Type :=
  | Found (related : list Service.result) (query_type : string)
          (total_found : nat)
  | SearchHTTP400.

(** The answer of [/api/reindex]. *)
Record reindex_response : Type := {
  summaries_indexed : nat;
  tasks_indexed : nat;
  total_indexed : nat
}.

Section WithModel.
Variable encode : string -> option vector.

(** The retry loop of [store_embedding]: an attempt whose store returns
    [False] raises inside the loop and the next attempt follows; when the
    attempts are used up the last exception leaves the loop and becomes the
    500 answer. *)
Fixpoint store_attempts (attempts : nat) (e : Indexing.outcomes)
    (rows : list Service.row) (g : rng) (item_type item_id text : string)
  : store_response * list Service.row * rng :=
  match attempts with
  | O => (StoreHTTP500, rows, g)
  | S attempts' =>
      let '(success, rows', g') :=
        Service.store_embedding encode (e 0%nat).1 (e 0%nat).2 rows g
          item_type item_id text in
      if success then
        (Stored ("Embedding stored for " ++ item_type ++ " " ++ item_id)%string,
         rows', g')
      else
        store_attempts attempts' (Indexing.next e) rows' g'
          item_type item_id text
  end.

Definition store_embedding (e : Indexing.outcomes) (rows : list Service.row)
    (g : rng) (item_type item_id text : string)
  : store_response * list Service.row * rng :=
  if String.eqb item_type "" || String.eqb item_id "" || String.eqb text ""
  then (StoreHTTP400, rows, g)
  else store_attempts MAX_RETRIES e rows g item_type item_id text.

(** [search_similar_items] returns normally whatever happens inside it, so
    the first attempt of the retry loop of [search_similar] returns. *)
Definition search_similar (rows : list Service.row) (g : rng)
    (summary_id message_text : option string) (top_k : option Z)
  : search_response * rng :=
  match nonempty summary_id, nonempty message_text with
  | None, None => (SearchHTTP400, g)
  | Some sid, _ =>
      let '(related_items, g') :=
        Service.search_similar_items encode rows g None (Some sid)
          (default 3%Z top_k) in
      (Found related_items "summary_id" (length related_items), g')
  | None, Some _ =>
      let '(related_items, g') :=
        Service.search_similar_items encode rows g
          (Some (default EmptyString message_text)) None
          (default 3%Z top_k) in
      (Found related_items "message_text" (length related_items), g')
  end.

(** [trigger_reindex]: the summaries, then the tasks; [e1] and [e2] are the
    outcomes that the two passes find. *)
Definition trigger_reindex (summaries tasks : list (string * string))
    (e1 e2 : Indexing.outcomes) (rows : list Service.row) (g : rng)
  : reindex_response * list Service.row * rng :=
  let '(summary_count, rows1, g1) :=
    Indexing.index_existing_summaries encode summaries e1 rows g in
  let '(task_count, rows2, g2) :=
    Indexing.index_existing_tasks encode tasks e2 rows1 g1 in
  ({| summaries_indexed := summary_count;
      tasks_indexed := task_count;
      total_indexed := summary_count + task_count |},
   rows2, g2).
End WithModel.

End Chandresh.

(** Outcomes for the samples: every write goes through. *)
Definition all_writes_ok : Indexing.outcomes :=
  fun _ => (true, "2024-01-03T00:00:00").

(** The write fails twice, then goes through. *)
Definition third_write_ok : Indexing.outcomes :=
  fun n => (Nat.leb 2 n, "2024-01-03T00:00:00").

Definition sample_summaries : list (string * string) :=
  [ ("s1", "hotel booking"); ("s3", "train to the airport") ].

(** The rows that an indexing pass may add: under the indexed type, for one
    of the given items, with that item's text beside the vector. *)
Definition added_by (t : string) (items : list (string * string))
    (r : Service.row) : Prop :=
  Service.item_type r = t /\
  exists text, In (Service.item_id r, text) items /\
               Service.text_content r = Some text.

(** ** [main.py]: the safety filter and the responder *)

Module Responder.

(** [str.lower] on a code point below 256: the ASCII capitals and the
    Latin-1 capitals (all of 192..222 but the multiplication sign) move up
    by 32. *)
Definition lower_char (c : ascii) : ascii :=
  let n := N_of_ascii c in
  if ((65 <=? n) && (n <=? 90)
      || (192 <=? n) && (n <=? 222) && negb (n =? 215))%N
  then ascii_of_N (n + 32) else c.

Fixpoint lower (s : string) : string :=
  match s with
  | EmptyString => EmptyString
  | String c s' => String (lower_char c) (lower s')
  end.

(** [w in s] on strings: [w] occurs in [s] as a substring. *)
Fixpoint contains (w s : string) : bool :=
  String.prefix w s ||
  match s with
  | EmptyString => false
  | String _ s' => contains w s'
  end.

(** The members of the set [BANNED_WORDS]. *)
Definition BANNED_WORDS : list string := ["badword"; "unsafe"].

(** The loop of [check_safety] over the words in the order in which the set
    is iterated. *)
Fixpoint first_banned (words : list string) (lower : string)
  : bool * option string :=
  match words with
  | [] => (true, None)
  | w :: rest =>
      if contains w lower then
        (false, Some ("Contains banned word: " ++ w)%string)
      else first_banned rest lower
  end.

(** [order] is the iteration order of the set, which Python leaves open. *)
Definition check_safety (order : list string) (text : string)
  : bool * option string :=
  first_banned order (lower text).

Definition generate_response (task_id : string) : string * string :=
  (("Generated response for task " ++ task_id)%string, "polite").

Record RespondRequest : Type := {
  task_id : string;
  user_id : option string;
  task_text : option string
}.

(** A row of the table [responses], whose primary key is [response_id]. *)
Record response_row : Type := {
  row_response_id : string;
  row_task_id : string;
  row_user_id : string;
  row_response_text : string;
  row_tone : string;
  row_status : string;
  row_timestamp : string
}.

Record RespondResponse : Type := {
  response_id : string;
  response_task_id : string;
  response_text : string;
  tone : string;
  status : string;
  timestamp : string
}.

(** [uuid_hex] is [uuid.uuid4().hex] and [now] the clock reading.  The
    [INSERT] is a plain one: it raises when the write fails or when the
    primary key is already taken, and the handler does not catch that
    ([None]). *)
Definition api_respond (order : list string) (uuid_hex now : string)
    (db_ok : bool) (responses : list response_row) (req : RespondRequest)
  : option RespondResponse * list response_row :=
  let '(text, tone) := generate_response (task_id req) in
  let '(ok, _) := check_safety order text in
  let status := if ok then "ok" else "flagged" in
  let response_id := ("r" ++ substring 0 8 uuid_hex)%string in
  let timestamp := now in
  if db_ok
     && negb (existsb (fun r => String.eqb (row_response_id r) response_id)
                responses)
  then
    (Some {| response_id := response_id; response_task_id := task_id req;
             response_text := text; tone := tone; status := status;
             timestamp := timestamp |},
     responses ++
       [{| row_response_id := response_id; row_task_id := task_id req;
           row_user_id := default "u1" (nonempty (user_id req));
           row_response_text := text; row_tone := tone;
           row_status := status; row_timestamp := timestamp |}])
  else (None, responses).

End Responder.

(** ** [main.py]: the metrics report *)

Module Metrics.

(** A row of the table [metrics]; [status_code] and [latency_ms] may be
    NULL. *)
Record row : Type := {
  endpoint : string;
  status_code : option Z;
  latency_ms : option R
}.

(** [sc is not None and int(sc) >= 400] *)
Definition is_error (r : row) : bool :=
  match status_code r with
  | Some sc => (400 <=? sc)%Z
  | None => false
  end.

(** [float(lat) for _, lat in rows]: [float(None)] raises ([None]). *)
Fixpoint latencies (rows : list row) : option vector :=
  match rows with
  | [] => Some []
  | r :: rest =>
      lat ← latency_ms r; lats ← latencies rest; Some (lat :: lats)
  end.

(** SQL's [AVG]: the mean of the values that are not NULL, NULL when there
    is none. *)
Definition sql_avg (values : list (option R)) : option R :=
  match omap (fun v : option R => v) values with
  | [] => None
  | present => Some (py_sum present / INR (length present))
  end.

Definition group (rows : list row) (ep : string) : list row :=
  filter (fun r => endpoint r = ep) rows.

(** [SELECT endpoint, COUNT( * ), AVG(latency_ms) FROM metrics
     GROUP BY endpoint]: one row per endpoint that occurs.  SQL leaves the
    order of the groups open; the list is in one such order. *)
Definition ep_rows (rows : list row) : list (string * nat * option R) :=
  (fun ep => (ep, length (group rows ep),
              sql_avg (latency_ms <$> group rows ep)))
    <$> remove_dups (endpoint <$> rows).

Record endpoint_stat : Type := {
  stat_endpoint : string;
  calls : nat;
  stat_avg_latency_ms : R
}.

Record api_metrics_part : Type := {
  total_calls : nat;
  error_count : nat;
  part_avg_latency_ms : R;
  part_error_rate : R
}.

Record report : Type := {
  total_messages : nat;
  total_summaries : nat;
  total_tasks : nat;
  total_responses : nat;
  avg_latency_ms : R;
  error_rate : R;
  endpoint_stats : list endpoint_stat;
  api_metrics_of : api_metrics_part;
  service_status : string
}.

(** [responses] is the result of [SELECT COUNT( * ) FROM responses]; the
    parameter [hours] of the handler is not used by it. *)
Definition api_metrics (rows : list row) (responses : nat) : option report :=
  let total_calls := length rows in
  let error_count := length (List.filter is_error rows) in
  avg_latency ←
    (if (0 <? total_calls)%nat then
       lats ← latencies rows; py_div (py_sum lats) (INR total_calls)
     else Some 0);
  error_rate ←
    (if (0 <? total_calls)%nat then
       py_div (INR error_count) (INR total_calls)
     else Some 0);
  let endpoint_stats :=
    (fun x : string * nat * option R =>
       {| stat_endpoint := x.1.1; calls := x.1.2;
          stat_avg_latency_ms := default 0 x.2 |}) <$> ep_rows rows in
  Some {| total_messages := 0; total_summaries := 0; total_tasks := 0;
          total_responses := responses;
          avg_latency_ms := avg_latency;
          error_rate := error_rate;
          endpoint_stats := endpoint_stats;
          api_metrics_of :=
            {| total_calls := total_calls; error_count := error_count;
               part_avg_latency_ms := avg_latency;
               part_error_rate := error_rate |};
          service_status :=
            if (0 <=? total_calls)%nat then "active" else "unknown" |}.

End Metrics.

Definition sample_metrics : list Metrics.row :=
  [ {| Metrics.endpoint := "/api/respond"; Metrics.status_code := Some 200%Z;
       Metrics.latency_ms := Some 12 |};
    {| Metrics.endpoint := "/api/search_similar";
       Metrics.status_code := Some 400%Z; Metrics.latency_ms := Some 3 |};
    {| Metrics.endpoint := "/api/respond"; Metrics.status_code := Some 500%Z;
       Metrics.latency_ms := Some 30 |} ].

(** ** [main.py] on arbitrary column contents

    [Main] reads tables whose [vector_blob] holds what [store_embedding]
    writes, a JSON array of floats, or a text that [json.loads] rejects.  The
    column is TEXT and [json.loads] accepts every JSON document: [Raw] is the
    same scan and the same handler on tables whose column holds any document
    or any invalid text.  A document that is not a sequence of numbers is kept
    by the scan, and the arithmetic of [cosine_similarity] raises [TypeError]
    on it. *)

Module Raw.

(** A JSON document as [json.loads] returns it. *)
#[warnings="-register-all"]
Inductive json : Type :=
  | JNull
  | JBool (b : bool)
  | JNumber (x : R)
  | JString (s : string)
  | JArray (items : list json)
  | JObject (members : list (string * json)).

(** What [json.loads] makes of the column: a document, or
    [json.JSONDecodeError]. *)
Inductive column : Type :=
  | Document (d : json)
  | Invalid (raw : string).

Definition json_loads (c : column) : option json :=
  match c with
  | Document d => Some d
  | Invalid _ => None
  end.

Record row : Type := {
  item_type : string;
  item_id : string;
  vector_blob : column;
  timestamp : string
}.

Definition key (r : row) : string * string := (item_type r, item_id r).

(** A Python list of floats, as [text_to_vector] returns it and as
    [json.dumps] writes it. *)
Definition of_vector (v : vector) : json := JArray (JNumber <$> v).

(** The operands that [*] and [+] take here: an [int], a [float] or a [bool]
    ([True] is [1]).  A product with anything else either raises or is a
    string or a list, which [sum] cannot add to its [0]. *)
Definition number (d : json) : option R :=
  match d with
  | JNumber x => Some x
  | JBool b => Some (if b then 1 else 0)
  | _ => None
  end.

(** What [zip] and a generator iterate: the items of a list, the characters
    of a string, the keys of a dict; the other values are not iterable. *)
Definition iterate (d : json) : option (list json) :=
  match d with
  | JArray items => Some items
  | JString s =>
      Some ((fun c => JString (String c EmptyString))
              <$> list_ascii_of_string s)
  | JObject members => Some ((fun m => JString m.1) <$> members)
  | _ => None
  end.

Fixpoint all_numbers (items : list json) : option vector :=
  match items with
  | [] => Some []
  | d :: rest => x ← number d; xs ← all_numbers rest; Some (x :: xs)
  end.

Definition numbers (d : json) : option vector :=
  items ← iterate d; all_numbers items.

(** [cosine_similarity] on two values.  The second and third sums iterate
    each value in full, so the call raises [TypeError] ([None]) unless both
    values are sequences of numbers. *)
Definition cosine_similarity (v1 v2 : json) : option R :=
  a ← numbers v1; b ← numbers v2; Main.cosine_similarity a b.

Definition get_embedding (rows : list row) (item_type item_id : string)
  : option json :=
  match fetchone key (item_type, item_id) rows with
  | None => None
  | Some r => json_loads (vector_blob r)
  end.

Fixpoint get_all_embeddings (rows : list row)
  : list (string * string * json) :=
  match rows with
  | [] => []
  | r :: rest =>
      match json_loads (vector_blob r) with
      | Some vec => (item_type r, item_id r, vec) :: get_all_embeddings rest
      | None => get_all_embeddings rest
      end
  end.

(** The scoring loop, outside any [try]. *)
Fixpoint score_all (req : Main.SearchSimilarRequest) (query_vec : json)
    (candidates : list (string * string * json))
  : option (list (string * string * R)) :=
  match candidates with
  | [] => Some []
  | (item_type, item_id, vec) :: rest =>
      if Main.is_self req item_type item_id then score_all req query_vec rest
      else
        s ← cosine_similarity query_vec vec;
        scored ← score_all req query_vec rest;
        Some ((item_type, item_id, s) :: scored)
  end.

Definition rank (req : Main.SearchSimilarRequest) (rows : list row)
    (query_vec : json) : Main.response :=
  match score_all req query_vec (get_all_embeddings rows) with
  | None => Main.Uncaught
  | Some scored =>
      let sorted := sort_desc snd scored in
      let top := py_slice_to sorted (Main.limit req) in
      Main.SearchSimilarResponse (map Main.to_related top)
  end.

(** A referenced summary whose document is [null] reads as [None] and is
    answered like a missing one. *)
Definition api_search_similar (hash : string -> Z) (rows : list row)
    (req : Main.SearchSimilarRequest) : Main.response :=
  match nonempty (Main.message_text req), nonempty (Main.summary_id req) with
  | None, None => Main.HTTP400
  | Some message, _ =>
      match Main.text_to_vector hash message Main.DIM with
      | Some query_vec => rank req rows (of_vector query_vec)
      | None => Main.Uncaught
      end
  | None, Some sid =>
      match get_embedding rows "summary" sid with
      | Some JNull => Main.SearchSimilarResponse []
      | Some ev => rank req rows ev
      | None => Main.SearchSimilarResponse []
      end
  end.

(** A table of [Main] as a table of [Raw]. *)
Definition of_blob (b : blob) : column :=
  match b with
  | JsonArray v => Document (of_vector v)
  | Unparsable raw => Invalid raw
  end.

Definition of_main (r : Main.row) : row :=
  {| item_type := Main.item_type r; item_id := Main.item_id r;
     vector_blob := of_blob (Main.vector_blob r);
     timestamp := Main.timestamp r |}.

(** A record as [store_embedding] writes it. *)
Definition well_formed (r : row) : Prop :=
  exists v, vector_blob r = Document (of_vector v).

End Raw.

Definition raw_row (t i : string) (c : Raw.column) : Raw.row :=
  {| Raw.item_type := t; Raw.item_id := i; Raw.vector_blob := c;
     Raw.timestamp := "2024-01-01T00:00:00" |}.

(** Two well-formed records around one whose text is cut short. *)
Definition raw_rows : list Raw.row :=
  [ raw_row "summary" "s1" (Raw.Document (Raw.of_vector [1; 0]));
    raw_row "task" "t9" (Raw.Invalid "[0.12, 0.5");
    raw_row "summary" "s2" (Raw.Document (Raw.of_vector [0; 1])) ].

(** The built-in [hash] of two interpreter processes.  The hash of a [str]
    is salted with a value drawn when the interpreter starts, so two
    processes need not agree on a token: these two put ["hotel"] in buckets
    28 and 22 of 64. *)
Definition hash_of_first_process (s : string) : Z :=
  if String.eqb s "hotel" then 28 else Z.of_nat (String.length s).

Definition hash_of_second_process (s : string) : Z :=
  if String.eqb s "hotel" then 22 else Z.of_nat (String.length s).

(** * Properties *)

(** ** Facts about sums and norms *)

Section Sums.

Lemma py_sum_from (xs : vector) (a : R) :
  fold_left Rplus xs a = a + py_sum xs.
Proof.
  unfold py_sum. revert a.
  induction xs as [|x xs IH]; intros a; simpl.
  - lra.
  - rewrite (IH (a + x)), (IH (0 + x)). lra.
Qed.

Lemma py_sum_cons (x : R) (xs : vector) : py_sum (x :: xs) = x + py_sum xs.
Proof. unfold py_sum at 1. simpl. rewrite py_sum_from. lra. Qed.

Lemma py_sum_nil : py_sum [] = 0.
Proof. reflexivity. Qed.

Lemma sum_squares_nonneg (v : vector) : 0 <= py_sum (squares v).
Proof.
  induction v as [|a v IH]; simpl.
  - rewrite py_sum_nil. lra.
  - rewrite py_sum_cons. pose proof (Rle_0_sqr a) as Ha. unfold Rsqr in Ha. lra.
Qed.

Lemma sum_squares_pos (v : vector) :
  Exists (fun a => a <> 0) v -> 0 < py_sum (squares v).
Proof.
  induction 1 as [a v Ha | a v _ IH]; simpl; rewrite py_sum_cons.
  - pose proof (sum_squares_nonneg v).
    assert (0 < a * a) by (apply Rsqr_pos_lt in Ha; exact Ha). lra.
  - pose proof (Rle_0_sqr a) as Ha. unfold Rsqr in Ha. lra.
Qed.

Lemma sum_squares_zero (v : vector) :
  py_sum (squares v) = 0 -> Forall (fun a => a = 0) v.
Proof.
  induction v as [|a v IH]; simpl; intros H.
  - constructor.
  - rewrite py_sum_cons in H.
    pose proof (sum_squares_nonneg v) as Hv.
    pose proof (Rle_0_sqr a) as Ha. unfold Rsqr in Ha.
    constructor.
    + apply Rsqr_0_uniq. unfold Rsqr. lra.
    + apply IH. lra.
Qed.

Lemma l2_norm_eq (v : vector) : l2_norm v = sqrt (py_sum (squares v)).
Proof. reflexivity. Qed.

Lemma l2_norm_sqr (v : vector) : l2_norm v * l2_norm v = py_sum (squares v).
Proof. rewrite l2_norm_eq. apply sqrt_sqrt, sum_squares_nonneg. Qed.

Lemma l2_norm_nonneg (v : vector) : 0 <= l2_norm v.
Proof. rewrite l2_norm_eq. apply sqrt_pos. Qed.

Lemma l2_norm_nonzero (v : vector) :
  Exists (fun a => a <> 0) v -> l2_norm v <> 0.
Proof.
  intros H. apply sum_squares_pos in H. rewrite l2_norm_eq.
  apply Rgt_not_eq, sqrt_lt_R0, H.
Qed.

Lemma l2_norm_zero_iff (v : vector) :
  l2_norm v = 0 <-> Forall (fun a => a = 0) v.
Proof.
  split.
  - intros H. apply sum_squares_zero.
    rewrite <- l2_norm_sqr, H. lra.
  - intros H. rewrite l2_norm_eq.
    replace (py_sum (squares v)) with 0; [apply sqrt_0|].
    induction H as [|a v Ha _ IH]; simpl.
    + reflexivity.
    + rewrite py_sum_cons, <- IH, Ha. lra.
Qed.

Lemma zip_dot_self (v : vector) : zip_dot v v = py_sum (squares v).
Proof.
  unfold zip_dot, squares. f_equal.
  induction v as [|a v IH]; simpl; [reflexivity|]. now rewrite IH.
Qed.

Lemma zip_dot_cons (a b : R) (v w : vector) :
  zip_dot (a :: v) (b :: w) = a * b + zip_dot v w.
Proof. unfold zip_dot. simpl. now rewrite py_sum_cons. Qed.

End Sums.

(** ** Cosine similarity *)

Section Cosine.

Lemma py_div_nonzero (x y : R) : y <> 0 -> py_div x y = Some (x / y).
Proof. intros Hy. unfold py_div. destruct (Req_dec_T y 0); [contradiction | reflexivity]. Qed.

Lemma norm_product_nonzero (v w : vector) :
  l2_norm v <> 0 -> l2_norm w <> 0 -> l2_norm v * l2_norm w <> 0.
Proof. intros Hv Hw. apply Rmult_integral_contrapositive_currified; assumption. Qed.

Lemma main_cosine_nonzero (v w : vector) :
  l2_norm v <> 0 -> l2_norm w <> 0 ->
  Main.cosine_similarity v w = Some (zip_dot v w / (l2_norm v * l2_norm w)).
Proof.
  intros Hv Hw. unfold Main.cosine_similarity.
  destruct (Req_dec_T (l2_norm v) 0) as [E|_]; [contradiction|].
  destruct (Req_dec_T (l2_norm w) 0) as [E|_]; [contradiction|].
  apply py_div_nonzero, norm_product_nonzero; assumption.
Qed.

Lemma main_cosine_zero (v w : vector) :
  l2_norm v = 0 \/ l2_norm w = 0 -> Main.cosine_similarity v w = Some 0.
Proof.
  intros H. unfold Main.cosine_similarity.
  destruct (Req_dec_T (l2_norm v) 0) as [_|Hv]; [reflexivity|].
  destruct (Req_dec_T (l2_norm w) 0) as [_|Hw]; [reflexivity|].
  destruct H; contradiction.
Qed.

Lemma main_cosine_returns (v w : vector) :
  exists s, Main.cosine_similarity v w = Some s.
Proof.
  destruct (Req_dec_T (l2_norm v) 0) as [Hv|Hv].
  - exists 0. apply main_cosine_zero. now left.
  - destruct (Req_dec_T (l2_norm w) 0) as [Hw|Hw].
    + exists 0. apply main_cosine_zero. now right.
    + eexists. now apply main_cosine_nonzero.
Qed.

Lemma np_dot_same_length (v w : vector) :
  length v = length w -> np_dot v w = Some (zip_dot v w).
Proof. intros H. unfold np_dot. now rewrite H, Nat.eqb_refl. Qed.

Lemma service_cosine_nonzero (v w : vector) :
  length v = length w -> l2_norm v <> 0 -> l2_norm w <> 0 ->
  Service.cosine_similarity v w = zip_dot v w / (l2_norm v * l2_norm w).
Proof.
  intros Hlen Hv Hw. unfold Service.cosine_similarity.
  rewrite np_dot_same_length by assumption.
  destruct (Req_dec_T (l2_norm v) 0) as [E|_]; [contradiction|].
  destruct (Req_dec_T (l2_norm w) 0) as [E|_]; [contradiction|].
  reflexivity.
Qed.

Lemma service_cosine_zero (v w : vector) :
  l2_norm v = 0 \/ l2_norm w = 0 -> Service.cosine_similarity v w = 0.
Proof.
  intros H. unfold Service.cosine_similarity.
  destruct (np_dot v w); [|reflexivity].
  destruct (Req_dec_T (l2_norm v) 0) as [_|Hv]; [reflexivity|].
  destruct (Req_dec_T (l2_norm w) 0) as [_|Hw]; [reflexivity|].
  destruct H; contradiction.
Qed.


Lemma zip_dot_is_dot (v w : vector) : zip_dot v w = CosineSpec.dot v w.
Proof.
  revert w. induction v as [|a v IH]; intros [|b w]; try reflexivity.
  rewrite zip_dot_cons, IH. reflexivity.
Qed.

Lemma sum_squares_is_spec (v : vector) :
  py_sum (squares v) = CosineSpec.sum_of_squares v.
Proof.
  induction v as [|a v IH]; [reflexivity|].
  change (squares (a :: v)) with (a * a :: squares v).
  rewrite py_sum_cons, IH. reflexivity.
Qed.

Lemma l2_norm_is_norm (v : vector) : l2_norm v = CosineSpec.norm v.
Proof. unfold l2_norm, CosineSpec.norm. now rewrite sum_squares_is_spec. Qed.

Lemma main_cosine_is_spec (v w : vector) :
  Main.cosine_similarity v w = Some (CosineSpec.cosine v w).
Proof.
  unfold CosineSpec.cosine. rewrite <- !l2_norm_is_norm, <- zip_dot_is_dot.
  destruct (Req_dec_T (l2_norm v) 0) as [Hv|Hv].
  - apply main_cosine_zero. now left.
  - destruct (Req_dec_T (l2_norm w) 0) as [Hw|Hw].
    + apply main_cosine_zero. now right.
    + now apply main_cosine_nonzero.
Qed.

(** C2, as amended.  Over exact real arithmetic [cosine_similarity v w] is
    the cosine of the specification: the sum of the products of the
    components over the product of the Euclidean norms when both norms are
    non-zero, and [0] when either norm is zero.  In [main.py] this holds for
    every pair of vectors (the dot product runs over the common positions)
    and the call always returns: the division is never given a zero divisor.
    In the service it holds for vectors of equal length; for other pairs the
    service returns [0]. *)
Theorem cosine_similarity_formula (v w : vector) :
  Main.cosine_similarity v w = Some (CosineSpec.cosine v w) /\
  (CosineSpec.norm v <> 0 -> CosineSpec.norm w <> 0 ->
   CosineSpec.norm v * CosineSpec.norm w <> 0 /\
   Main.cosine_similarity v w
   = Some (CosineSpec.dot v w / (CosineSpec.norm v * CosineSpec.norm w))) /\
  (CosineSpec.norm v = 0 \/ CosineSpec.norm w = 0 ->
   Main.cosine_similarity v w = Some 0 /\ Service.cosine_similarity v w = 0) /\
  (length v = length w ->
   Service.cosine_similarity v w = CosineSpec.cosine v w) /\
  (length v <> length w -> Service.cosine_similarity v w = 0).
Proof.
  split; [apply main_cosine_is_spec|]. split; [|split; [|split]].
  - intros Hv Hw. split.
    + apply Rmult_integral_contrapositive_currified; assumption.
    + rewrite main_cosine_is_spec. unfold CosineSpec.cosine.
      destruct (Req_dec_T (CosineSpec.norm v) 0); [contradiction|].
      destruct (Req_dec_T (CosineSpec.norm w) 0); [contradiction|].
      reflexivity.
  - rewrite <- !l2_norm_is_norm. intros H. split.
    + now apply main_cosine_zero.
    + now apply service_cosine_zero.
  - intros Hlen. unfold CosineSpec.cosine.
    rewrite <- !l2_norm_is_norm, <- zip_dot_is_dot.
    destruct (Req_dec_T (l2_norm v) 0) as [Hv|Hv].
    + apply service_cosine_zero. now left.
    + destruct (Req_dec_T (l2_norm w) 0) as [Hw|Hw].
      * apply service_cosine_zero. now right.
      * now apply service_cosine_nonzero.
  - intros Hlen. unfold Service.cosine_similarity, np_dot.
    destruct (Nat.eqb_spec (length v) (length w)); [contradiction|reflexivity].
Qed.

Lemma cosine_similarity_formula_witness :
  Service.cosine_similarity [3; 4] [4; 3] = CosineSpec.cosine [3; 4] [4; 3] /\
  Main.cosine_similarity [3; 4] [0; 0] = Some 0.
Proof.
  destruct (cosine_similarity_formula [3; 4] [4; 3]) as (_ & _ & _ & Hs & _).
  destruct (cosine_similarity_formula [3; 4] [0; 0]) as (_ & _ & Hz & _).
  split; [exact (Hs eq_refl)|].
  apply Hz. right. unfold CosineSpec.norm. cbn [CosineSpec.sum_of_squares].
  replace (0 * 0 + (0 * 0 + 0)) with 0 by ring. apply sqrt_0.
Defined.

(** C2 fails as first stated: a Python [float] is a double, and on doubles
    the squares of [1e200] overflow, both norms are infinite (so neither is
    zero), and the quotient [inf / inf] that the function returns is NaN. *)
Lemma cosine_similarity_nan :
  exists s, Double.cosine_similarity [Double.big] [Double.big] = Some s /\
            PrimFloat.is_nan s = true.
Proof. eexists. split; [vm_compute; reflexivity | reflexivity]. Qed.

(** Rounding alone moves a score off the exact value: the vector [1, 1, 1]
    scores above 1 against itself. *)
Example cosine_similarity_rounding :
  exists s, Double.cosine_similarity [1; 1; 1]%float [1; 1; 1]%float = Some s /\
            PrimFloat.ltb 1%float s = true.
Proof. eexists. split; [vm_compute; reflexivity | reflexivity]. Qed.



End Cosine.

(** ** The hashing embedding *)

Section Hashing.
Variable hash : string -> Z.

Lemma py_index_in_range (len : nat) (idx : Z) :
  (0 <= idx < Z.of_nat len)%Z -> py_index len idx = Some (Z.to_nat idx).
Proof.
  intros [H0 H1]. unfold py_index.
  destruct (Z.leb_spec 0 idx); [|lia].
  destruct (Z.ltb_spec idx (Z.of_nat len)); [reflexivity|lia].
Qed.

Lemma bump_in_range (dim : Z) (vec : vector) (token : string) :
  (0 < dim)%Z -> length vec = Z.to_nat dim ->
  Main.bump hash dim vec token
    = Some (alter (fun x => x + 1) (Z.to_nat (hash token mod dim)) vec).
Proof.
  intros Hdim Hlen. unfold Main.bump, py_mod.
  destruct (Z.eqb_spec dim 0); [lia|]. simpl.
  pose proof (Z.mod_pos_bound (hash token) dim Hdim).
  rewrite py_index_in_range by lia. reflexivity.
Qed.

(** The loop adds to every position the number of tokens hashed to it. *)
Lemma accumulate_counts (dim : Z) (tokens : list string) :
  (0 < dim)%Z -> forall vec : vector, length vec = Z.to_nat dim ->
  exists vec' : vector,
    Main.accumulate hash dim vec tokens = Some vec' /\
    length vec' = Z.to_nat dim /\
    forall (i : nat) (x : R), vec !! i = Some x ->
      vec' !! i = Some (x + INR (HashingSpec.bucket_count hash dim tokens i)).
Proof.
  intros Hdim. induction tokens as [|token rest IH]; intros vec Hlen.
  - exists vec. split; [reflexivity|]. split; [assumption|].
    intros i x Hx. rewrite Hx. f_equal. simpl. lra.
  - simpl. rewrite bump_in_range by assumption. simpl.
    set (j := Z.to_nat (hash token mod dim)).
    destruct (IH (alter (fun x => x + 1) j vec)) as (vec' & Hacc & Hlen' & Hget).
    { now rewrite length_alter. }
    exists vec'. split; [assumption|]. split; [assumption|].
    intros i x Hx.
    pose proof (Z.mod_pos_bound (hash token) dim Hdim) as Hb.
    unfold HashingSpec.bucket_count. simpl.
    destruct (Z.eqb_spec (hash token mod dim) (Z.of_nat i)) as [E|E].
    + assert (j = i) as -> by (unfold j; lia).
      rewrite (Hget i (x + 1)).
      * f_equal. simpl length. rewrite S_INR.
        unfold HashingSpec.bucket_count. lra.
      * rewrite list_lookup_alter_eq, Hx. reflexivity.
    + assert (j <> i) by (unfold j; lia).
      rewrite (Hget i x).
      * reflexivity.
      * rewrite list_lookup_alter_ne by assumption. exact Hx.
Qed.

Lemma accumulate_histogram (dim : Z) (tokens : list string) :
  (0 < dim)%Z ->
  Main.accumulate hash dim (replicate (Z.to_nat dim) 0) tokens
    = Some (HashingSpec.histogram hash dim tokens).
Proof.
  intros Hdim.
  destruct (accumulate_counts dim tokens Hdim (replicate (Z.to_nat dim) 0))
    as (vec' & Hacc & Hlen & Hget).
  { apply length_replicate. }
  rewrite Hacc. f_equal. apply list_eq. intros i.
  unfold HashingSpec.histogram. rewrite list_lookup_fmap.
  destruct (decide (i < Z.to_nat dim)%nat) as [Hi|Hi].
  - rewrite (Hget i 0) by (now apply lookup_replicate_2).
    rewrite lookup_seq_lt by assumption. simpl. f_equal. lra.
  - rewrite lookup_seq_ge by lia. simpl.
    apply lookup_ge_None. lia.
Qed.

Lemma l2_normalize_unit_scaled (h : vector) :
  Main.l2_normalize h = HashingSpec.unit_scaled h.
Proof.
  unfold Main.l2_normalize, HashingSpec.unit_scaled.
  pose proof (l2_norm_nonneg h) as Hn.
  destruct (Rlt_dec 0 (l2_norm h)) as [Hp|Hp];
    destruct (Req_dec_T (l2_norm h) 0) as [Hz|Hz]; try reflexivity; lra.
Qed.

Lemma sum_squares_scaled (h : vector) (n : R) :
  n <> 0 ->
  py_sum (squares ((fun c => c / n) <$> h)) = py_sum (squares h) / (n * n).
Proof.
  intros Hn. induction h as [|c h IH].
  - simpl. rewrite py_sum_nil. field. assumption.
  - change (squares ((fun c => c / n) <$> c :: h))
      with (c / n * (c / n) :: squares ((fun c => c / n) <$> h)).
    change (squares (c :: h)) with (c * c :: squares h).
    rewrite !py_sum_cons, IH. field. assumption.
Qed.

Lemma unit_scaled_norm (h : vector) :
  l2_norm h <> 0 -> l2_norm (HashingSpec.unit_scaled h) = 1.
Proof.
  intros Hn. unfold HashingSpec.unit_scaled.
  destruct (Req_dec_T (l2_norm h) 0) as [E|_]; [contradiction|].
  rewrite l2_norm_eq, sum_squares_scaled by assumption.
  rewrite <- l2_norm_sqr.
  replace (l2_norm h * l2_norm h / (l2_norm h * l2_norm h)) with 1
    by (now field).
  apply sqrt_1.
Qed.

Lemma unit_scaled_length (h : vector) :
  length (HashingSpec.unit_scaled h) = length h.
Proof.
  unfold HashingSpec.unit_scaled.
  destruct (Req_dec_T (l2_norm h) 0); [reflexivity|apply length_fmap].
Qed.

Lemma histogram_length (dim : Z) (tokens : list string) :
  length (HashingSpec.histogram hash dim tokens) = Z.to_nat dim.
Proof. unfold HashingSpec.histogram. now rewrite length_fmap, length_seq. Qed.

Lemma histogram_no_tokens (dim : Z) :
  HashingSpec.histogram hash dim [] = replicate (Z.to_nat dim) 0.
Proof.
  unfold HashingSpec.histogram. generalize 0%nat as start.
  induction (Z.to_nat dim) as [|n IH]; intros start; simpl; [reflexivity|].
  now rewrite IH.
Qed.

Lemma replicate_zero_norm (n : nat) : l2_norm (replicate n 0) = 0.
Proof.
  apply l2_norm_zero_iff. induction n; simpl; constructor; auto.
Qed.

Lemma histogram_some_token (dim : Z) (token : string) (rest : list string) :
  (0 < dim)%Z ->
  Exists (fun a => a <> 0) (HashingSpec.histogram hash dim (token :: rest)).
Proof.
  intros Hdim.
  pose proof (Z.mod_pos_bound (hash token) dim Hdim) as Hb.
  apply Exists_exists.
  set (i := Z.to_nat (hash token mod dim)).
  exists (INR (HashingSpec.bucket_count hash dim (token :: rest) i)). split.
  - apply list_elem_of_lookup. exists i.
    unfold HashingSpec.histogram. rewrite list_lookup_fmap.
    rewrite lookup_seq_lt by (unfold i; lia). reflexivity.
  - unfold HashingSpec.bucket_count. simpl.
    destruct (Z.eqb_spec (hash token mod dim) (Z.of_nat i)) as [_|E];
      [|unfold i in E; lia].
    simpl length. rewrite S_INR.
    match goal with |- ?x + 1 <> 0 => assert (0 <= x) by apply pos_INR end.
    lra.
Qed.

Lemma has_space_app (s t : string) :
  has_space (s ++ t) = has_space s || has_space t.
Proof.
  induction s as [|c s IH]; simpl; [reflexivity|].
  now rewrite IH, orb_assoc.
Qed.

Lemma append_cons (c : ascii) (s t : string) :
  (String c s ++ t = String c (s ++ t))%string.
Proof. reflexivity. Qed.

Lemma append_empty_r (s : string) : (s ++ "" = s)%string.
Proof. induction s as [|c s IH]; [reflexivity|]. now rewrite append_cons, IH. Qed.

Lemma append_assoc (s t u : string) : ((s ++ t) ++ u = s ++ (t ++ u))%string.
Proof.
  induction s as [|c s IH]; [reflexivity|]. now rewrite !append_cons, IH.
Qed.

Lemma text_to_vector_embed (text : string) (dim : Z) :
  (0 < dim)%Z ->
  Main.text_to_vector hash text dim = Some (HashingSpec.embed hash dim text).
Proof.
  intros Hdim. unfold Main.text_to_vector, HashingSpec.embed.
  rewrite accumulate_histogram by assumption. simpl.
  now rewrite l2_normalize_unit_scaled.
Qed.

End Hashing.

Example py_split_example :
  py_split "  hotel booking
 confirmation " = ["hotel"; "booking"; "confirmation"].
Proof. reflexivity. Qed.

(** ** Ranking *)

Section RankingFacts.
Context {A : Type} (score : A -> R).

Lemma insert_desc_perm (x : A) (l : list A) :
  Permutation (insert_desc score x l) (x :: l).
Proof.
  induction l as [|y l IH]; simpl.
  - reflexivity.
  - destruct (Rlt_dec (score x) (score y)).
    + rewrite IH. apply perm_swap.
    + reflexivity.
Qed.

Lemma sort_desc_perm (l : list A) : Permutation (sort_desc score l) l.
Proof.
  induction l as [|x l IH]; simpl.
  - reflexivity.
  - rewrite insert_desc_perm. now apply perm_skip.
Qed.

Lemma sort_desc_length (l : list A) : length (sort_desc score l) = length l.
Proof. apply Permutation_length, sort_desc_perm. Qed.

Lemma sort_desc_In (x : A) (l : list A) : In x (sort_desc score l) <-> In x l.
Proof.
  split; apply Permutation_in;
    [apply sort_desc_perm | symmetry; apply sort_desc_perm].
Qed.

Lemma insert_desc_ranked (x : A) (l : list A) :
  ranked score l -> ranked score (insert_desc score x l).
Proof.
  unfold ranked. induction 1 as [|y l Hl IH Hy]; simpl.
  - repeat constructor.
  - destruct (Rlt_dec (score x) (score y)) as [Hlt|Hge].
    + constructor; [assumption|].
      rewrite insert_desc_perm.
      constructor; [lra | assumption].
    + constructor; [now constructor|].
      constructor; [lra|].
      eapply Forall_impl; [exact Hy|]. simpl. intros b Hb. lra.
Qed.

Lemma sort_desc_ranked (l : list A) : ranked score (sort_desc score l).
Proof.
  induction l as [|x l IH]; simpl.
  - constructor.
  - now apply insert_desc_ranked.
Qed.

Lemma ranked_firstn (n : nat) (l : list A) :
  ranked score l -> ranked score (firstn n l).
Proof.
  unfold ranked. intros Hl. revert n.
  induction Hl as [|y l Hl IH Hy]; intros [|n]; simpl; try constructor.
  - apply IH.
  - now apply Forall_take.
Qed.

Lemma ranked_slice (k : Z) (l : list A) :
  ranked score l -> ranked score (py_slice_to l k).
Proof.
  intros Hl. unfold py_slice_to.
  destruct (0 <=? k)%Z; now apply ranked_firstn.
Qed.

Lemma slice_In (k : Z) (x : A) (l : list A) : In x (py_slice_to l k) -> In x l.
Proof.
  unfold py_slice_to. intros H.
  destruct (0 <=? k)%Z;
    match type of H with In _ (firstn ?n _) =>
      rewrite <- (firstn_skipn n l); apply in_or_app; now left
    end.
Qed.

Lemma slice_length_nonneg (k : Z) (l : list A) :
  (0 <= k)%Z -> length (py_slice_to l k) = Nat.min (Z.to_nat k) (length l).
Proof.
  intros Hk. unfold py_slice_to.
  destruct (Z.leb_spec 0 k); [|lia]. apply length_firstn.
Qed.

(** Stability: among the entries of any one score, the order is that of the
    input. *)
Lemma insert_desc_same_score (s : R) (x : A) (l : list A) :
  List.filter (fun a => bool_decide (score a = s)) (insert_desc score x l)
  = List.filter (fun a => bool_decide (score a = s)) (x :: l).
Proof.
  induction l as [|y l IH]; [reflexivity|].
  cbn [insert_desc]. destruct (Rlt_dec (score x) (score y)) as [Hlt|_];
    [|reflexivity].
  cbn [List.filter] in *. rewrite IH.
  destruct (bool_decide_reflect (score x = s)) as [Hx|_];
    destruct (bool_decide_reflect (score y = s)) as [Hy|_];
    try reflexivity.
  exfalso. lra.
Qed.

Lemma sort_desc_stable (s : R) (l : list A) :
  List.filter (fun a => bool_decide (score a = s)) (sort_desc score l)
  = List.filter (fun a => bool_decide (score a = s)) l.
Proof.
  induction l as [|x l IH]; [reflexivity|].
  cbn [sort_desc foldr]. rewrite insert_desc_same_score.
  cbn [List.filter]. fold (sort_desc score l). now rewrite IH.
Qed.

End RankingFacts.

Lemma ranked_map {A B : Type} (f : A -> B) (sa : A -> R) (sb : B -> R)
    (l : list A) :
  (forall a, sb (f a) = sa a) -> ranked sa l -> ranked sb (map f l).
Proof.
  intros Hf. unfold ranked. induction 1 as [|y l Hl IH Hy]; simpl.
  - constructor.
  - constructor; [assumption|].
    rewrite List.Forall_forall in *. intros b Hb.
    apply in_map_iff in Hb as (a & <- & Ha). rewrite !Hf. now apply Hy.
Qed.

(** ** The hashing endpoint *)

Section MainSearch.
Variable hash : string -> Z.

Lemma score_all_ids (req : Main.SearchSimilarRequest) (q : vector)
    (cands : list (string * string * vector)) :
  exists scored,
    Main.score_all req q cands = Some scored /\
    map fst scored
      = map fst (List.filter (fun c => negb (Main.is_self req c.1.1 c.1.2)) cands).
Proof.
  induction cands as [|[[t i] v] rest (scored & Hs & Hids)]; simpl.
  - now exists [].
  - destruct (Main.is_self req t i); simpl.
    + now exists scored.
    + destruct (main_cosine_returns q v) as [s ->]. simpl. rewrite Hs. simpl.
      exists ((t, i, s) :: scored). split; [reflexivity|].
      simpl. now rewrite Hids.
Qed.

Lemma rank_response (req : Main.SearchSimilarRequest) (rows : list Main.row)
    (q : vector) :
  exists scored,
    map fst scored = map fst (Main.eligible req rows) /\
    Main.rank req rows q
      = Main.SearchSimilarResponse
          (map Main.to_related
             (py_slice_to (sort_desc snd scored) (Main.limit req))).
Proof.
  destruct (score_all_ids req q (Main.get_all_embeddings rows))
    as (scored & Hs & Hids).
  exists scored. split; [exact Hids|].
  unfold Main.rank. now rewrite Hs.
Qed.

Lemma api_resolved (rows : list Main.row) (req : Main.SearchSimilarRequest)
    (q : vector) :
  Main.resolves hash rows req q ->
  Main.api_search_similar hash rows req = Main.rank req rows q.
Proof.
  unfold Main.api_search_similar.
  intros [message Hm Hq | sid Hm Hs Hq]; rewrite Hm.
  - now rewrite Hq.
  - now rewrite Hs, Hq.
Qed.

(** The three ways a request ends: rejected, answered with nothing because
    the reference does not resolve, or ranked. *)
Lemma api_cases (rows : list Main.row) (req : Main.SearchSimilarRequest) :
  Main.api_search_similar hash rows req = Main.HTTP400 \/
  Main.api_search_similar hash rows req = Main.SearchSimilarResponse [] \/
  exists q, Main.resolves hash rows req q.
Proof.
  unfold Main.api_search_similar.
  destruct (nonempty (Main.message_text req)) as [message|] eqn:Hm.
  - right. right.
    exists (HashingSpec.embed hash Main.DIM message).
    apply (Main.by_text _ _ _ _ message); [assumption|].
    now apply text_to_vector_embed.
  - destruct (nonempty (Main.summary_id req)) as [sid|] eqn:Hs.
    + destruct (Main.get_embedding rows "summary" sid) as [ev|] eqn:He.
      * right. right. exists ev. now apply (Main.by_reference _ _ _ _ sid).
      * right. now left.
    + now left.
Qed.

Lemma limit_bounds (req : Main.SearchSimilarRequest) :
  (1 <= Main.limit req <= 10)%Z.
Proof. unfold Main.limit. lia. Qed.

Lemma ranked_related (scored : list (string * string * R)) (k : Z) :
  ranked Main.score
    (map Main.to_related (py_slice_to (sort_desc snd scored) k)).
Proof.
  apply (ranked_map Main.to_related snd); [reflexivity|].
  apply ranked_slice, sort_desc_ranked.
Qed.

Lemma api_ranked (rows : list Main.row) (req : Main.SearchSimilarRequest) :
  ranked Main.score (Main.related_of (Main.api_search_similar hash rows req)).
Proof.
  destruct (api_cases rows req) as [-> | [-> | [q Hq]]];
    try (simpl; constructor).
  rewrite (api_resolved _ _ _ Hq).
  destruct (rank_response req rows q) as (scored & _ & ->). simpl.
  apply ranked_related.
Qed.

Lemma api_resolved_length (rows : list Main.row)
    (req : Main.SearchSimilarRequest) (q : vector) :
  Main.resolves hash rows req q ->
  length (Main.related_of (Main.api_search_similar hash rows req))
    = Nat.min (Z.to_nat (Main.limit req)) (length (Main.eligible req rows)).
Proof.
  intros Hq. rewrite (api_resolved _ _ _ Hq).
  destruct (rank_response req rows q) as (scored & Hids & ->). simpl.
  pose proof (limit_bounds req).
  rewrite length_map, slice_length_nonneg by lia.
  rewrite sort_desc_length.
  now rewrite <- (length_map fst scored), Hids, length_map.
Qed.

Lemma api_length_le (rows : list Main.row) (req : Main.SearchSimilarRequest) :
  (length (Main.related_of (Main.api_search_similar hash rows req))
   <= Z.to_nat (Main.limit req))%nat.
Proof.
  destruct (api_cases rows req) as [-> | [-> | [q Hq]]]; simpl; try lia.
  rewrite (api_resolved_length _ _ _ Hq). lia.
Qed.

Lemma api_not_uncaught (rows : list Main.row) (req : Main.SearchSimilarRequest) :
  Main.api_search_similar hash rows req <> Main.Uncaught.
Proof.
  destruct (api_cases rows req) as [-> | [-> | [q Hq]]]; try discriminate.
  rewrite (api_resolved _ _ _ Hq).
  destruct (rank_response req rows q) as (scored & _ & ->). discriminate.
Qed.

End MainSearch.

Section MainClaims.
Variable hash : string -> Z.

Lemma related_from_eligible (rows : list Main.row)
    (req : Main.SearchSimilarRequest) (item : Main.RelatedItem) :
  In item (Main.related_of (Main.api_search_similar hash rows req)) ->
  exists c, In c (Main.eligible req rows) /\
            c.1 = (Main.related_type item, Main.related_id item).
Proof.
  destruct (api_cases hash rows req) as [-> | [-> | [q Hq]]];
    try (simpl; contradiction).
  rewrite (api_resolved _ _ _ _ Hq).
  destruct (rank_response req rows q) as (scored & Hids & ->). simpl.
  intros Hin. apply in_map_iff in Hin as ([[t i] s] & <- & Hy).
  apply slice_In, sort_desc_In in Hy.
  apply (in_map fst) in Hy. rewrite Hids in Hy.
  apply in_map_iff in Hy as (c & Hc & Hin). now exists c.
Qed.

Lemma is_self_true (req : Main.SearchSimilarRequest) (sid : string) :
  nonempty (Main.summary_id req) = Some sid ->
  Main.is_self req "summary" sid = true.
Proof.
  intros Hs. unfold Main.is_self. rewrite Hs.
  now rewrite !String.eqb_refl.
Qed.

(** C4.  Whenever the request names a summary [sid] -- in particular when the
    query is resolved by reference to it -- no returned item is the record
    [("summary", sid)]. *)
Theorem search_excludes_self (rows : list Main.row)
    (req : Main.SearchSimilarRequest) (sid : string) :
  nonempty (Main.summary_id req) = Some sid ->
  forall item,
    In item (Main.related_of (Main.api_search_similar hash rows req)) ->
    ~ (Main.related_type item = "summary" /\ Main.related_id item = sid).
Proof.
  intros Hs item Hin [Ht Hi].
  destruct (related_from_eligible _ _ _ Hin) as ([[t i] v] & Hc & Hkey).
  simpl in Hkey. rewrite Ht, Hi in Hkey. injection Hkey as -> ->.
  apply filter_In in Hc as [_ Hself]. simpl in Hself.
  rewrite (is_self_true _ _ Hs) in Hself. discriminate.
Qed.

Lemma fetchone_absent {row : Type} (key : row -> string * string)
    (k : string * string) (rows : list row) :
  ~ In k (map key rows) -> fetchone key k rows = None.
Proof.
  intros Habs. unfold fetchone.
  induction rows as [|r rows IH]; simpl; [reflexivity|].
  destruct (bool_decide_reflect (key r = k)) as [E|_].
  - destruct Habs. left. exact E.
  - apply IH. intros Hin. apply Habs. now right.
Qed.

(** C10.  The hashing endpoint answers with at most 10 items whatever
    [top_k] is; a ranked request returns as many items as the limit
    [max(1, min(top_k, 10))] and the eligible candidates allow, so a [top_k]
    of zero or less still yields one item when a candidate exists; and the
    only rejection is for a request that gives neither a text nor a summary
    id, independently of [top_k]. *)
Theorem search_limit_clamped (rows : list Main.row)
    (req : Main.SearchSimilarRequest) :
  let res := Main.related_of (Main.api_search_similar hash rows req) in
  (length res <= 10)%nat /\
  (forall q, Main.resolves hash rows req q ->
     length res
       = Nat.min (Z.to_nat (Z.max 1 (Z.min (Main.top_k req) 10)))
                 (length (Main.eligible req rows)) /\
     ((Main.top_k req <= 0)%Z -> Main.eligible req rows <> [] ->
      length res = 1%nat)) /\
  (Main.api_search_similar hash rows req = Main.HTTP400 <->
   nonempty (Main.summary_id req) = None /\
   nonempty (Main.message_text req) = None).
Proof.
  cbv zeta. split; [|split].
  - pose proof (api_length_le hash rows req).
    pose proof (limit_bounds req). lia.
  - intros q Hq. rewrite (api_resolved_length _ _ _ _ Hq).
    split; [reflexivity|].
    intros Hk Hne. unfold Main.limit.
    destruct (Main.eligible req rows); [contradiction|]. simpl length. lia.
  - split.
    + intros H400.
      destruct (nonempty (Main.message_text req)) as [m|] eqn:Hm.
      * exfalso.
        assert (Hq : Main.resolves hash rows req (HashingSpec.embed hash Main.DIM m)).
        { apply (Main.by_text _ _ _ _ m); [assumption|].
          now apply text_to_vector_embed. }
        rewrite (api_resolved _ _ _ _ Hq) in H400.
        destruct (rank_response req rows (HashingSpec.embed hash Main.DIM m))
          as (scored & _ & Hr).
        rewrite Hr in H400. discriminate.
      * destruct (nonempty (Main.summary_id req)) as [sid|] eqn:Hs; [|easy].
        exfalso. unfold Main.api_search_similar in H400.
        rewrite Hm, Hs in H400.
        destruct (Main.get_embedding rows "summary" sid) as [ev|];
          [|discriminate].
        destruct (rank_response req rows ev) as (scored & _ & Hr).
        rewrite Hr in H400. discriminate.
    + intros [Hs Hm]. unfold Main.api_search_similar. now rewrite Hm, Hs.
Qed.

End MainClaims.

Lemma resolves_by_message (hash : string -> Z) (rows : list Main.row)
    (message : string) (k : Z) :
  message <> EmptyString ->
  Main.resolves hash rows (by_message message k)
    (HashingSpec.embed hash Main.DIM message).
Proof.
  intros Hne. apply (Main.by_text _ _ _ _ message).
  - simpl. destruct (String.eqb_spec message ""); [contradiction|reflexivity].
  - now apply text_to_vector_embed.
Qed.

Lemma search_excludes_self_witness :
  nonempty (Main.summary_id (by_summary "s1" 3)) = Some "s1" /\
  length (Main.related_of
            (Main.api_search_similar length_hash sample_rows (by_summary "s1" 3)))
    = 2%nat /\
  forall item,
    In item (Main.related_of
               (Main.api_search_similar length_hash sample_rows
                  (by_summary "s1" 3))) ->
    ~ (Main.related_type item = "summary" /\ Main.related_id item = "s1").
Proof.
  split; [reflexivity|]. split.
  - rewrite (api_resolved_length length_hash sample_rows (by_summary "s1" 3) [1; 0]).
    + reflexivity.
    + now apply (Main.by_reference _ _ _ _ "s1").
  - exact (search_excludes_self length_hash sample_rows (by_summary "s1" 3) "s1"
             eq_refl).
Defined.

Lemma search_limit_clamped_witness :
  length (Main.related_of
            (Main.api_search_similar length_hash eleven_rows (by_message "hotel" 25)))
    = 10%nat /\
  length (Main.related_of
            (Main.api_search_similar length_hash eleven_rows (by_message "hotel" 0)))
    = 1%nat.
Proof.
  split.
  - destruct (search_limit_clamped length_hash eleven_rows (by_message "hotel" 25))
      as (_ & Hlen & _).
    destruct (Hlen _ (resolves_by_message length_hash eleven_rows "hotel" 25
                        ltac:(discriminate))) as [-> _].
    reflexivity.
  - destruct (search_limit_clamped length_hash eleven_rows (by_message "hotel" 0))
      as (_ & Hlen & _).
    destruct (Hlen _ (resolves_by_message length_hash eleven_rows "hotel" 0
                        ltac:(discriminate))) as [_ Hone].
    apply Hone; [simpl; lia | discriminate].
Defined.

(** ** The learned-model service *)

Section ServiceSearch.
Variable encode : string -> option vector.

Lemma service_score_all_app (q : vector) (l1 l2 : list Service.row) :
  Service.score_all q (l1 ++ l2) = Service.score_all q l1 ++ Service.score_all q l2.
Proof.
  induction l1 as [|r l1 IH]; simpl; [reflexivity|].
  destruct (Service.score_row q r); simpl; now rewrite IH.
Qed.

Lemma service_score_all_length (q : vector) (rows : list Service.row) :
  length (Service.score_all q rows) = length (Service.eligible rows).
Proof.
  unfold Service.eligible.
  induction rows as [|r rows IH]; simpl; [reflexivity|].
  unfold Service.score_row.
  destruct (nonempty (Service.text_content r)); [|exact IH].
  destruct (json_loads (Service.vector_blob r)); [|exact IH].
  simpl. now rewrite IH.
Qed.

Lemma service_rank_ranked (rows : list Service.row) (q : vector) (k : Z) :
  ranked Service.score (Service.rank rows q k).
Proof. unfold Service.rank. apply ranked_slice, sort_desc_ranked. Qed.

Lemma service_rank_length (rows : list Service.row) (q : vector) (k : Z) :
  (0 <= k)%Z ->
  length (Service.rank rows q k)
    = Nat.min (Z.to_nat k) (length (Service.eligible rows)).
Proof.
  intros Hk. unfold Service.rank.
  now rewrite slice_length_nonneg, sort_desc_length, service_score_all_length.
Qed.

Lemma service_resolved (rows : list Service.row) (g g' : rng)
    (query_text summary_id : option string) (q : vector) (k : Z) :
  Service.resolves encode rows g query_text summary_id q g' ->
  Service.search_similar_items encode rows g query_text summary_id k
    = (Service.rank rows q k, g').
Proof.
  unfold Service.search_similar_items.
  intros [query Hq Hg | sid content r Hq Hs Hr Hc Hg]; rewrite Hq.
  - now rewrite Hg.
  - now rewrite Hs, Hr, Hc, Hg.
Qed.

(** A search either stops with the empty list before the scan, leaving the
    generator as it was, or ranks. *)
Lemma service_cases (rows : list Service.row) (g : rng)
    (query_text summary_id : option string) (k : Z) :
  Service.search_similar_items encode rows g query_text summary_id k = ([], g) \/
  exists q g', Service.resolves encode rows g query_text summary_id q g'.
Proof.
  unfold Service.search_similar_items.
  destruct (nonempty query_text) as [query|] eqn:Hq.
  - right. destruct (Service.generate_embedding encode query g) as [q g'] eqn:Hg.
    exists q, g'. now apply (Service.by_text _ _ _ _ _ _ _ query).
  - destruct (nonempty summary_id) as [sid|] eqn:Hs; [|now left].
    destruct (fetchone Service.key ("summary", sid) rows) as [r|] eqn:Hr;
      [|now left].
    destruct (nonempty (Service.text_content r)) as [content|] eqn:Hc;
      [|now left].
    right. destruct (Service.generate_embedding encode content g) as [q g'] eqn:Hg.
    exists q, g'. now apply (Service.by_reference _ _ _ _ _ _ _ sid content r).
Qed.

Lemma service_search_ranked (rows : list Service.row) (g : rng)
    (query_text summary_id : option string) (k : Z) :
  ranked Service.score
    (Service.search_similar_items encode rows g query_text summary_id k).1.
Proof.
  destruct (service_cases rows g query_text summary_id k) as [-> | (q & g' & Hq)].
  - constructor.
  - rewrite (service_resolved _ _ _ _ _ _ k Hq). apply service_rank_ranked.
Qed.

Lemma service_search_length_le (rows : list Service.row) (g : rng)
    (query_text summary_id : option string) (k : Z) :
  (0 <= k)%Z ->
  (length (Service.search_similar_items encode rows g query_text summary_id k).1
   <= Z.to_nat k)%nat.
Proof.
  intros Hk.
  destruct (service_cases rows g query_text summary_id k) as [-> | (q & g' & Hq)].
  - simpl. lia.
  - rewrite (service_resolved _ _ _ _ _ _ k Hq). simpl.
    rewrite service_rank_length by assumption. lia.
Qed.

End ServiceSearch.

(** ** Ranked top-k search *)

Section Scores.

(** Every entry that the service scores carries the cosine similarity of the
    query with the stored vector of its row. *)
Lemma service_scores (q : vector) (rows : list Service.row) (e : Service.result) :
  In e (Service.score_all q rows) ->
  exists r v,
    In r rows /\ json_loads (Service.vector_blob r) = Some v /\
    Service.result_type e = Service.item_type r /\
    Service.result_id e = Service.item_id r /\
    Service.score e = Service.cosine_similarity q v.
Proof.
  induction rows as [|r rows IH]; simpl; [contradiction|].
  unfold Service.score_row.
  destruct (nonempty (Service.text_content r)) as [content|].
  - destruct (json_loads (Service.vector_blob r)) as [v|] eqn:Hv.
    + intros [<- | Hin].
      * exists r, v. simpl. auto.
      * destruct (IH Hin) as (r' & v' & Hr' & H'). exists r', v'. auto.
    + intros Hin. destruct (IH Hin) as (r' & v' & Hr' & H'). exists r', v'. auto.
  - intros Hin. destruct (IH Hin) as (r' & v' & Hr' & H'). exists r', v'. auto.
Qed.

(** The same for the hashing endpoint, whose candidates are the eligible ones. *)
Lemma main_scores (req : Main.SearchSimilarRequest) (q : vector)
    (cands : list (string * string * vector)) (scored : list (string * string * R)) :
  Main.score_all req q cands = Some scored ->
  forall x, In x scored ->
    exists v,
      In (x.1, v)
         (List.filter (fun c => negb (Main.is_self req c.1.1 c.1.2)) cands) /\
      Main.cosine_similarity q v = Some x.2.
Proof.
  revert scored. induction cands as [|[[t i] v] rest IH]; simpl; intros scored.
  - intros [= <-] x [].
  - destruct (Main.is_self req t i); simpl; [apply IH|].
    destruct (Main.cosine_similarity q v) as [s|] eqn:Hs; simpl; [|discriminate].
    destruct (Main.score_all req q rest) as [scored'|]; simpl; [|discriminate].
    intros [= <-] x [<- | Hin].
    + exists v. simpl. auto.
    + destruct (IH scored' eq_refl x Hin) as (v' & Hv' & Hc). exists v'. auto.
Qed.

Lemma rank_scored (req : Main.SearchSimilarRequest) (rows : list Main.row)
    (q : vector) :
  exists scored,
    Main.score_all req q (Main.get_all_embeddings rows) = Some scored /\
    map fst scored = map fst (Main.eligible req rows) /\
    Main.rank req rows q
      = Main.SearchSimilarResponse
          (map Main.to_related
             (py_slice_to (sort_desc snd scored) (Main.limit req))).
Proof.
  destruct (score_all_ids req q (Main.get_all_embeddings rows))
    as (scored & Hs & Hids).
  exists scored. split; [exact Hs|]. split; [exact Hids|].
  unfold Main.rank. now rewrite Hs.
Qed.

End Scores.

(** C1, as amended.  For every store state and every positive [top_k], both
    searches return their results in non-increasing order of score and never
    more than [top_k] of them.  When the query resolves, the results are the
    first entries of the full ranking of the scored candidates, each with the
    cosine similarity of the query and its stored vector as score; the service
    returns [min(top_k, eligible)] of them, so fewer than [top_k] exactly when
    fewer eligible candidates exist; the hashing endpoint returns
    [min(top_k, 10, eligible)], which has that property for [top_k <= 10]. *)
Theorem search_ranked_top_k (top_k : Z) :
  (0 < top_k)%Z ->
  (forall encode rows g query_text summary_id,
     let res :=
       (Service.search_similar_items encode rows g query_text summary_id top_k).1 in
     ranked Service.score res /\
     (Z.of_nat (length res) <= top_k)%Z /\
     forall q g',
       Service.resolves encode rows g query_text summary_id q g' ->
       (exists all,
          Permutation all (Service.score_all q rows) /\
          ranked Service.score all /\
          res = firstn (Z.to_nat top_k) all) /\
       (forall e, In e res ->
          exists r v,
            In r rows /\ json_loads (Service.vector_blob r) = Some v /\
            Service.result_type e = Service.item_type r /\
            Service.result_id e = Service.item_id r /\
            Service.score e = Service.cosine_similarity q v) /\
       length res = Nat.min (Z.to_nat top_k) (length (Service.eligible rows)) /\
       ((Z.of_nat (length res) < top_k)%Z <->
        (Z.of_nat (length (Service.eligible rows)) < top_k)%Z)) /\
  (forall hash rows req,
     Main.top_k req = top_k ->
     let res := Main.related_of (Main.api_search_similar hash rows req) in
     ranked Main.score res /\
     (Z.of_nat (length res) <= top_k)%Z /\
     forall q,
       Main.resolves hash rows req q ->
       (exists all,
          Permutation (map (fun x => (Main.related_type x, Main.related_id x)) all)
                      (map fst (Main.eligible req rows)) /\
          ranked Main.score all /\
          res = firstn (Z.to_nat (Z.min top_k 10)) all) /\
       (forall item, In item res ->
          exists v,
            In (Main.related_type item, Main.related_id item, v)
               (Main.eligible req rows) /\
            Main.cosine_similarity q v = Some (Main.score item)) /\
       length res
         = Nat.min (Z.to_nat (Z.min top_k 10)) (length (Main.eligible req rows)) /\
       ((top_k <= 10)%Z -> Main.short_only_when_few hash rows req)).
Proof.
  intros Hk. split.
  - intros encode rows g query_text summary_id res.
    split; [apply service_search_ranked|].
    split.
    + pose proof (service_search_length_le encode rows g query_text summary_id
                    top_k ltac:(lia)) as Hle.
      fold res in Hle. lia.
    + intros q g' Hq. subst res.
      rewrite (service_resolved _ _ _ _ _ _ _ top_k Hq). cbn [fst].
      assert (Hslice : Service.rank rows q top_k
                = firstn (Z.to_nat top_k)
                    (sort_desc Service.score (Service.score_all q rows))).
      { unfold Service.rank, py_slice_to.
        destruct (Z.leb_spec 0 top_k); [reflexivity|lia]. }
      split; [|split].
      * exists (sort_desc Service.score (Service.score_all q rows)).
        split; [apply sort_desc_perm|]. split; [apply sort_desc_ranked|].
        exact Hslice.
      * intros e He. apply (service_scores q rows).
        apply (sort_desc_In Service.score).
        apply (slice_In top_k). exact He.
      * rewrite service_rank_length by lia. split; [reflexivity|]. lia.
  - intros hash rows req <- res.
    split; [apply api_ranked|].
    pose proof (limit_bounds req) as Hb. unfold Main.limit in Hb.
    split.
    + pose proof (api_length_le hash rows req) as Hle. fold res in Hle.
      unfold Main.limit in Hle. lia.
    + intros q Hq.
      assert (Hlen : length res
                = Nat.min (Z.to_nat (Z.min (Main.top_k req) 10))
                          (length (Main.eligible req rows))).
      { subst res. rewrite (api_resolved_length _ _ _ _ Hq). unfold Main.limit.
        f_equal. lia. }
      subst res. rewrite (api_resolved _ _ _ _ Hq) in *.
      destruct (rank_scored req rows q) as (scored & Hs & Hids & Hr).
      rewrite Hr in *. cbn [Main.related_of] in *.
      assert (Hlimit : Main.limit req = Z.min (Main.top_k req) 10)
        by (unfold Main.limit; lia).
      split; [|split; [|split]].
      * exists (map Main.to_related (sort_desc snd scored)).
        split; [|split].
        -- rewrite map_map. cbn [Main.related_type Main.related_id Main.to_related].
           rewrite <- Hids.
           erewrite map_ext; [apply Permutation_map, sort_desc_perm|].
           intros [[t i] s]. reflexivity.
        -- apply (ranked_map Main.to_related snd); [reflexivity|].
           apply sort_desc_ranked.
        -- rewrite Hlimit. unfold py_slice_to.
           destruct (Z.leb_spec 0 (Z.min (Main.top_k req) 10)); [|lia].
           now rewrite firstn_map.
      * intros item Hin. apply in_map_iff in Hin as (x & <- & Hx).
        apply slice_In, sort_desc_In in Hx.
        destruct (main_scores req q _ scored Hs x Hx) as (v & Hv & Hc).
        exists v. split; [|exact Hc]. destruct x as [[t i] s]. exact Hv.
      * exact Hlen.
      * intros H10. unfold Main.short_only_when_few.
        rewrite (api_resolved _ _ _ _ Hq), Hr. cbn [Main.related_of].
        rewrite Hlen. lia.
Qed.

Lemma search_ranked_top_k_witness :
  (0 < 2)%Z /\
  length (Service.search_similar_items sample_encode service_rows sample_rng
            (Some "hotel reservation") None 2).1 = 2%nat /\
  length (Main.related_of
            (Main.api_search_similar length_hash sample_rows
               (by_message "hotel reservation" 2))) = 2%nat.
Proof.
  destruct (search_ranked_top_k 2 eq_refl) as [Hservice Hmain].
  split; [reflexivity|]. split.
  - destruct (Hservice sample_encode service_rows sample_rng
                (Some "hotel reservation") None) as (_ & _ & Hlen).
    destruct (Hlen [INR (String.length "hotel reservation"); 1] sample_rng)
      as (_ & _ & -> & _); [|reflexivity].
    now apply (Service.by_text _ _ _ _ _ _ _ "hotel reservation").
  - destruct (Hmain length_hash sample_rows (by_message "hotel reservation" 2)
                eq_refl) as (_ & _ & Hlen).
    destruct (Hlen _ (resolves_by_message length_hash sample_rows
                        "hotel reservation" 2 ltac:(discriminate)))
      as (_ & _ & -> & _).
    reflexivity.
Defined.

(** C1 fails on the hashing endpoint as first stated: with eleven candidates
    stored and [top_k = 11], ten items come back -- fewer than [top_k] although
    no fewer than [top_k] candidates are eligible. *)
Lemma search_top_k_counterexample :
  length (Main.related_of
            (Main.api_search_similar length_hash eleven_rows
               (by_message "hotel" 11))) = 10%nat /\
  length (Main.eligible (by_message "hotel" 11) eleven_rows) = 11%nat /\
  ~ Main.short_only_when_few length_hash eleven_rows (by_message "hotel" 11).
Proof.
  assert (Hlen : length (Main.related_of
            (Main.api_search_similar length_hash eleven_rows
               (by_message "hotel" 11))) = 10%nat).
  { rewrite (api_resolved_length length_hash eleven_rows (by_message "hotel" 11)
               _ (resolves_by_message length_hash eleven_rows "hotel" 11
                    ltac:(discriminate))).
    reflexivity. }
  split; [exact Hlen|]. split; [reflexivity|].
  unfold Main.short_only_when_few. rewrite Hlen.
  change (length (Main.eligible (by_message "hotel" 11) eleven_rows)) with 11%nat.
  simpl Main.top_k. lia.
Qed.

(** ** The hashing endpoint in closed form *)

Section MainClosedForm.

Lemma main_cosine_value (v w : vector) :
  Main.cosine_similarity v w
  = Some (if Req_dec_T (l2_norm v) 0 then 0
          else if Req_dec_T (l2_norm w) 0 then 0
          else zip_dot v w / (l2_norm v * l2_norm w)).
Proof.
  destruct (Req_dec_T (l2_norm v) 0) as [Hv|Hv].
  - apply main_cosine_zero. now left.
  - destruct (Req_dec_T (l2_norm w) 0) as [Hw|Hw].
    + apply main_cosine_zero. now right.
    + now apply main_cosine_nonzero.
Qed.

Lemma main_cosine_is_value (v w : vector) :
  Main.cosine_similarity v w = Some (cosine_value v w).
Proof. apply main_cosine_value. Qed.

Lemma score_all_closed (req : Main.SearchSimilarRequest) (q : vector)
    (cands : list (string * string * vector)) :
  Main.score_all req q cands
  = Some (map (scored_against q)
            (List.filter (fun c => negb (Main.is_self req c.1.1 c.1.2)) cands)).
Proof.
  induction cands as [|[[t i] v] rest IH]; [reflexivity|].
  cbn [Main.score_all List.filter fst snd].
  destruct (Main.is_self req t i); cbn [negb]; [exact IH|].
  rewrite main_cosine_is_value, IH. reflexivity.
Qed.

Lemma rank_closed (req : Main.SearchSimilarRequest) (rows : list Main.row)
    (q : vector) :
  Main.rank req rows q
  = Main.SearchSimilarResponse
      (map Main.to_related
         (py_slice_to
            (sort_desc snd (map (scored_against q) (Main.eligible req rows)))
            (Main.limit req))).
Proof. unfold Main.rank. now rewrite score_all_closed. Qed.

End MainClosedForm.

(** ** Resolution misses and corrupt rows *)

(** C7.  A search by reference to a summary that has no record in the store
    returns the empty result, in the hashing endpoint as a normal response and
    in the service without touching the random generator. *)
Theorem search_reference_absent (sid : string) :
  (forall hash (rows : list Main.row) (req : Main.SearchSimilarRequest),
     nonempty (Main.message_text req) = None ->
     nonempty (Main.summary_id req) = Some sid ->
     ~ In ("summary", sid) (map Main.key rows) ->
     Main.api_search_similar hash rows req = Main.SearchSimilarResponse []) /\
  (forall encode (rows : list Service.row) g query_text summary_id top_k,
     nonempty query_text = None ->
     nonempty summary_id = Some sid ->
     ~ In ("summary", sid) (map Service.key rows) ->
     Service.search_similar_items encode rows g query_text summary_id top_k
       = ([], g)).
Proof.
  split.
  - intros hash rows req Hm Hs Habs.
    unfold Main.api_search_similar, Main.get_embedding.
    now rewrite Hm, Hs, (fetchone_absent Main.key _ _ Habs).
  - intros encode rows g query_text summary_id top_k Hq Hs Habs.
    unfold Service.search_similar_items.
    now rewrite Hq, Hs, (fetchone_absent Service.key _ _ Habs).
Qed.

Lemma search_reference_absent_witness :
  Main.api_search_similar length_hash sample_rows (by_summary "s9" 3)
    = Main.SearchSimilarResponse [] /\
  Service.search_similar_items sample_encode service_rows sample_rng
    None (Some "s9") 3 = ([], sample_rng).
Proof.
  destruct (search_reference_absent "s9") as [Hmain Hservice]. split.
  - apply Hmain; [reflexivity | reflexivity |].
    simpl. intros [H|[H|[H|[]]]]; discriminate.
  - apply Hservice; [reflexivity | reflexivity |].
    simpl. intros [H|[H|[H|[]]]]; discriminate.
Defined.

Section CorruptRows.

Lemma get_all_embeddings_app (l1 l2 : list Main.row) :
  Main.get_all_embeddings (l1 ++ l2)
    = Main.get_all_embeddings l1 ++ Main.get_all_embeddings l2.
Proof.
  induction l1 as [|r l1 IH]; simpl; [reflexivity|].
  destruct (json_loads (Main.vector_blob r)); simpl; now rewrite IH.
Qed.

Lemma get_all_embeddings_skips (l1 l2 : list Main.row) (bad : Main.row) :
  json_loads (Main.vector_blob bad) = None ->
  Main.get_all_embeddings (l1 ++ bad :: l2) = Main.get_all_embeddings (l1 ++ l2).
Proof.
  intros Hbad. rewrite !get_all_embeddings_app. simpl. now rewrite Hbad.
Qed.

Lemma fetchone_app {row : Type} (key : row -> string * string)
    (k : string * string) (l1 l2 : list row) :
  fetchone key k (l1 ++ l2)
    = match fetchone key k l1 with
      | Some r => Some r
      | None => fetchone key k l2
      end.
Proof.
  unfold fetchone. induction l1 as [|r l1 IH]; simpl; [reflexivity|].
  destruct (bool_decide (key r = k)); [reflexivity|exact IH].
Qed.

Lemma unique_keys_middle {row : Type} (key : row -> string * string)
    (l1 l2 : list row) (r : row) :
  unique_keys key (l1 ++ r :: l2) ->
  ~ In (key r) (map key l1) /\ ~ In (key r) (map key l2).
Proof.
  unfold unique_keys. rewrite fmap_app, fmap_cons. intros Hnd.
  apply NoDup_ListNoDup in Hnd.
  apply List.NoDup_remove_2 in Hnd.
  split; intros Hin; apply Hnd, in_or_app; [now left | now right].
Qed.

(** Looking up a vector sees a corrupt row as no row at all. *)
Lemma get_embedding_skips (l1 l2 : list Main.row) (bad : Main.row)
    (t i : string) :
  json_loads (Main.vector_blob bad) = None ->
  unique_keys Main.key (l1 ++ bad :: l2) ->
  Main.get_embedding (l1 ++ bad :: l2) t i = Main.get_embedding (l1 ++ l2) t i.
Proof.
  intros Hbad Huniq. unfold Main.get_embedding.
  rewrite !fetchone_app.
  destruct (fetchone Main.key (t, i) l1) as [r|]; [reflexivity|].
  unfold fetchone at 1. simpl.
  destruct (bool_decide_reflect (Main.key bad = (t, i))) as [E|_];
    [|reflexivity].
  rewrite Hbad.
  destruct (unique_keys_middle Main.key l1 l2 bad Huniq) as [_ H2].
  rewrite E in H2. now rewrite (fetchone_absent Main.key _ _ H2).
Qed.

(** The raw scan. *)

Lemma raw_get_all_embeddings_app (l1 l2 : list Raw.row) :
  Raw.get_all_embeddings (l1 ++ l2)
  = Raw.get_all_embeddings l1 ++ Raw.get_all_embeddings l2.
Proof.
  induction l1 as [|r l1 IH]; [reflexivity|].
  rewrite <- app_comm_cons. cbn [Raw.get_all_embeddings].
  destruct (Raw.json_loads (Raw.vector_blob r)); now rewrite IH.
Qed.

Lemma raw_get_all_embeddings_skips (l1 l2 : list Raw.row) (bad : Raw.row) :
  Raw.json_loads (Raw.vector_blob bad) = None ->
  Raw.get_all_embeddings (l1 ++ bad :: l2)
  = Raw.get_all_embeddings l1 ++ Raw.get_all_embeddings l2.
Proof.
  intros Hbad. rewrite raw_get_all_embeddings_app.
  cbn [Raw.get_all_embeddings]. now rewrite Hbad.
Qed.

Lemma raw_candidates (rows : list Raw.row) (t i : string) (d : Raw.json) :
  In (t, i, d) (Raw.get_all_embeddings rows) <->
  exists r, In r rows /\ Raw.item_type r = t /\ Raw.item_id r = i /\
            Raw.vector_blob r = Raw.Document d.
Proof.
  induction rows as [|r rows IH]; cbn [Raw.get_all_embeddings].
  - split; [contradiction | intros (r & [] & _)].
  - destruct (Raw.vector_blob r) as [d'|raw] eqn:Hblob; cbn [Raw.json_loads].
    + split.
      * intros [[= <- <- <-] | Hin].
        -- exists r. cbn. auto.
        -- apply IH in Hin as (r' & Hr' & H'). exists r'. cbn. auto.
      * intros (r' & [<- | Hr'] & Ht & Hi & Hd).
        -- left. congruence.
        -- right. apply IH. now exists r'.
    + rewrite IH. split.
      * intros (r' & Hr' & H'). exists r'. cbn. auto.
      * intros (r' & [<- | Hr'] & Ht & Hi & Hd); [congruence|].
        now exists r'.
Qed.

Lemma raw_get_embedding_skips (l1 l2 : list Raw.row) (bad : Raw.row)
    (t i : string) :
  Raw.json_loads (Raw.vector_blob bad) = None ->
  unique_keys Raw.key (l1 ++ bad :: l2) ->
  Raw.get_embedding (l1 ++ bad :: l2) t i = Raw.get_embedding (l1 ++ l2) t i.
Proof.
  intros Hbad Huniq. unfold Raw.get_embedding.
  rewrite !fetchone_app.
  destruct (fetchone Raw.key (t, i) l1) as [r|]; [reflexivity|].
  unfold fetchone at 1. cbn [List.find].
  destruct (bool_decide_reflect (Raw.key bad = (t, i))) as [E|_];
    [|reflexivity].
  rewrite Hbad.
  destruct (unique_keys_middle Raw.key l1 l2 bad Huniq) as [_ H2].
  rewrite E in H2. now rewrite (fetchone_absent Raw.key _ _ H2).
Qed.

Lemma raw_api_skips (hash : string -> Z) (l1 l2 : list Raw.row)
    (bad : Raw.row) (req : Main.SearchSimilarRequest) :
  Raw.json_loads (Raw.vector_blob bad) = None ->
  unique_keys Raw.key (l1 ++ bad :: l2) ->
  Raw.api_search_similar hash (l1 ++ bad :: l2) req
  = Raw.api_search_similar hash (l1 ++ l2) req.
Proof.
  intros Hbad Huniq.
  assert (Hrank : forall q, Raw.rank req (l1 ++ bad :: l2) q
                            = Raw.rank req (l1 ++ l2) q).
  { intros q. unfold Raw.rank.
    now rewrite raw_get_all_embeddings_skips, raw_get_all_embeddings_app. }
  unfold Raw.api_search_similar.
  destruct (nonempty (Main.message_text req)).
  - destruct (Main.text_to_vector hash s Main.DIM); [apply Hrank|reflexivity].
  - destruct (nonempty (Main.summary_id req)) as [sid|]; [|reflexivity].
    rewrite (raw_get_embedding_skips l1 l2 bad "summary" sid Hbad Huniq).
    destruct (Raw.get_embedding (l1 ++ l2) "summary" sid) as [[]|];
      first [apply Hrank | reflexivity].
Qed.

(** [Main] is [Raw] on the tables that hold arrays of floats and invalid
    texts only. *)

Lemma raw_numbers_of_vector (v : vector) :
  Raw.numbers (Raw.of_vector v) = Some v.
Proof.
  unfold Raw.numbers, Raw.of_vector. cbn [Raw.iterate mbind option_bind].
  induction v as [|a v IH]; [reflexivity|].
  rewrite fmap_cons. cbn [Raw.all_numbers Raw.number mbind option_bind].
  now rewrite IH.
Qed.

Lemma raw_cosine_of_vectors (a b : vector) :
  Raw.cosine_similarity (Raw.of_vector a) (Raw.of_vector b)
  = Main.cosine_similarity a b.
Proof.
  unfold Raw.cosine_similarity. now rewrite !raw_numbers_of_vector.
Qed.

Lemma raw_get_all_of_main (rows : list Main.row) :
  Raw.get_all_embeddings (Raw.of_main <$> rows)
  = (fun c : string * string * vector => (c.1, Raw.of_vector c.2))
      <$> Main.get_all_embeddings rows.
Proof.
  induction rows as [|r rows IH]; [reflexivity|].
  rewrite fmap_cons. cbn [Raw.get_all_embeddings Main.get_all_embeddings].
  unfold Raw.of_main at 1. cbn [Raw.vector_blob].
  destruct (Main.vector_blob r) as [v|raw];
    cbn [Raw.of_blob Raw.json_loads json_loads]; [|exact IH].
  rewrite fmap_cons, IH. reflexivity.
Qed.

Lemma raw_score_all_of_main (req : Main.SearchSimilarRequest) (q : vector)
    (cands : list (string * string * vector)) :
  Raw.score_all req (Raw.of_vector q)
    ((fun c : string * string * vector => (c.1, Raw.of_vector c.2)) <$> cands)
  = Main.score_all req q cands.
Proof.
  induction cands as [|[[t i] v] cands IH]; [reflexivity|].
  rewrite fmap_cons. cbn [Raw.score_all Main.score_all fst snd].
  destruct (Main.is_self req t i); [exact IH|].
  now rewrite raw_cosine_of_vectors, IH.
Qed.

Lemma raw_rank_of_main (req : Main.SearchSimilarRequest)
    (rows : list Main.row) (q : vector) :
  Raw.rank req (Raw.of_main <$> rows) (Raw.of_vector q) = Main.rank req rows q.
Proof.
  unfold Raw.rank, Main.rank.
  now rewrite raw_get_all_of_main, raw_score_all_of_main.
Qed.

Lemma raw_get_embedding_of_main (rows : list Main.row) (t i : string) :
  Raw.get_embedding (Raw.of_main <$> rows) t i
  = Raw.of_vector <$> Main.get_embedding rows t i.
Proof.
  unfold Raw.get_embedding, Main.get_embedding, fetchone.
  induction rows as [|r rows IH]; [reflexivity|].
  rewrite fmap_cons. cbn [List.find].
  change (Raw.key (Raw.of_main r)) with (Main.key r).
  destruct (bool_decide (Main.key r = (t, i))); [|exact IH].
  unfold Raw.of_main. cbn [Raw.vector_blob].
  now destruct (Main.vector_blob r).
Qed.

Lemma raw_api_of_main (hash : string -> Z) (rows : list Main.row)
    (req : Main.SearchSimilarRequest) :
  Raw.api_search_similar hash (Raw.of_main <$> rows) req
  = Main.api_search_similar hash rows req.
Proof.
  unfold Raw.api_search_similar, Main.api_search_similar.
  destruct (nonempty (Main.message_text req)).
  - destruct (Main.text_to_vector hash s Main.DIM); [|reflexivity].
    apply raw_rank_of_main.
  - destruct (nonempty (Main.summary_id req)) as [sid|]; [|reflexivity].
    rewrite raw_get_embedding_of_main.
    destruct (Main.get_embedding rows "summary" sid) as [ev|]; [|reflexivity].
    apply raw_rank_of_main.
Qed.

Lemma well_formed_of_main (rows : list Raw.row) :
  Forall Raw.well_formed rows ->
  exists mrows,
    rows = Raw.of_main <$> mrows /\
    Main.get_all_embeddings mrows
    = (fun r => (Main.item_type r, Main.item_id r,
                 default [] (json_loads (Main.vector_blob r)))) <$> mrows /\
    Forall (fun r => exists v, Main.vector_blob r = JsonArray v) mrows.
Proof.
  induction 1 as [|r rows [v Hv] _ (mrows & -> & Hall & Hwf)].
  - exists []. repeat split. constructor.
  - exists ({| Main.item_type := Raw.item_type r; Main.item_id := Raw.item_id r;
               Main.vector_blob := JsonArray v;
               Main.timestamp := Raw.timestamp r |} :: mrows).
    split; [|split].
    + rewrite fmap_cons. f_equal. destruct r. cbn in *. now subst.
    + cbn [Main.get_all_embeddings Main.vector_blob json_loads].
      rewrite fmap_cons, Hall. reflexivity.
    + constructor; [now exists v | exact Hwf].
Qed.

Lemma main_candidate_row (rows : list Main.row) (c : string * string * vector) :
  In c (Main.get_all_embeddings rows) ->
  exists r, In r rows /\ Main.key r = c.1 /\ Main.vector_blob r = JsonArray c.2.
Proof.
  induction rows as [|r rows IH]; cbn [Main.get_all_embeddings];
    [contradiction|].
  destruct (Main.vector_blob r) as [v|raw] eqn:Hblob; cbn [json_loads].
  - intros [<- | Hin].
    + exists r. cbn. auto.
    + destruct (IH Hin) as (r' & Hr' & H'). exists r'. cbn. auto.
  - intros Hin. destruct (IH Hin) as (r' & Hr' & H'). exists r'. cbn. auto.
Qed.

Lemma eligible_count_of_main (req : Main.SearchSimilarRequest)
    (mrows : list Main.row) :
  Forall (fun r => exists v, Main.vector_blob r = JsonArray v) mrows ->
  length (Main.eligible req mrows)
  = length (List.filter
              (fun r => negb (Main.is_self req (Raw.item_type r)
                                (Raw.item_id r)))
              (Raw.of_main <$> mrows)).
Proof.
  unfold Main.eligible.
  induction 1 as [|r mrows [v Hv] _ IH]; [reflexivity|].
  rewrite fmap_cons. cbn [Main.get_all_embeddings List.filter].
  rewrite Hv. cbn [json_loads List.filter fst snd].
  change (Raw.item_type (Raw.of_main r)) with (Main.item_type r).
  change (Raw.item_id (Raw.of_main r)) with (Main.item_id r).
  destruct (Main.is_self req (Main.item_type r) (Main.item_id r));
    cbn [negb length]; now rewrite IH.
Qed.

(** The service's scan. *)

Lemma service_scored (q : vector) (rows : list Service.row)
    (e : Service.result) :
  In e (Service.score_all q rows) <->
  exists r v content,
    In r rows /\ json_loads (Service.vector_blob r) = Some v /\
    nonempty (Service.text_content r) = Some content /\
    e = {| Service.result_type := Service.item_type r;
           Service.result_id := Service.item_id r;
           Service.score := Service.cosine_similarity q v;
           Service.text := truncate 200 content |}.
Proof.
  induction rows as [|r rows IH]; cbn [Service.score_all].
  - split; [contradiction | intros (r & v & c & [] & _)].
  - unfold Service.score_row.
    destruct (nonempty (Service.text_content r)) as [content|] eqn:Hc.
    + destruct (json_loads (Service.vector_blob r)) as [v|] eqn:Hv.
      * split.
        -- intros [<- | Hin].
           ++ exists r, v, content. cbn. auto.
           ++ apply IH in Hin as (r' & v' & c' & Hr' & H').
              exists r', v', c'. cbn. auto.
        -- intros (r' & v' & c' & [<- | Hr'] & Hv' & Hc' & ->).
           ++ left. congruence.
           ++ right. apply IH. now exists r', v', c'.
      * rewrite IH. split.
        -- intros (r' & v' & c' & Hr' & H'). exists r', v', c'. cbn. auto.
        -- intros (r' & v' & c' & [<- | Hr'] & Hv' & H'); [congruence|].
           now exists r', v', c'.
    + rewrite IH. split.
      * intros (r' & v' & c' & Hr' & H'). exists r', v', c'. cbn. auto.
      * intros (r' & v' & c' & [<- | Hr'] & Hv' & Hc' & H'); [congruence|].
        now exists r', v', c'.
Qed.

Lemma service_score_all_skips (q : vector) (l1 l2 : list Service.row)
    (bad : Service.row) :
  json_loads (Service.vector_blob bad) = None ->
  Service.score_all q (l1 ++ bad :: l2)
  = Service.score_all q l1 ++ Service.score_all q l2.
Proof.
  intros Hbad. rewrite service_score_all_app. f_equal.
  cbn [Service.score_all]. unfold Service.score_row. rewrite Hbad.
  now destruct (nonempty (Service.text_content bad)).
Qed.

Lemma service_eligible_skips (l1 l2 : list Service.row) (bad : Service.row) :
  json_loads (Service.vector_blob bad) = None ->
  Service.eligible (l1 ++ bad :: l2) = Service.eligible (l1 ++ l2).
Proof.
  intros Hbad. unfold Service.eligible.
  rewrite !List.filter_app. f_equal. cbn [List.filter]. rewrite Hbad.
  now destruct (nonempty (Service.text_content bad)).
Qed.

End CorruptRows.

(** C8.  A record whose payload [json.loads] rejects is skipped by the scan,
    which continues with the records after it: the candidates are exactly
    the records whose payload parses, in table order.  The record never
    decides the outcome of a query: under the table's key constraint the
    hashing endpoint answers as on the table without it, whatever the other
    records hold.  When the other records are well formed a query by text is
    answered, with a ranked list of as many items as the limit and the
    remaining records allow, each carrying the cosine similarity of the query
    with the vector of a remaining record.  The service skips the record in
    the same way: its scored entries are exactly those of the records with a
    text and a payload that parses, and a search returns as many of them as
    [top_k] allows. *)
Theorem scan_skips_corrupt_rows :
  (forall (l1 l2 : list Raw.row) (bad : Raw.row),
     Raw.json_loads (Raw.vector_blob bad) = None ->
     Raw.get_all_embeddings (l1 ++ bad :: l2)
     = Raw.get_all_embeddings l1 ++ Raw.get_all_embeddings l2 /\
     (forall t i d,
        In (t, i, d) (Raw.get_all_embeddings (l1 ++ bad :: l2)) <->
        exists r, In r (l1 ++ l2) /\ Raw.item_type r = t /\
                  Raw.item_id r = i /\ Raw.vector_blob r = Raw.Document d) /\
     (forall hash req,
        unique_keys Raw.key (l1 ++ bad :: l2) ->
        Raw.api_search_similar hash (l1 ++ bad :: l2) req
        = Raw.api_search_similar hash (l1 ++ l2) req) /\
     (forall hash req message,
        Forall Raw.well_formed (l1 ++ l2) ->
        nonempty (Main.message_text req) = Some message ->
        exists q related,
          Main.text_to_vector hash message Main.DIM = Some q /\
          Raw.api_search_similar hash (l1 ++ bad :: l2) req
          = Main.SearchSimilarResponse related /\
          ranked Main.score related /\
          length related
          = Nat.min (Z.to_nat (Main.limit req))
              (length (List.filter
                         (fun r => negb (Main.is_self req (Raw.item_type r)
                                           (Raw.item_id r)))
                         (l1 ++ l2))) /\
          forall x, In x related ->
            exists r v,
              In r (l1 ++ l2) /\
              Raw.key r = (Main.related_type x, Main.related_id x) /\
              Raw.vector_blob r = Raw.Document (Raw.of_vector v) /\
              Main.cosine_similarity q v = Some (Main.score x))) /\
  (forall (l1 l2 : list Service.row) (bad : Service.row),
     json_loads (Service.vector_blob bad) = None ->
     (forall q,
        Service.score_all q (l1 ++ bad :: l2)
        = Service.score_all q l1 ++ Service.score_all q l2) /\
     (forall q e,
        In e (Service.score_all q (l1 ++ bad :: l2)) <->
        exists r v content,
          In r (l1 ++ l2) /\ json_loads (Service.vector_blob r) = Some v /\
          nonempty (Service.text_content r) = Some content /\
          e = {| Service.result_type := Service.item_type r;
                 Service.result_id := Service.item_id r;
                 Service.score := Service.cosine_similarity q v;
                 Service.text := truncate 200 content |}) /\
     (forall encode g query summary_id k,
        nonempty query <> None ->
        Service.search_similar_items encode (l1 ++ bad :: l2) g
          query summary_id k
        = Service.search_similar_items encode (l1 ++ l2) g
            query summary_id k) /\
     (forall encode g query summary_id k q g',
        (0 <= k)%Z ->
        Service.resolves encode (l1 ++ bad :: l2) g query summary_id q g' ->
        length (Service.search_similar_items encode (l1 ++ bad :: l2) g
                  query summary_id k).1
        = Nat.min (Z.to_nat k) (length (Service.eligible (l1 ++ l2))))).
Proof.
  split.
  - intros l1 l2 bad Hbad.
    pose proof (raw_get_all_embeddings_skips l1 l2 bad Hbad) as Hscan.
    split; [exact Hscan|]. split; [|split].
    + intros t i d. rewrite Hscan, <- raw_get_all_embeddings_app.
      apply raw_candidates.
    + intros hash req. now apply raw_api_skips.
    + intros hash req message Hwf Hm.
      set (q := HashingSpec.embed hash Main.DIM message).
      assert (Hq : Main.text_to_vector hash message Main.DIM = Some q)
        by (apply text_to_vector_embed; unfold Main.DIM; lia).
      destruct (well_formed_of_main _ Hwf) as (mrows & Hrows & _ & Hparse).
      assert (Hapi : Raw.api_search_similar hash (l1 ++ bad :: l2) req
                     = Main.rank req mrows q).
      { unfold Raw.api_search_similar. rewrite Hm, Hq. unfold Raw.rank.
        rewrite Hscan, <- raw_get_all_embeddings_app, Hrows.
        apply raw_rank_of_main. }
      rewrite Hapi, rank_closed. exists q. eexists.
      split; [exact Hq|]. split; [reflexivity|]. split; [|split].
      * apply ranked_related.
      * pose proof (limit_bounds req).
        rewrite length_map, slice_length_nonneg by lia.
        rewrite sort_desc_length, length_map, Hrows.
        now rewrite eligible_count_of_main.
      * intros x Hx. apply in_map_iff in Hx as (y & <- & Hy).
        apply slice_In, sort_desc_In, in_map_iff in Hy as (c & <- & Hc).
        apply filter_In in Hc as [Hc _].
        apply main_candidate_row in Hc as (r & Hr & Hkey & Hblob).
        exists (Raw.of_main r), c.2. split; [|split; [|split]].
        -- rewrite Hrows. apply in_map_iff. now exists r.
        -- change (Raw.key (Raw.of_main r)) with (Main.key r).
           rewrite Hkey. now destruct c as [[t i] v].
        -- unfold Raw.of_main. cbn [Raw.vector_blob]. now rewrite Hblob.
        -- apply main_cosine_is_value.
  - intros l1 l2 bad Hbad.
    pose proof (fun q => service_score_all_skips q l1 l2 bad Hbad) as Hscan.
    assert (Hrank : forall q k, Service.rank (l1 ++ bad :: l2) q k
                                = Service.rank (l1 ++ l2) q k).
    { intros q k. unfold Service.rank.
      now rewrite Hscan, service_score_all_app. }
    split; [exact Hscan|]. split; [|split].
    + intros q e. rewrite Hscan, <- service_score_all_app.
      apply service_scored.
    + intros encode g query summary_id k Hq.
      unfold Service.search_similar_items.
      destruct (nonempty query) as [text|]; [|contradiction].
      destruct (Service.generate_embedding encode text g) as [q g'].
      now rewrite Hrank.
    + intros encode g query summary_id k q g' Hk Hres.
      rewrite (service_resolved encode _ _ _ _ _ _ k Hres). cbn [fst].
      rewrite service_rank_length by assumption.
      now rewrite service_eligible_skips.
Qed.

Lemma scan_skips_corrupt_rows_witness :
  Raw.get_all_embeddings raw_rows
  = [ ("summary", "s1", Raw.of_vector [1; 0]);
      ("summary", "s2", Raw.of_vector [0; 1]) ] /\
  length (Main.related_of
            (Raw.api_search_similar length_hash raw_rows
               (by_message "hotel booking" 3))) = 2%nat /\
  length (Service.search_similar_items sample_encode
            (firstn 1 service_rows ++ corrupt_service_row
               :: skipn 1 service_rows)
            sample_rng (Some "hotel") None 2).1 = 2%nat.
Proof.
  destruct scan_skips_corrupt_rows as [Hmain Hservice].
  destruct (Hmain [raw_row "summary" "s1" (Raw.Document (Raw.of_vector [1; 0]))]
              [raw_row "summary" "s2" (Raw.Document (Raw.of_vector [0; 1]))]
              (raw_row "task" "t9" (Raw.Invalid "[0.12, 0.5")) eq_refl)
    as (Hscan & _ & _ & Hanswer).
  split; [exact Hscan|]. split.
  - destruct (Hanswer length_hash (by_message "hotel booking" 3)
                "hotel booking") as (q & related & _ & Hapi & _ & Hlen & _).
    + repeat constructor; eexists; reflexivity.
    + reflexivity.
    + change raw_rows
        with ([raw_row "summary" "s1" (Raw.Document (Raw.of_vector [1; 0]))]
              ++ raw_row "task" "t9" (Raw.Invalid "[0.12, 0.5")
              :: [raw_row "summary" "s2"
                    (Raw.Document (Raw.of_vector [0; 1]))]).
      rewrite Hapi. exact Hlen.
  - destruct (Hservice (firstn 1 service_rows) (skipn 1 service_rows)
                corrupt_service_row eq_refl) as (_ & _ & _ & Hcount).
    apply (Hcount sample_encode sample_rng (Some "hotel") None 2%Z
             [INR 5; 1] sample_rng); [lia|].
    now apply (Service.by_text _ _ _ _ _ _ _ "hotel").
Defined.

(** A payload that parses but is no sequence of numbers is not skipped: the
    scan keeps it and the scoring loop, which no [try] covers, raises on
    it. *)
Lemma raw_payload_raises (hash : string -> Z) (l1 l2 : list Raw.row)
    (t i : string) (d : Raw.json) (message : string) (k : Z) :
  message <> EmptyString ->
  Raw.numbers d = None ->
  Raw.api_search_similar hash (l1 ++ raw_row t i (Raw.Document d) :: l2)
    (by_message message k)
  = Main.Uncaught.
Proof.
  intros Hne Hd. unfold Raw.api_search_similar.
  cbn [by_message Main.message_text nonempty].
  destruct (String.eqb_spec message ""); [contradiction|].
  rewrite text_to_vector_embed by (unfold Main.DIM; lia).
  set (q := HashingSpec.embed hash Main.DIM message).
  unfold Raw.rank. rewrite raw_get_all_embeddings_app.
  cbn [Raw.get_all_embeddings raw_row Raw.vector_blob Raw.json_loads
       Raw.item_type Raw.item_id].
  assert (Hraise : forall (before : list (string * string * Raw.json)) rest,
             Raw.score_all (by_message message k) (Raw.of_vector q)
               (before ++ (t, i, d) :: rest) = None).
  { intros before rest.
    induction before as [|[[t' i'] d'] before IH].
    - cbn [app Raw.score_all]. unfold Main.is_self.
      cbn [by_message Main.summary_id nonempty].
      unfold Raw.cosine_similarity.
      now rewrite raw_numbers_of_vector, Hd.
    - rewrite <- app_comm_cons. cbn [Raw.score_all]. unfold Main.is_self.
      cbn [by_message Main.summary_id nonempty]. rewrite IH.
      now destruct (Raw.cosine_similarity (Raw.of_vector q) d'). }
  now rewrite Hraise.
Qed.

Example raw_null_payload_raises :
  Raw.api_search_similar length_hash
    [raw_row "summary" "s1" (Raw.Document Raw.JNull)]
    (by_message "hotel booking" 3)
  = Main.Uncaught.
Proof.
  apply (raw_payload_raises length_hash [] [] "summary" "s1" Raw.JNull
           "hotel booking" 3); [discriminate | reflexivity].
Qed.

(** ** Upsert *)

Section TableFacts.
Context {row : Type} (key : row -> string * string).

Lemma keys_of_filter (P : row -> Prop) `{forall r, Decision (P r)}
    (rows : list row) (k : string * string) :
  k ∈ key <$> filter P rows -> exists r, r ∈ rows /\ P r /\ key r = k.
Proof.
  intros Hk. apply list_elem_of_fmap in Hk as (r & -> & Hr).
  apply list_elem_of_filter in Hr as [HP Hr]. now exists r.
Qed.

Lemma unique_keys_filter (P : row -> Prop) `{forall r, Decision (P r)}
    (rows : list row) :
  unique_keys key rows -> unique_keys key (filter P rows).
Proof.
  unfold unique_keys. induction rows as [|r rows IH]; [trivial|].
  rewrite fmap_cons, NoDup_cons. intros [Hr Hnd].
  rewrite filter_cons. destruct (decide (P r)); [|now apply IH].
  rewrite fmap_cons. apply NoDup_cons. split; [|now apply IH].
  intros Hin. apply keys_of_filter in Hin as (r' & Hr' & _ & Hk).
  apply Hr. rewrite <- Hk. now apply list_elem_of_fmap_2.
Qed.

(** [INSERT OR REPLACE] keeps the key constraint. *)
Lemma insert_or_replace_unique (new : row) (rows : list row) :
  unique_keys key rows -> unique_keys key (insert_or_replace key new rows).
Proof.
  intros Hu. unfold insert_or_replace, unique_keys.
  rewrite fmap_app. apply NoDup_app. split; [|split].
  - now apply unique_keys_filter.
  - intros k Hk Hnew. apply keys_of_filter in Hk as (r & _ & Hne & <-).
    apply list_elem_of_singleton in Hnew. contradiction.
  - apply NoDup_singleton.
Qed.

(** After it, the new row is the one record under its key. *)
Lemma insert_or_replace_records (new : row) (rows : list row) :
  records_at key (key new) (insert_or_replace key new rows) = [new].
Proof.
  unfold records_at, insert_or_replace. rewrite filter_app.
  rewrite (filter_singleton_True _ new []) by reflexivity.
  replace (filter (fun r => key r = key new)
             (filter (fun r => key r <> key new) rows)) with (@nil row);
    [reflexivity|].
  induction rows as [|r rows IH]; [reflexivity|].
  rewrite (filter_cons (fun r => key r <> key new)).
  destruct (decide (key r <> key new)) as [Hne|_]; [|exact IH].
  now rewrite filter_cons_False.
Qed.

(** The records under every other key are untouched. *)
Lemma insert_or_replace_other (new : row) (rows : list row)
    (k : string * string) :
  k <> key new ->
  records_at key k (insert_or_replace key new rows) = records_at key k rows.
Proof.
  intros Hk. unfold records_at, insert_or_replace. rewrite filter_app.
  rewrite (filter_singleton_False _ new []) by congruence.
  rewrite app_nil_r.
  induction rows as [|r rows IH]; [reflexivity|].
  rewrite (filter_cons (fun r => key r <> key new)).
  rewrite (filter_cons (fun r => key r = k) r rows).
  destruct (decide (key r <> key new)) as [Hne|He].
  - rewrite filter_cons. destruct (decide (key r = k)); now rewrite IH.
  - destruct (decide (key r = k)) as [E|_]; [|exact IH].
    destruct He. congruence.
Qed.

Lemma unique_keys_records (rows : list row) (k : string * string) :
  unique_keys key rows -> (length (records_at key k rows) <= 1)%nat.
Proof.
  unfold unique_keys, records_at.
  induction rows as [|r rows IH]; [simpl; lia|].
  rewrite fmap_cons, NoDup_cons. intros [Hr Hnd].
  rewrite filter_cons. destruct (decide (key r = k)) as [E|_]; [|now apply IH].
  replace (filter (fun r0 => key r0 = k) rows) with (@nil row); [simpl; lia|].
  symmetry.
  destruct (filter (fun r0 => key r0 = k) rows) as [|r' l] eqn:Hf; [reflexivity|].
  exfalso. apply Hr.
  assert (Hin : r' ∈ filter (fun r0 => key r0 = k) rows)
    by (rewrite Hf; apply list_elem_of_here).
  apply list_elem_of_filter in Hin as [Hk Hin].
  rewrite E, <- Hk. now apply list_elem_of_fmap_2.
Qed.

End TableFacts.

Section Upsert.

Lemma fetchone_insert {row : Type} (key : row -> string * string)
    (new : row) (rows : list row) :
  fetchone key (key new) (insert_or_replace key new rows) = Some new.
Proof.
  unfold insert_or_replace. rewrite fetchone_app.
  rewrite fetchone_absent.
  - unfold fetchone. simpl. now rewrite bool_decide_eq_true_2.
  - intros Hin. apply list_elem_of_In in Hin.
    change (key new ∈ key <$> filter (fun r => key r <> key new) rows) in Hin.
    apply keys_of_filter in Hin as (r & _ & Hne & E). contradiction.
Qed.

Lemma main_store_ok (hash : string -> Z) (ts : string) (rows : list Main.row)
    (t i text : string) :
  Main.store_embedding hash true ts rows t i text
    = (true,
       insert_or_replace Main.key
         {| Main.item_type := t; Main.item_id := i;
            Main.vector_blob := json_dumps (HashingSpec.embed hash Main.DIM text);
            Main.timestamp := ts |} rows).
Proof.
  unfold Main.store_embedding. now rewrite text_to_vector_embed.
Qed.

Lemma main_store_failed (hash : string -> Z) (ts : string)
    (rows : list Main.row) (t i text : string) :
  Main.store_embedding hash false ts rows t i text = (false, rows).
Proof.
  unfold Main.store_embedding. now rewrite text_to_vector_embed.
Qed.

Lemma main_store_unique (hash : string -> Z) (ok : bool) (ts : string)
    (rows : list Main.row) (t i text : string) :
  unique_keys Main.key rows ->
  unique_keys Main.key (Main.store_embedding hash ok ts rows t i text).2.
Proof.
  intros Hu. destruct ok.
  - rewrite main_store_ok. now apply insert_or_replace_unique.
  - now rewrite main_store_failed.
Qed.

Lemma main_store_all_unique (hash : string -> Z) (calls : list Main.store_call)
    (rows : list Main.row) :
  unique_keys Main.key rows ->
  unique_keys Main.key (Main.store_all hash calls rows).
Proof.
  unfold Main.store_all. revert rows.
  induction calls as [|c calls IH]; intros rows Hu; simpl; [exact Hu|].
  apply IH. now apply main_store_unique.
Qed.

Lemma service_store_eq (encode : string -> option vector) (ok : bool)
    (ts : string) (rows : list Service.row) (g : rng) (t i text : string) :
  Service.store_embedding encode ok ts rows g t i text
    = (ok,
       if ok then
         insert_or_replace Service.key
           {| Service.item_type := t; Service.item_id := i;
              Service.vector_blob :=
                json_dumps (Service.generate_embedding encode text g).1;
              Service.timestamp := ts;
              Service.text_content := Some text |} rows
       else rows,
       (Service.generate_embedding encode text g).2).
Proof.
  unfold Service.store_embedding.
  destruct (Service.generate_embedding encode text g) as [v g'].
  now destruct ok.
Qed.

Lemma service_store_all_unique (encode : string -> option vector)
    (calls : list Service.store_call) (rows : list Service.row) (g : rng) :
  unique_keys Service.key rows ->
  unique_keys Service.key (Service.store_all encode calls rows g).1.
Proof.
  unfold Service.store_all. revert rows g.
  induction calls as [|c calls IH]; intros rows g Hu; simpl; [exact Hu|].
  rewrite service_store_eq. apply IH.
  destruct (Service.call_db_ok c); [|exact Hu].
  now apply insert_or_replace_unique.
Qed.

End Upsert.

(** C3.  Every sequence of [store_embedding] calls keeps at most one record
    per [(item_type, item_id)]: the key constraint holds after any sequence
    started from a table that satisfies it (the empty table does), and a
    successful store leaves exactly one record under its key, carrying the
    vector (and, in the service, the text) of that call, whatever was stored
    there before; records under other keys are untouched. *)
Theorem store_embedding_upsert :
  (forall hash calls rows,
     unique_keys Main.key rows ->
     unique_keys Main.key (Main.store_all hash calls rows) /\
     forall k,
       (length (records_at Main.key k (Main.store_all hash calls rows)) <= 1)%nat) /\
  (forall hash ts rows t i text,
     let new := {| Main.item_type := t; Main.item_id := i;
                   Main.vector_blob :=
                     json_dumps (HashingSpec.embed hash Main.DIM text);
                   Main.timestamp := ts |} in
     let rows' := (Main.store_embedding hash true ts rows t i text).2 in
     (Main.store_embedding hash true ts rows t i text).1 = true /\
     records_at Main.key (t, i) rows' = [new] /\
     Main.get_embedding rows' t i = Some (HashingSpec.embed hash Main.DIM text) /\
     forall k, k <> (t, i) ->
       records_at Main.key k rows' = records_at Main.key k rows) /\
  (forall encode calls rows g,
     unique_keys Service.key rows ->
     unique_keys Service.key (Service.store_all encode calls rows g).1 /\
     forall k,
       (length (records_at Service.key k
                  (Service.store_all encode calls rows g).1) <= 1)%nat) /\
  (forall encode ts rows g t i text,
     let new := {| Service.item_type := t; Service.item_id := i;
                   Service.vector_blob :=
                     json_dumps (Service.generate_embedding encode text g).1;
                   Service.timestamp := ts;
                   Service.text_content := Some text |} in
     let rows' := (Service.store_embedding encode true ts rows g t i text).1.2 in
     (Service.store_embedding encode true ts rows g t i text).1.1 = true /\
     records_at Service.key (t, i) rows' = [new] /\
     forall k, k <> (t, i) ->
       records_at Service.key k rows' = records_at Service.key k rows).
Proof.
  split; [|split; [|split]].
  - intros hash calls rows Hu.
    pose proof (main_store_all_unique hash calls rows Hu) as Hu'.
    split; [exact Hu'|]. intros k. now apply unique_keys_records.
  - intros hash ts rows t i text new rows'. subst rows'.
    rewrite main_store_ok. simpl. fold new.
    split; [reflexivity|]. split; [|split].
    + apply (insert_or_replace_records Main.key new rows).
    + pose proof (fetchone_insert Main.key new rows) as Hf.
      change (Main.key new) with (t, i) in Hf.
      unfold Main.get_embedding. now rewrite Hf.
    + intros k Hk. now apply (insert_or_replace_other Main.key new rows).
  - intros encode calls rows g Hu.
    pose proof (service_store_all_unique encode calls rows g Hu) as Hu'.
    split; [exact Hu'|]. intros k. now apply unique_keys_records.
  - intros encode ts rows g t i text new rows'. subst rows'.
    rewrite service_store_eq. simpl. fold new.
    split; [reflexivity|]. split.
    + apply (insert_or_replace_records Service.key new rows).
    + intros k Hk. now apply (insert_or_replace_other Service.key new rows).
Qed.

Lemma store_embedding_upsert_witness :
  unique_keys Main.key [] /\
  unique_keys Main.key (Main.store_all length_hash store_twice []) /\
  records_at Main.key ("summary", "s1") (Main.store_all length_hash store_twice [])
    = [ {| Main.item_type := "summary"; Main.item_id := "s1";
           Main.vector_blob :=
             json_dumps (HashingSpec.embed length_hash Main.DIM
                           "flight boarding pass");
           Main.timestamp := "2024-01-02T00:00:00" |} ].
Proof.
  assert (Hempty : unique_keys Main.key []) by apply NoDup_nil_2.
  destruct store_embedding_upsert as (Hseq & Hone & _).
  split; [exact Hempty|]. split.
  - exact (proj1 (Hseq length_hash store_twice [] Hempty)).
  - exact (proj1 (proj2 (Hone length_hash "2024-01-02T00:00:00"
                           (Main.store_embedding length_hash true
                              "2024-01-01T00:00:00" [] "summary" "s1"
                              "hotel booking").2
                           "summary" "s1" "flight boarding pass"))).
Defined.

(** ** The fallback of the learned embedding *)

Section Fallback.
Variable encode : string -> option vector.

Lemma generate_embedding_failed (text : string) (g : rng) :
  encode text = None ->
  Service.generate_embedding encode text g
    = (map g (seq 0 384), fun i => g (384 + i)%nat).
Proof.
  intros Hfail. unfold Service.generate_embedding. now rewrite Hfail.
Qed.

Lemma draws_shift (g : rng) (n start len : nat) :
  map (fun i => g (n + i)%nat) (seq start len) = map g (seq (n + start) len).
Proof.
  revert start. induction len as [|len IH]; intros start; [reflexivity|].
  cbn [seq map]. f_equal. rewrite IH. now rewrite Nat.add_succ_r.
Qed.

End Fallback.

(** C5, as amended.  When the model fails on a text, [generate_embedding]
    returns normally with the next 384 draws of the process-wide random
    generator and leaves the generator advanced by 384, so a second failing
    call returns the following 384 draws; a store of that text succeeds
    whenever the write does, and a search by that text ranks the store
    against the substitute vector. *)
Theorem generate_embedding_fallback (encode : string -> option vector)
    (text : string) (g : rng) :
  encode text = None ->
  let v := (Service.generate_embedding encode text g).1 in
  let g' := (Service.generate_embedding encode text g).2 in
  v = map g (seq 0 384) /\
  length v = 384%nat /\
  (Service.generate_embedding encode text g').1 = map g (seq 384 384) /\
  (forall ts rows t i,
     (Service.store_embedding encode true ts rows g t i text).1.1 = true) /\
  (forall rows summary_id k,
     text <> EmptyString ->
     Service.search_similar_items encode rows g (Some text) summary_id k
       = (Service.rank rows v k, g')).
Proof.
  intros Hfail v g'. subst v g'.
  rewrite !generate_embedding_failed by assumption. cbn [fst snd].
  split; [reflexivity|]. split; [now rewrite length_map, length_seq|].
  split.
  - rewrite (draws_shift g 384 0 384). now rewrite Nat.add_0_r.
  - split.
    + intros ts rows t i. now rewrite service_store_eq.
    + intros rows summary_id k Hne.
      apply service_resolved, (Service.by_text _ _ _ _ _ _ _ text).
      * simpl. destruct (String.eqb_spec text ""); [contradiction|reflexivity].
      * now apply generate_embedding_failed.
Qed.

Lemma generate_embedding_fallback_witness :
  no_model "hotel booking" = None /\
  (Service.generate_embedding no_model "hotel booking" sample_rng).1
    = map sample_rng (seq 0 384) /\
  length (Service.generate_embedding no_model "hotel booking" sample_rng).1
    = 384%nat.
Proof.
  destruct (generate_embedding_fallback no_model "hotel booking" sample_rng eq_refl)
    as (Hv & Hlen & _).
  split; [reflexivity|]. split; [exact Hv | exact Hlen].
Defined.

(** C5 fails as first stated: with the model unavailable, two calls of
    [generate_embedding] on the same text return different vectors, because
    each takes fresh draws from the random generator. *)
Lemma fallback_not_deterministic :
  no_model "hotel booking" = None /\
  let first := Service.generate_embedding no_model "hotel booking" sample_rng in
  let second := Service.generate_embedding no_model "hotel booking" first.2 in
  first.1 <> second.1.
Proof.
  split; [reflexivity|]. cbv zeta.
  rewrite !generate_embedding_failed by reflexivity. cbn [fst snd].
  rewrite (draws_shift sample_rng 384 0 384).
  intros Heq.
  assert (Hhead : sample_rng 0%nat = sample_rng 384%nat).
  { exact (f_equal (fun l => hd 0 l) Heq). }
  clear Heq. unfold sample_rng in Hhead.
  change (Z.of_nat 0 + 2)%Z with 2%Z in Hhead.
  change (Z.of_nat 384 + 2)%Z with 386%Z in Hhead.
  lra.
Qed.

(** The service has no self-exclusion: a search by reference to a stored
    summary ranks that summary like any other row. *)
Example service_search_includes_self :
  map Service.result_id
    (Service.search_similar_items sample_encode
       [service_row "summary" "s1" [1; 0] "hotel booking"] sample_rng
       None (Some "s1") 3).1
  = ["s1"].
Proof. reflexivity. Qed.

Example eligible_eleven :
  length (Main.eligible (by_message "hotel" 11) eleven_rows) = 11%nat.
Proof. reflexivity. Qed.

Example truncate_short : truncate 200 "hotel booking" = "hotel booking".
Proof. reflexivity. Qed.

Example slice_negative : py_slice_to [1; 2; 3; 4]%nat (-1) = [1; 2; 3]%nat.
Proof. reflexivity. Qed.

(** * Further properties of the code *)

(** ** Cosine similarity: symmetry *)

Section CosineSymmetry.

Lemma zip_dot_comm (v w : vector) : zip_dot v w = zip_dot w v.
Proof.
  revert w. induction v as [|a v IH]; intros [|b w];
    try reflexivity.
  rewrite !zip_dot_cons, IH. ring.
Qed.

(** The score does not depend on which vector is the query. *)
Theorem cosine_similarity_symmetric (v w : vector) :
  Main.cosine_similarity v w = Main.cosine_similarity w v /\
  Service.cosine_similarity v w = Service.cosine_similarity w v.
Proof.
  split.
  - rewrite !main_cosine_value, (zip_dot_comm v w).
    destruct (Req_dec_T (l2_norm v) 0); destruct (Req_dec_T (l2_norm w) 0);
      try reflexivity.
    do 2 f_equal. ring.
  - unfold Service.cosine_similarity, np_dot.
    rewrite (Nat.eqb_sym (length w) (length v)), (zip_dot_comm v w).
    destruct (Nat.eqb (length v) (length w)); [|reflexivity].
    destruct (Req_dec_T (l2_norm v) 0); destruct (Req_dec_T (l2_norm w) 0);
      try reflexivity.
    f_equal. ring.
Qed.

End CosineSymmetry.

(** ** The hashing embedding: token order, degenerate dimensions *)

Section HashingMore.
Variable hash : string -> Z.

Lemma bucket_count_perm (dim : Z) (t1 t2 : list string) (i : nat) :
  Permutation t1 t2 ->
  HashingSpec.bucket_count hash dim t1 i = HashingSpec.bucket_count hash dim t2 i.
Proof.
  intros Hp. unfold HashingSpec.bucket_count.
  induction Hp as [|x l l' _ IH|x y l|l l' l'' _ IH1 _ IH2]; simpl.
  - reflexivity.
  - destruct (hash x mod dim =? Z.of_nat i)%Z; simpl; now rewrite IH.
  - destruct (hash x mod dim =? Z.of_nat i)%Z;
      destruct (hash y mod dim =? Z.of_nat i)%Z; reflexivity.
  - now rewrite IH1.
Qed.

Lemma histogram_perm (dim : Z) (t1 t2 : list string) :
  Permutation t1 t2 ->
  HashingSpec.histogram hash dim t1 = HashingSpec.histogram hash dim t2.
Proof.
  intros Hp. unfold HashingSpec.histogram.
  apply list_fmap_ext. intros _ i _. f_equal. now apply bucket_count_perm.
Qed.

(** With a dimension of zero or less, the loop raises on the first token
    ([ZeroDivisionError] or [IndexError]); without tokens the result is the
    empty vector. *)
Lemma accumulate_nonpositive_dim (dim : Z) (tokens : list string) :
  (dim <= 0)%Z ->
  Main.accumulate hash dim (replicate (Z.to_nat dim) 0) tokens
  = match tokens with [] => Some [] | _ => None end.
Proof.
  intros Hdim. replace (Z.to_nat dim) with 0%nat by lia.
  destruct tokens as [|token rest]; [reflexivity|].
  cbn [Main.accumulate]. unfold Main.bump, py_mod.
  destruct (Z.eqb_spec dim 0) as [E|E]; [reflexivity|].
  cbn [mbind option_bind]. unfold py_index. cbn [length replicate].
  assert (Hm : (dim < hash token mod dim <= 0)%Z)
    by (apply Z.mod_neg_bound; lia).
  destruct (Z.leb_spec 0 (hash token mod dim)).
  - destruct (Z.ltb_spec (hash token mod dim) (Z.of_nat 0)); [lia|reflexivity].
  - destruct (Z.leb_spec (- Z.of_nat 0) (hash token mod dim)); [lia|reflexivity].
Qed.

Lemma l2_normalize_nil : Main.l2_normalize [] = [].
Proof.
  unfold Main.l2_normalize.
  destruct (Rlt_dec 0 (l2_norm [])); reflexivity.
Qed.

End HashingMore.

Section HashingClaims.
Variable hash : string -> Z.

Lemma text_to_vector_nonpositive (text : string) (dim : Z) :
  (dim <= 0)%Z ->
  Main.text_to_vector hash text dim
  = match py_split text with [] => Some [] | _ => None end.
Proof.
  intros Hdim. unfold Main.text_to_vector.
  rewrite accumulate_nonpositive_dim by assumption.
  destruct (py_split text); [|reflexivity].
  cbn [mbind option_bind]. now rewrite l2_normalize_nil.
Qed.

(** The embedding is a bag of words: two texts whose tokens are the same up
    to order (and so up to the amount of whitespace) get the same vector,
    for every dimension. *)
Theorem text_to_vector_token_order (t1 t2 : string) (dim : Z) :
  Permutation (py_split t1) (py_split t2) ->
  Main.text_to_vector hash t1 dim = Main.text_to_vector hash t2 dim.
Proof.
  intros Hp. destruct (Z.lt_ge_cases 0 dim) as [Hpos|Hneg].
  - rewrite !text_to_vector_embed by assumption.
    unfold HashingSpec.embed. now rewrite (histogram_perm hash dim _ _ Hp).
  - rewrite !text_to_vector_nonpositive by assumption.
    destruct (py_split t1) as [|a l1]; destruct (py_split t2) as [|b l2];
      try reflexivity.
    + apply Permutation_nil in Hp. discriminate.
    + symmetry in Hp. apply Permutation_nil in Hp. discriminate.
Qed.

End HashingClaims.

Lemma text_to_vector_token_order_witness :
  Permutation (py_split "hotel booking") (py_split " booking   hotel") /\
  Main.text_to_vector length_hash "hotel booking" Main.DIM
  = Main.text_to_vector length_hash " booking   hotel" Main.DIM.
Proof.
  assert (H : Permutation (py_split "hotel booking") (py_split " booking   hotel"))
    by apply perm_swap.
  split; [exact H|].
  exact (text_to_vector_token_order length_hash "hotel booking" " booking   hotel" Main.DIM H).
Defined.


(** With a dimension of zero or less, [text_to_vector] returns the empty
    vector for a text without tokens and raises for any text with a token
    ([ZeroDivisionError] on [% 0], [IndexError] on the empty list). *)
Theorem text_to_vector_degenerate_dim (hash : string -> Z) (text : string)
    (dim : Z) :
  (dim <= 0)%Z ->
  (py_split text = [] -> Main.text_to_vector hash text dim = Some []) /\
  (py_split text <> [] -> Main.text_to_vector hash text dim = None).
Proof.
  intros Hdim. rewrite text_to_vector_nonpositive by assumption.
  split.
  - now intros ->.
  - destruct (py_split text); [contradiction|reflexivity].
Qed.

Lemma text_to_vector_degenerate_dim_witness :
  (0 <= 0)%Z /\
  Main.text_to_vector length_hash "   " 0 = Some [] /\
  Main.text_to_vector length_hash "hotel" 0 = None /\
  Main.text_to_vector length_hash "hotel" (-4) = None.
Proof.
  split; [reflexivity|].
  destruct (text_to_vector_degenerate_dim length_hash "   " 0 ltac:(reflexivity))
    as [Hempty _].
  destruct (text_to_vector_degenerate_dim length_hash "hotel" 0 ltac:(reflexivity))
    as [_ Hzero].
  destruct (text_to_vector_degenerate_dim length_hash "hotel" (-4) ltac:(discriminate))
    as [_ Hneg].
  split; [apply Hempty; reflexivity|].
  split; [apply Hzero; discriminate | apply Hneg; discriminate].
Defined.

(** ** Requests without a reference *)

Lemma eligible_no_reference (req : Main.SearchSimilarRequest)
    (rows : list Main.row) :
  nonempty (Main.summary_id req) = None ->
  Main.eligible req rows = Main.get_all_embeddings rows.
Proof.
  intros Hs. unfold Main.eligible.
  induction (Main.get_all_embeddings rows) as [|c l IH]; [reflexivity|].
  cbn [List.filter]. unfold Main.is_self at 1. rewrite Hs. cbn [negb].
  now rewrite IH.
Qed.

(** ** A text query that also names a summary *)

Section TextAndReference.
Variable hash : string -> Z.

Lemma eligible_reference (req : Main.SearchSimilarRequest) (sid : string)
    (rows : list Main.row) :
  nonempty (Main.summary_id req) = Some sid ->
  Main.eligible req rows
  = Main.get_all_embeddings (without_key Main.key ("summary", sid) rows).
Proof.
  intros Hs. unfold Main.eligible, without_key.
  induction rows as [|r rows IH]; [reflexivity|].
  rewrite filter_cons. cbn [Main.get_all_embeddings].
  assert (Hself : Main.is_self req (Main.item_type r) (Main.item_id r)
                  = bool_decide (Main.key r = ("summary", sid))).
  { unfold Main.is_self, Main.key. rewrite Hs.
    destruct (String.eqb_spec (Main.item_type r) "summary") as [-> | Ht];
      destruct (String.eqb_spec (Main.item_id r) sid) as [-> | Hi];
      cbn [andb]; symmetry;
      first [ now apply bool_decide_eq_true_2
            | apply bool_decide_eq_false_2; congruence ]. }
  destruct (decide (Main.key r <> ("summary", sid))) as [Hne | Heq].
  - cbn [Main.get_all_embeddings].
    destruct (json_loads (Main.vector_blob r)) as [v|]; [|exact IH].
    cbn [List.filter fst snd]. rewrite Hself.
    rewrite bool_decide_eq_false_2 by assumption. cbn [negb]. now rewrite IH.
  - destruct (json_loads (Main.vector_blob r)) as [v|]; [|exact IH].
    cbn [List.filter fst snd]. rewrite Hself.
    rewrite bool_decide_eq_true_2 by (now apply dec_stable). cbn [negb].
    exact IH.
Qed.

(** A request that carries both a text and a summary id is answered from the
    text, with the referenced summary left out: the response is that of the
    text-only request on the table without the row of that summary. *)
Theorem search_text_and_reference (rows : list Main.row)
    (message sid : string) (k : Z) :
  message <> EmptyString -> sid <> EmptyString ->
  Main.api_search_similar hash rows
    {| Main.summary_id := Some sid; Main.message_text := Some message;
       Main.top_k := k |}
  = Main.api_search_similar hash
      (without_key Main.key ("summary", sid) rows) (by_message message k).
Proof.
  intros Hm Hs.
  set (q := HashingSpec.embed hash Main.DIM message).
  rewrite (api_resolved hash _ (by_message message k) q)
    by now apply resolves_by_message.
  rewrite (api_resolved hash rows _ q).
  - rewrite !rank_closed.
    rewrite (eligible_reference _ sid), eligible_no_reference; [reflexivity| |].
    + reflexivity.
    + cbn [nonempty Main.summary_id].
      destruct (String.eqb_spec sid ""); [contradiction|reflexivity].
  - apply (Main.by_text _ _ _ _ message).
    + cbn [nonempty Main.message_text].
      destruct (String.eqb_spec message ""); [contradiction|reflexivity].
    + now apply text_to_vector_embed.
Qed.

End TextAndReference.

Lemma search_text_and_reference_witness :
  Main.api_search_similar length_hash sample_rows
    {| Main.summary_id := Some "s1"; Main.message_text := Some "hotel booking";
       Main.top_k := 3 |}
  = Main.api_search_similar length_hash
      (without_key Main.key ("summary", "s1") sample_rows)
      (by_message "hotel booking" 3).
Proof.
  apply (search_text_and_reference length_hash sample_rows
           "hotel booking" "s1" 3); discriminate.
Defined.

(** ** No item is returned twice *)

Section DistinctResults.

Lemma slice_sublist {A : Type} (l : list A) (k : Z) :
  py_slice_to l k `sublist_of` l.
Proof. unfold py_slice_to. destruct (0 <=? k)%Z; apply sublist_take. Qed.

Lemma list_filter_sublist {A : Type} (p : A -> bool) (l : list A) :
  List.filter p l `sublist_of` l.
Proof.
  induction l as [|x l IH]; [constructor|].
  cbn [List.filter]. destruct (p x); now constructor.
Qed.

Lemma main_candidate_keys (rows : list Main.row) :
  (fst <$> Main.get_all_embeddings rows) `sublist_of` (Main.key <$> rows).
Proof.
  induction rows as [|r rows IH]; [constructor|].
  cbn [Main.get_all_embeddings]. rewrite fmap_cons.
  destruct (json_loads (Main.vector_blob r)); [|now constructor].
  rewrite fmap_cons. now constructor.
Qed.

Lemma service_scored_keys (q : vector) (rows : list Service.row) :
  ((fun e => (Service.result_type e, Service.result_id e))
     <$> Service.score_all q rows) `sublist_of` (Service.key <$> rows).
Proof.
  induction rows as [|r rows IH]; [constructor|].
  cbn [Service.score_all]. rewrite fmap_cons. unfold Service.score_row.
  destruct (nonempty (Service.text_content r)); [|now constructor].
  destruct (json_loads (Service.vector_blob r)); [|now constructor].
  rewrite fmap_cons. now constructor.
Qed.

Lemma ranked_keys_distinct {A K : Type} (score : A -> R) (f : A -> K)
    (l : list A) (k : Z) :
  NoDup (f <$> l) -> NoDup (f <$> py_slice_to (sort_desc score l) k).
Proof.
  intros Hl.
  apply (sublist_NoDup _ (f <$> sort_desc score l)).
  - now rewrite (sort_desc_perm score l).
  - apply fmap_sublist, slice_sublist.
Qed.

(** Under the table's key constraint every search returns pairwise distinct
    items: no (item_type, item_id) occurs twice in a result list, in either
    implementation. *)
Theorem search_results_distinct :
  (forall (hash : string -> Z) (rows : list Main.row)
          (req : Main.SearchSimilarRequest),
      unique_keys Main.key rows ->
      NoDup ((fun x => (Main.related_type x, Main.related_id x))
               <$> Main.related_of (Main.api_search_similar hash rows req))) /\
  (forall (encode : string -> option vector) (rows : list Service.row)
          (g : rng) (query_text summary_id : option string) (k : Z),
      unique_keys Service.key rows ->
      NoDup ((fun e => (Service.result_type e, Service.result_id e))
               <$> (Service.search_similar_items encode rows g
                      query_text summary_id k).1)).
Proof.
  split.
  - intros hash rows req Hu.
    destruct (api_cases hash rows req) as [-> | [-> | [q Hq]]];
      [apply NoDup_nil_2 | apply NoDup_nil_2 |].
    rewrite (api_resolved hash _ _ q Hq), rank_closed. cbn [Main.related_of].
    rewrite <- list_fmap_compose.
    apply (ranked_keys_distinct snd
             (fun x => (Main.related_type (Main.to_related x),
                        Main.related_id (Main.to_related x)))).
    rewrite <- list_fmap_compose.
    apply (sublist_NoDup _ (Main.key <$> rows)); [exact Hu|].
    transitivity (fst <$> Main.get_all_embeddings rows);
      [|apply main_candidate_keys].
    rewrite (list_fmap_ext _ fst (Main.eligible req rows))
      by now intros i [[t j] v] _.
    apply fmap_sublist, list_filter_sublist.
  - intros encode rows g query_text summary_id k Hu.
    destruct (service_cases encode rows g query_text summary_id k)
      as [-> | (q & g' & Hq)]; [apply NoDup_nil_2|].
    rewrite (service_resolved encode _ _ _ _ _ _ k Hq). cbn [fst].
    unfold Service.rank. apply ranked_keys_distinct.
    apply (sublist_NoDup _ (Service.key <$> rows)); [exact Hu|].
    apply service_scored_keys.
Qed.

End DistinctResults.

Lemma sample_rows_unique : unique_keys Main.key sample_rows.
Proof.
  unfold unique_keys. apply NoDup_ListNoDup.
  repeat constructor; cbn; intuition discriminate.
Qed.

Lemma search_results_distinct_witness :
  unique_keys Main.key sample_rows /\
  NoDup ((fun x => (Main.related_type x, Main.related_id x))
           <$> Main.related_of
                 (Main.api_search_similar length_hash sample_rows
                    (by_message "hotel booking" 3))).
Proof.
  split; [exact sample_rows_unique|].
  exact (proj1 search_results_distinct length_hash sample_rows
           (by_message "hotel booking" 3) sample_rows_unique).
Defined.

(** ** A query without tokens *)

Section NoTokens.
Variable hash : string -> Z.





End NoTokens.


(** ** The service with a [top_k] of zero or less *)

Section ServiceSlice.
Variable encode : string -> option vector.

Lemma slice_length_negative {A : Type} (k : Z) (l : list A) :
  (k < 0)%Z -> length (py_slice_to l k) = (length l - Z.to_nat (- k))%nat.
Proof.
  intros Hk. unfold py_slice_to.
  destruct (Z.leb_spec 0 k); [lia|].
  rewrite length_firstn. lia.
Qed.

(** [similarities[:top_k]] is not guarded in the service: with [top_k = 0]
    every search returns the empty list, and with a negative [top_k] a search
    that reaches the ranking drops the [-top_k] lowest-ranked entries, so it
    returns [eligible - (-top_k)] results (none when that is negative). *)
Theorem service_search_nonpositive_top_k (rows : list Service.row) (g : rng)
    (query_text summary_id : option string) :
  (Service.search_similar_items encode rows g query_text summary_id 0).1 = [] /\
  forall (k : Z) (q : vector) (g' : rng),
    (k < 0)%Z ->
    Service.resolves encode rows g query_text summary_id q g' ->
    length (Service.search_similar_items encode rows g
              query_text summary_id k).1
    = (length (Service.eligible rows) - Z.to_nat (- k))%nat.
Proof.
  split.
  - destruct (service_cases encode rows g query_text summary_id 0)
      as [-> | (q & g' & Hq)]; [reflexivity|].
    now rewrite (service_resolved encode _ _ _ _ _ _ 0 Hq).
  - intros k q g' Hk Hq.
    rewrite (service_resolved encode _ _ _ _ _ _ k Hq). cbn [fst].
    unfold Service.rank.
    now rewrite slice_length_negative, sort_desc_length,
      service_score_all_length.
Qed.

End ServiceSlice.

Lemma service_search_nonpositive_top_k_witness :
  length (Service.search_similar_items sample_encode service_rows sample_rng
            (Some "hotel") None (-1)).1
  = 2%nat.
Proof.
  exact (proj2 (service_search_nonpositive_top_k sample_encode service_rows
                  sample_rng (Some "hotel") None)
               (-1)%Z [INR 5; 1] sample_rng eq_refl
               (Service.by_text sample_encode service_rows sample_rng
                  (Some "hotel") None [INR 5; 1] sample_rng "hotel"
                  eq_refl eq_refl)).
Defined.

(** ** The text shown with a result *)

Section ResultText.
Variable encode : string -> option vector.

Lemma length_append (s t : string) :
  String.length (s ++ t) = (String.length s + String.length t)%nat.
Proof.
  induction s as [|c s IH]; [reflexivity|].
  rewrite append_cons. cbn [String.length]. now rewrite IH.
Qed.

Lemma length_substring_0 (m : nat) (s : string) :
  String.length (substring 0 m s) = Nat.min m (String.length s).
Proof.
  revert s. induction m as [|m IH]; intros [|c s]; cbn; try reflexivity.
  now rewrite IH.
Qed.

Lemma truncate_length (n : nat) (s : string) :
  s <> EmptyString ->
  (1 <= String.length (truncate n s) <= n + 3)%nat.
Proof.
  intros Hs. unfold truncate.
  assert (1 <= String.length s)%nat
    by (destruct s; [contradiction | cbn; lia]).
  destruct (Nat.ltb_spec n (String.length s)).
  - rewrite length_append, length_substring_0.
    change (String.length "...") with 3%nat. lia.
  - lia.
Qed.

Lemma nonempty_some (o : option string) (s : string) :
  nonempty o = Some s -> o = Some s /\ s <> EmptyString.
Proof.
  destruct o as [s'|]; [|discriminate]. cbn [nonempty].
  destruct (String.eqb_spec s' ""); [discriminate|].
  intros [= ->]. now split.
Qed.

Lemma service_scored_text (q : vector) (rows : list Service.row)
    (e : Service.result) :
  In e (Service.score_all q rows) ->
  exists r content,
    In r rows /\
    Service.key r = (Service.result_type e, Service.result_id e) /\
    Service.text_content r = Some content /\ content <> EmptyString /\
    Service.text e = truncate 200 content.
Proof.
  induction rows as [|r rows IH]; cbn [Service.score_all]; [contradiction|].
  unfold Service.score_row.
  destruct (nonempty (Service.text_content r)) as [content|] eqn:Hc.
  - destruct (json_loads (Service.vector_blob r)) as [v|].
    + intros [<- | Hin].
      * apply nonempty_some in Hc as [Hc Hne].
        exists r, content. cbn. auto.
      * destruct (IH Hin) as (r' & c' & Hr' & H'). exists r', c'.
        split; [now right | exact H'].
    + intros Hin. destruct (IH Hin) as (r' & c' & Hr' & H'). exists r', c'.
      split; [now right | exact H'].
  - intros Hin. destruct (IH Hin) as (r' & c' & Hr' & H'). exists r', c'.
    split; [now right | exact H'].
Qed.

(** Every result of the service carries the stored text of its row, cut to
    200 characters with ["..."] appended when it is longer: the text shown is
    never empty and never longer than 203 characters. *)
Theorem service_result_text (rows : list Service.row) (g : rng)
    (query_text summary_id : option string) (k : Z) (e : Service.result) :
  In e (Service.search_similar_items encode rows g query_text summary_id k).1 ->
  (exists r content,
     In r rows /\
     Service.key r = (Service.result_type e, Service.result_id e) /\
     Service.text_content r = Some content /\
     Service.text e = truncate 200 content) /\
  (1 <= String.length (Service.text e) <= 203)%nat.
Proof.
  destruct (service_cases encode rows g query_text summary_id k)
    as [-> | (q & g' & Hq)]; [contradiction|].
  rewrite (service_resolved encode _ _ _ _ _ _ k Hq). cbn [fst].
  unfold Service.rank. intros Hin.
  apply slice_In, sort_desc_In, service_scored_text in Hin
    as (r & content & Hr & Hkey & Hc & Hne & Htext).
  split.
  - exists r, content. auto.
  - rewrite Htext. now apply (truncate_length 200).
Qed.

End ResultText.

Lemma service_result_text_witness :
  (1 <= String.length "hotel booking" <= 203)%nat.
Proof.
  refine (proj2 (service_result_text sample_encode
                   [service_row "summary" "s1" [1; 0] "hotel booking"]
                   sample_rng (Some "hotel") None 3
                   {| Service.result_type := "summary";
                      Service.result_id := "s1";
                      Service.score :=
                        Service.cosine_similarity [INR 5; 1] [1; 0];
                      Service.text := "hotel booking" |} _)).
  left. reflexivity.
Defined.

(** ** Reading back what was stored *)

Lemma fetchone_filter_other {row : Type} (key : row -> string * string)
    (k k' : string * string) (rows : list row) :
  k <> k' ->
  fetchone key k (filter (fun r => key r <> k') rows) = fetchone key k rows.
Proof.
  intros Hk. unfold fetchone.
  induction rows as [|r rows IH]; [reflexivity|].
  rewrite filter_cons. cbn [List.find].
  destruct (decide (key r <> k')) as [Hne | Heq].
  - cbn [List.find]. now rewrite IH.
  - rewrite bool_decide_eq_false_2; [exact IH|].
    intros E. apply Heq. congruence.
Qed.

Lemma fetchone_insert_other {row : Type} (key : row -> string * string)
    (new : row) (rows : list row) (k : string * string) :
  k <> key new ->
  fetchone key k (insert_or_replace key new rows) = fetchone key k rows.
Proof.
  intros Hk. unfold insert_or_replace.
  rewrite fetchone_app, fetchone_filter_other by assumption.
  destruct (fetchone key k rows); [reflexivity|].
  unfold fetchone. cbn [List.find].
  rewrite bool_decide_eq_false_2; [reflexivity | congruence].
Qed.

Lemma without_key_insert {row : Type} (key : row -> string * string)
    (new : row) (rows : list row) :
  without_key key (key new) (insert_or_replace key new rows)
  = without_key key (key new) rows.
Proof.
  unfold without_key, insert_or_replace. rewrite filter_app.
  rewrite (filter_singleton_False _ new []) by (intros H; now apply H).
  rewrite app_nil_r.
  induction rows as [|r rows IH]; [reflexivity|].
  rewrite filter_cons.
  destruct (decide (key r <> key new)) as [Hne | Heq]; [|exact IH].
  rewrite filter_cons. destruct (decide (key r <> key new)); [|contradiction].
  now rewrite IH.
Qed.

Lemma stored_vector_read_back (hash : string -> Z) (ts : string)
    (rows : list Main.row) (t i text : string) :
  Main.get_embedding (Main.store_embedding hash true ts rows t i text).2 t i
  = Some (HashingSpec.embed hash Main.DIM text).
Proof.
  rewrite main_store_ok. cbn [snd]. set (new := {| Main.item_type := t |}).
  unfold Main.get_embedding.
  change (t, i) with (Main.key new). now rewrite fetchone_insert.
Qed.

(** [get_embedding] reads back what [store_embedding] wrote: after a
    successful store the key yields the vector that [text_to_vector] computes
    for the text, every other key yields what it yielded before, and a store
    whose write fails reports [False] and leaves the table as it was. *)
Theorem store_then_get_embedding (hash : string -> Z) (ts : string)
    (rows : list Main.row) (t i text : string) :
  let rows' := (Main.store_embedding hash true ts rows t i text).2 in
  Main.get_embedding rows' t i = Main.text_to_vector hash text Main.DIM /\
  (forall t' i' : string,
      (t', i') <> (t, i) ->
      Main.get_embedding rows' t' i' = Main.get_embedding rows t' i') /\
  Main.store_embedding hash false ts rows t i text = (false, rows).
Proof.
  cbv zeta. split; [|split].
  - rewrite stored_vector_read_back.
    now rewrite text_to_vector_embed by (unfold Main.DIM; lia).
  - intros t' i' Hne. rewrite main_store_ok. cbn [snd].
    unfold Main.get_embedding. now rewrite fetchone_insert_other.
  - apply main_store_failed.
Qed.

Lemma store_then_get_embedding_witness :
  Main.get_embedding
    (Main.store_embedding length_hash true "2024-01-03T00:00:00" sample_rows
       "task" "t1" "hotel booking").2 "summary" "s1"
  = Main.get_embedding sample_rows "summary" "s1".
Proof.
  apply (store_then_get_embedding length_hash "2024-01-03T00:00:00"
           sample_rows "task" "t1" "hotel booking").
  discriminate.
Defined.

(** A summary is stored by one process and searched for later, by
    reference and by its text, by processes that may have other hash seeds.
    The search by reference hashes nothing: it ranks by the stored vector.
    It returns what the search by the text returns on the other rows when
    the process that embeds the text agrees with the storing process on the
    embedding of that text, as it does when it is that process. *)
Theorem search_by_reference_after_store
    (hash_store hash_reference hash_text : string -> Z) (ts : string)
    (rows : list Main.row) (sid text : string) (k : Z) :
  sid <> EmptyString -> text <> EmptyString ->
  Main.text_to_vector hash_text text Main.DIM
    = Main.text_to_vector hash_store text Main.DIM ->
  Main.api_search_similar hash_reference
    (Main.store_embedding hash_store true ts rows "summary" sid text).2
    (by_summary sid k)
  = Main.api_search_similar hash_text
      (without_key Main.key ("summary", sid) rows) (by_message text k).
Proof.
  intros Hs Ht Hsame.
  set (q := HashingSpec.embed hash_store Main.DIM text).
  assert (Hq : Main.resolves hash_text
                 (without_key Main.key ("summary", sid) rows)
                 (by_message text k) q).
  { apply (Main.by_text _ _ _ _ text).
    - cbn [by_message Main.message_text nonempty].
      destruct (String.eqb_spec text ""); [contradiction|reflexivity].
    - rewrite Hsame. apply text_to_vector_embed. unfold Main.DIM. lia. }
  rewrite (api_resolved hash_text _ (by_message text k) q Hq).
  assert (Hsid : nonempty (Some sid) = Some sid).
  { cbn [nonempty]. destruct (String.eqb_spec sid ""); [contradiction|reflexivity]. }
  rewrite (api_resolved hash_reference _ (by_summary sid k) q).
  - rewrite !rank_closed.
    rewrite (eligible_reference _ sid) by exact Hsid.
    rewrite eligible_no_reference by reflexivity.
    rewrite main_store_ok. cbn [snd].
    set (new := {| Main.item_type := "summary" |}).
    change ("summary", sid) with (Main.key new).
    now rewrite without_key_insert.
  - apply (Main.by_reference _ _ _ _ sid); [reflexivity | exact Hsid |].
    apply stored_vector_read_back.
Qed.

Lemma search_by_reference_after_store_witness :
  Main.api_search_similar hash_of_second_process
    (Main.store_embedding hash_of_first_process true "2024-01-03T00:00:00"
       sample_rows "summary" "s7" "hotel booking").2
    (by_summary "s7" 3)
  = Main.api_search_similar hash_of_first_process
      (without_key Main.key ("summary", "s7") sample_rows)
      (by_message "hotel booking" 3).
Proof.
  apply (search_by_reference_after_store hash_of_first_process
           hash_of_second_process hash_of_first_process
           "2024-01-03T00:00:00" sample_rows "s7" "hotel booking" 3);
    [discriminate | discriminate | reflexivity].
Defined.

(** ** The service re-embeds the text of a referenced summary *)

Section ServiceReference.
Variable encode : string -> option vector.

(** The service keeps the text beside the vector and, for a search by
    summary id, embeds that text again instead of reading the stored vector:
    once a non-empty text is stored under a summary id, searching by that id
    is searching by that text, draw for draw of the random generator. *)
Theorem service_search_by_reference_after_store (ts : string)
    (rows : list Service.row) (g0 g : rng) (sid text : string) (k : Z) :
  sid <> EmptyString -> text <> EmptyString ->
  let rows' :=
    (Service.store_embedding encode true ts rows g0 "summary" sid text).1.2 in
  Service.search_similar_items encode rows' g None (Some sid) k
  = Service.search_similar_items encode rows' g (Some text) None k.
Proof.
  intros Hs Ht. cbv zeta. rewrite service_store_eq. cbn [fst snd].
  set (new := {| Service.item_type := "summary" |}).
  unfold Service.search_similar_items.
  cbn [nonempty].
  destruct (String.eqb_spec sid ""); [contradiction|].
  destruct (String.eqb_spec text ""); [contradiction|].
  change ("summary", sid) with (Service.key new).
  rewrite fetchone_insert.
  change (Service.text_content new) with (Some text). cbn [nonempty].
  destruct (String.eqb_spec text ""); [contradiction|]. reflexivity.
Qed.

End ServiceReference.

Lemma service_search_by_reference_after_store_witness :
  Service.search_similar_items sample_encode
    (Service.store_embedding sample_encode true "2024-01-03T00:00:00"
       service_rows sample_rng "summary" "s7" "hotel booking").1.2
    sample_rng None (Some "s7") 3
  = Service.search_similar_items sample_encode
      (Service.store_embedding sample_encode true "2024-01-03T00:00:00"
         service_rows sample_rng "summary" "s7" "hotel booking").1.2
      sample_rng (Some "hotel booking") None 3.
Proof.
  apply (service_search_by_reference_after_store sample_encode
           "2024-01-03T00:00:00" service_rows sample_rng sample_rng
           "s7" "hotel booking" 3); discriminate.
Defined.

(** ** Indexing what has no embedding yet *)

Section IndexingFacts.
Variable encode : string -> option vector.

Lemma index_loop_cons (t : string) (s : string * string)
    (rest : list (string * string)) (e : Indexing.outcomes)
    (rows : list Service.row) (g : rng) (c : nat) :
  Indexing.index_loop encode t (s :: rest) e rows g c
  = Indexing.index_loop encode t rest (Indexing.next e)
      (Service.store_embedding encode (e 0%nat).1 (e 0%nat).2 rows g
         t s.1 s.2).1.2
      (Service.store_embedding encode (e 0%nat).1 (e 0%nat).2 rows g
         t s.1 s.2).2
      (if (e 0%nat).1 then S c else c).
Proof.
  destruct s as [item_id text]. cbn [Indexing.index_loop fst snd].
  rewrite service_store_eq. reflexivity.
Qed.

Lemma successes_step (e : Indexing.outcomes) (n : nat) :
  length (List.filter (fun i => (e i).1) (seq 0 (S n)))
  = ((if (e 0%nat).1 then 1 else 0)
     + length (List.filter (fun i => (Indexing.next e i).1) (seq 0 n)))%nat.
Proof.
  cbn [seq List.filter]. rewrite <- seq_shift.
  assert (Hshift : forall l : list nat,
             List.filter (fun i => (e i).1) (map S l)
             = map S (List.filter (fun i => (Indexing.next e i).1) l)).
  { induction l as [|i l IH]; [reflexivity|].
    cbn [map List.filter]. unfold Indexing.next at 1.
    destruct ((e (S i)).1); cbn [map]; now rewrite IH. }
  rewrite Hshift.
  destruct ((e 0%nat).1); cbn [length]; now rewrite length_map.
Qed.

Lemma index_loop_count (t : string) (todo : list (string * string))
    (e : Indexing.outcomes) (rows : list Service.row) (g : rng) (c : nat) :
  (Indexing.index_loop encode t todo e rows g c).1.1
  = (c + length (List.filter (fun i => (e i).1) (seq 0 (length todo))))%nat.
Proof.
  revert e rows g c.
  induction todo as [|s rest IH]; intros e rows g c.
  - cbn. lia.
  - rewrite index_loop_cons, IH. cbn [length]. rewrite successes_step.
    destruct ((e 0%nat).1); lia.
Qed.

Lemma filter_length_le {A : Type} (p : A -> bool) (l : list A) :
  (length (List.filter p l) <= length l)%nat.
Proof.
  induction l as [|x l IH]; [cbn; lia|].
  cbn [List.filter]. destruct (p x); cbn [length]; lia.
Qed.

Lemma filter_all {A : Type} (p : A -> bool) (l : list A) :
  (forall x, In x l -> p x = true) -> List.filter p l = l.
Proof.
  induction l as [|x l IH]; intros Hl; [reflexivity|].
  cbn [List.filter]. rewrite (Hl x) by now left.
  rewrite IH; [reflexivity|]. intros y Hy. apply Hl. now right.
Qed.

Lemma filter_none {A : Type} (p : A -> bool) (l : list A) :
  (forall x, In x l -> p x = false) -> List.filter p l = [].
Proof.
  induction l as [|x l IH]; intros Hl; [reflexivity|].
  cbn [List.filter]. rewrite (Hl x) by now left.
  apply IH. intros y Hy. apply Hl. now right.
Qed.

Lemma index_existing_all_ok (t : string) (items : list (string * string))
    (e : Indexing.outcomes) (rows : list Service.row) (g : rng) :
  (forall i, (i < length (Indexing.unindexed t items rows))%nat ->
             (e i).1 = true) ->
  (Indexing.index_existing encode t items e rows g).1.1
  = length (Indexing.unindexed t items rows).
Proof.
  intros Hok. unfold Indexing.index_existing. rewrite index_loop_count.
  cbn [Nat.add]. rewrite filter_all; [now rewrite length_seq|].
  intros i Hi. apply in_seq in Hi. apply Hok. lia.
Qed.

(** The count that an indexing pass returns is the number of writes that
    went through among the calls it made, one call per item without an
    embedding: never more than the number of such items, and all of them
    when every write goes through. *)
Theorem index_existing_count (t : string) (items : list (string * string))
    (e : Indexing.outcomes) (rows : list Service.row) (g : rng) :
  let todo := Indexing.unindexed t items rows in
  let count := (Indexing.index_existing encode t items e rows g).1.1 in
  count = length (List.filter (fun i => (e i).1) (seq 0 (length todo))) /\
  (count <= length todo <= length items)%nat /\
  ((forall i, (i < length todo)%nat -> (e i).1 = true) ->
   count = length todo).
Proof.
  cbv zeta. unfold Indexing.index_existing. rewrite index_loop_count.
  cbn [Nat.add]. split; [reflexivity|]. split; [split|].
  - etransitivity; [apply filter_length_le|]. now rewrite length_seq.
  - apply filter_length_le.
  - intros Hok. rewrite filter_all; [now rewrite length_seq|].
    intros i Hi. apply in_seq in Hi. apply Hok. lia.
Qed.

Lemma fetchone_none_filter {row : Type} (key : row -> string * string)
    (k : string * string) (rows : list row) :
  fetchone key k rows = None -> filter (fun r => key r <> k) rows = rows.
Proof.
  unfold fetchone. induction rows as [|r rows IH]; [reflexivity|].
  cbn [List.find]. rewrite filter_cons.
  destruct (bool_decide_reflect (key r = k)) as [E | Hne]; [discriminate|].
  intros Hnone. destruct (decide (key r <> k)); [|contradiction].
  now rewrite IH.
Qed.

Lemma insert_after_absent {row : Type} (key : row -> string * string)
    (new : row) (rows added : list row) :
  fetchone key (key new) rows = None ->
  insert_or_replace key new (rows ++ added)
  = rows ++ insert_or_replace key new added.
Proof.
  intros Habs. unfold insert_or_replace.
  rewrite filter_app, fetchone_none_filter by assumption.
  now rewrite <- app_assoc.
Qed.

Lemma index_loop_appends (t : string) (rows0 : list Service.row)
    (todo : list (string * string)) :
  forall (all : list (string * string)) (e : Indexing.outcomes)
         (added : list Service.row) (g : rng) (c : nat),
    (forall s, In s todo -> In s all) ->
    (forall s, In s all -> fetchone Service.key (t, s.1) rows0 = None) ->
    (forall r, In r added -> added_by t all r) ->
    exists added',
      (Indexing.index_loop encode t todo e (rows0 ++ added) g c).1.2
      = rows0 ++ added' /\
      forall r, In r added' -> added_by t all r.
Proof.
  induction todo as [|s rest IH]; intros all e added g c Hsub Habs Hadded.
  - exists added. split; [reflexivity | exact Hadded].
  - rewrite index_loop_cons, service_store_eq. cbn [fst snd].
    destruct ((e 0%nat).1).
    + set (new := {| Service.item_type := t; Service.item_id := s.1 |}).
      rewrite insert_after_absent
        by (apply (Habs s), Hsub; now left).
      apply IH; [intros s' Hs'; apply Hsub; now right | exact Habs |].
      intros r Hr. unfold insert_or_replace in Hr.
      apply in_app_or in Hr as [Hr | [<- | []]].
      * apply Hadded. apply list_elem_of_In.
        apply list_elem_of_In in Hr.
        now apply list_elem_of_filter in Hr as [_ Hr].
      * split; [reflexivity|]. exists s.2. split; [|reflexivity].
        cbn [Service.item_id new]. destruct s. apply Hsub. now left.
    + apply IH; [intros s' Hs'; apply Hsub; now right | exact Habs | exact Hadded].
Qed.

Lemma index_existing_appends (t : string) (items : list (string * string))
    (e : Indexing.outcomes) (rows : list Service.row) (g : rng) :
  exists added,
    (Indexing.index_existing encode t items e rows g).1.2 = rows ++ added /\
    forall r, In r added -> added_by t (Indexing.unindexed t items rows) r.
Proof.
  unfold Indexing.index_existing.
  destruct (index_loop_appends t rows (Indexing.unindexed t items rows)
              (Indexing.unindexed t items rows) e [] g 0%nat)
    as (added & Hrows & Hadded).
  - auto.
  - intros s Hs. apply filter_In in Hs as [_ Hs].
    now destruct (fetchone Service.key (t, s.1) rows).
  - intros r [].
  - rewrite app_nil_r in Hrows. now exists added.
Qed.

(** An indexing pass leaves every existing row of [embeddings] where it is:
    the table afterwards is the table before followed by the rows the pass
    added, each of them for an item that had no embedding. *)
Theorem index_existing_keeps_rows (t : string) (items : list (string * string))
    (e : Indexing.outcomes) (rows : list Service.row) (g : rng) :
  exists added,
    (Indexing.index_existing encode t items e rows g).1.2 = rows ++ added /\
    forall r, In r added ->
      Service.item_type r = t /\
      fetchone Service.key (t, Service.item_id r) rows = None /\
      exists text, In (Service.item_id r, text) items /\
                   Service.text_content r = Some text.
Proof.
  destruct (index_existing_appends t items e rows g)
    as (added & Hrows & Hadded).
  exists added. split; [exact Hrows|].
  intros r Hr. destruct (Hadded r Hr) as (Ht & text & Hin & Htext).
  apply filter_In in Hin as [Hin Habs]. cbn [fst] in Habs.
  split; [exact Ht|]. split.
  - now destruct (fetchone Service.key (t, Service.item_id r) rows).
  - now exists text.
Qed.

Lemma index_loop_present (t : string) (todo : list (string * string)) :
  forall (e : Indexing.outcomes) (rows : list Service.row) (g : rng)
         (c : nat) (k : string * string),
    (forall i, (i < length todo)%nat -> (e i).1 = true) ->
    fetchone Service.key k rows <> None \/
      (exists s, In s todo /\ k = (t, s.1)) ->
    fetchone Service.key k
      (Indexing.index_loop encode t todo e rows g c).1.2 <> None.
Proof.
  induction todo as [|s rest IH]; intros e rows g c k Hok Hk.
  - destruct Hk as [Hk | (s & [] & _)]. exact Hk.
  - rewrite index_loop_cons, service_store_eq. cbn [fst snd].
    rewrite (Hok 0%nat) by (cbn; lia).
    set (new := {| Service.item_type := t; Service.item_id := s.1 |}).
    apply IH.
    + intros i Hi. unfold Indexing.next. apply Hok. cbn [length]. lia.
    + destruct (decide (k = Service.key new)) as [-> | Hne].
      * left. now rewrite fetchone_insert.
      * rewrite fetchone_insert_other by assumption.
        destruct Hk as [Hk | (s' & [<- | Hs'] & ->)].
        -- now left.
        -- now destruct Hne.
        -- right. now exists s'.
Qed.

Lemma index_existing_all_present (t : string) (items : list (string * string))
    (e : Indexing.outcomes) (rows : list Service.row) (g : rng) :
  (forall i, (i < length (Indexing.unindexed t items rows))%nat ->
             (e i).1 = true) ->
  Indexing.unindexed t items
    (Indexing.index_existing encode t items e rows g).1.2 = [].
Proof.
  intros Hok. unfold Indexing.unindexed at 1. apply filter_none.
  intros s Hs.
  assert (Hp : fetchone Service.key (t, s.1)
                 (Indexing.index_existing encode t items e rows g).1.2
               <> None).
  { unfold Indexing.index_existing.
    apply index_loop_present; [exact Hok|].
    destruct (fetchone Service.key (t, s.1) rows) eqn:Hf; [now left|].
    right. exists s. split; [|reflexivity].
    apply filter_In. split; [exact Hs|]. now rewrite Hf. }
  now destruct (fetchone Service.key (t, s.1) _).
Qed.

(** When every write goes through, one pass indexes everything: afterwards
    no item is left without an embedding, and a second pass makes no call,
    returns 0 and leaves the table and the random generator as they are. *)
Theorem index_existing_complete (t : string) (items : list (string * string))
    (e : Indexing.outcomes) (rows : list Service.row) (g : rng) :
  (forall i, (i < length (Indexing.unindexed t items rows))%nat ->
             (e i).1 = true) ->
  let rows' := (Indexing.index_existing encode t items e rows g).1.2 in
  Indexing.unindexed t items rows' = [] /\
  forall (e2 : Indexing.outcomes) (g2 : rng),
    Indexing.index_existing encode t items e2 rows' g2 = (0%nat, rows', g2).
Proof.
  intros Hok rows'.
  pose proof (index_existing_all_present t items e rows g Hok) as Hnone.
  fold rows' in Hnone. split; [exact Hnone|].
  intros e2 g2. unfold Indexing.index_existing. now rewrite Hnone.
Qed.

End IndexingFacts.

Lemma index_existing_count_witness :
  (Indexing.index_existing_summaries sample_encode sample_summaries
     all_writes_ok service_rows sample_rng).1.1 = 1%nat.
Proof.
  exact (proj2 (proj2 (index_existing_count sample_encode "summary"
                         sample_summaries all_writes_ok service_rows
                         sample_rng))
               (fun _ _ => eq_refl)).
Defined.

Lemma index_existing_complete_witness :
  Indexing.unindexed "summary" sample_summaries
    (Indexing.index_existing_summaries sample_encode sample_summaries
       all_writes_ok service_rows sample_rng).1.2 = [].
Proof.
  exact (proj1 (index_existing_complete sample_encode "summary"
                  sample_summaries all_writes_ok service_rows sample_rng
                  (fun _ _ => eq_refl))).
Defined.

(** ** The endpoints in front of the service *)

Section ChandreshFacts.
Variable encode : string -> option vector.

Lemma store_attempts_succ (n : nat) (e : Indexing.outcomes)
    (rows : list Service.row) (g : rng) (t i text : string) :
  Chandresh.store_attempts encode (S n) e rows g t i text
  = if (e 0%nat).1 then
      (Chandresh.Stored ("Embedding stored for " ++ t ++ " " ++ i)%string,
       insert_or_replace Service.key
         {| Service.item_type := t; Service.item_id := i;
            Service.vector_blob :=
              json_dumps (Service.generate_embedding encode text g).1;
            Service.timestamp := (e 0%nat).2;
            Service.text_content := Some text |} rows,
       (Service.generate_embedding encode text g).2)
    else
      Chandresh.store_attempts encode n (Indexing.next e) rows
        (Service.generate_embedding encode text g).2 t i text.
Proof.
  cbn [Chandresh.store_attempts]. rewrite service_store_eq.
  now destruct ((e 0%nat).1).
Qed.

Lemma store_attempts_success (n : nat) :
  forall (e : Indexing.outcomes) (rows : list Service.row) (g : rng)
         (t i text : string) (k : nat),
    (k < n)%nat -> (e k).1 = true ->
    (Chandresh.store_attempts encode n e rows g t i text).1.1
    = Chandresh.Stored ("Embedding stored for " ++ t ++ " " ++ i)%string /\
    exists r,
      fetchone Service.key (t, i)
        (Chandresh.store_attempts encode n e rows g t i text).1.2 = Some r /\
      Service.text_content r = Some text.
Proof.
  induction n as [|n IH]; intros e rows g t i text k Hk Hok; [lia|].
  rewrite store_attempts_succ.
  destruct ((e 0%nat).1) eqn:H0.
  - cbn [fst snd]. split; [reflexivity|].
    set (new := {| Service.item_type := t |}).
    exists new. split; [|reflexivity].
    change (t, i) with (Service.key new). apply fetchone_insert.
  - destruct k as [|k]; [congruence|].
    apply (IH _ _ _ _ _ _ k); [lia | exact Hok].
Qed.

Lemma store_attempts_failure (n : nat) :
  forall (e : Indexing.outcomes) (rows : list Service.row) (g : rng)
         (t i text : string),
    (forall k, (k < n)%nat -> (e k).1 = false) ->
    (Chandresh.store_attempts encode n e rows g t i text).1
    = (Chandresh.StoreHTTP500, rows).
Proof.
  induction n as [|n IH]; intros e rows g t i text Hfail; [reflexivity|].
  rewrite store_attempts_succ, (Hfail 0%nat) by lia.
  apply IH. intros k Hk. unfold Indexing.next. apply Hfail. lia.
Qed.

Lemma store_attempts_unique (n : nat) :
  forall (e : Indexing.outcomes) (rows : list Service.row) (g : rng)
         (t i text : string),
    unique_keys Service.key rows ->
    unique_keys Service.key
      (Chandresh.store_attempts encode n e rows g t i text).1.2.
Proof.
  induction n as [|n IH]; intros e rows g t i text Hu; [exact Hu|].
  rewrite store_attempts_succ.
  destruct ((e 0%nat).1); [|now apply IH].
  cbn [fst snd]. now apply insert_or_replace_unique.
Qed.

(** [/api/store_embedding] rejects a call with an empty field without
    touching anything.  Otherwise it tries the store up to three times: it
    answers with success as soon as a write goes through, the key then
    holding the given text, and with a 500 when the three writes fail, the
    table then being as it was; the key constraint is kept either way. *)
Theorem chandresh_store_embedding_retries (e : Indexing.outcomes)
    (rows : list Service.row) (g : rng) (t i text : string) :
  let answer := Chandresh.store_embedding encode e rows g t i text in
  (t = EmptyString \/ i = EmptyString \/ text = EmptyString ->
   answer = (Chandresh.StoreHTTP400, rows, g)) /\
  (t <> EmptyString -> i <> EmptyString -> text <> EmptyString ->
   ((exists k, (k < 3)%nat /\ (e k).1 = true) ->
    answer.1.1
    = Chandresh.Stored ("Embedding stored for " ++ t ++ " " ++ i)%string /\
    exists r, fetchone Service.key (t, i) answer.1.2 = Some r /\
              Service.text_content r = Some text) /\
   ((forall k, (k < 3)%nat -> (e k).1 = false) ->
    answer.1 = (Chandresh.StoreHTTP500, rows)) /\
   (unique_keys Service.key rows -> unique_keys Service.key answer.1.2)).
Proof.
  cbv zeta. unfold Chandresh.store_embedding. split.
  - intros [-> | [-> | ->]]; cbn [String.eqb orb];
      rewrite ?orb_true_r; reflexivity.
  - intros Ht Hi Htext.
    destruct (String.eqb_spec t ""); [contradiction|].
    destruct (String.eqb_spec i ""); [contradiction|].
    destruct (String.eqb_spec text ""); [contradiction|].
    cbn [orb]. split; [|split].
    + intros (k & Hk & Hok).
      now apply (store_attempts_success Chandresh.MAX_RETRIES _ _ _ _ _ _ k).
    + apply store_attempts_failure.
    + apply store_attempts_unique.
Qed.

(** [/api/search_similar] rejects a request exactly when it has neither a
    summary id nor a text.  Its answers are ranked, [total_found] is the
    number of items returned and never exceeds a non-negative [top_k].  A
    summary id takes precedence over a text: when it names no stored
    summary the answer is empty, whatever the text is. *)
Theorem chandresh_search_similar (rows : list Service.row) (g : rng)
    (summary_id message_text : option string) (top_k : option Z) :
  let answer :=
    Chandresh.search_similar encode rows g summary_id message_text top_k in
  (answer.1 = Chandresh.SearchHTTP400 <->
   nonempty summary_id = None /\ nonempty message_text = None) /\
  (forall related query_type total_found,
      answer.1 = Chandresh.Found related query_type total_found ->
      total_found = length related /\
      ranked Service.score related /\
      ((0 <= default 3%Z top_k)%Z ->
       (total_found <= Z.to_nat (default 3%Z top_k))%nat)) /\
  (forall sid,
      nonempty summary_id = Some sid ->
      fetchone Service.key ("summary", sid) rows = None ->
      answer = (Chandresh.Found [] "summary_id" 0, g)).
Proof.
  cbv zeta. unfold Chandresh.search_similar.
  destruct (nonempty summary_id) as [sid|] eqn:Hs.
  - destruct (Service.search_similar_items encode rows g None (Some sid)
                (default 3%Z top_k)) as [items g'] eqn:Hsearch.
    cbn [fst]. split; [|split].
    + split; [discriminate | intros [? _]; discriminate].
    + intros related query_type total_found [= <- <- <-].
      split; [reflexivity|].
      pose proof (service_search_ranked encode rows g None (Some sid)
                    (default 3%Z top_k)) as Hr.
      pose proof (service_search_length_le encode rows g None (Some sid)
                    (default 3%Z top_k)) as Hl.
      rewrite Hsearch in Hr, Hl. cbn [fst] in Hr, Hl. now split.
    + intros sid' [= <-] Habs. revert Hsearch.
      unfold Service.search_similar_items.
      assert (Hsid : nonempty (Some sid) = Some sid).
      { destruct summary_id as [s|]; [|discriminate]. cbn [nonempty] in Hs |- *.
        destruct (String.eqb_spec s ""); [discriminate|].
        injection Hs as ->.
        destruct (String.eqb_spec sid ""); [contradiction|reflexivity]. }
      rewrite Hsid, Habs. cbn [nonempty]. now intros [= <- <-].
  - destruct (nonempty message_text) as [text|] eqn:Hm.
    + destruct (Service.search_similar_items encode rows g
                  (Some (default EmptyString message_text)) None
                  (default 3%Z top_k)) as [items g'] eqn:Hsearch.
      cbn [fst]. split; [|split].
      * split; [discriminate | intros [_ ?]; discriminate].
      * intros related query_type total_found [= <- <- <-].
        split; [reflexivity|].
        pose proof (service_search_ranked encode rows g
                      (Some (default EmptyString message_text)) None
                      (default 3%Z top_k)) as Hr.
        pose proof (service_search_length_le encode rows g
                      (Some (default EmptyString message_text)) None
                      (default 3%Z top_k)) as Hl.
        rewrite Hsearch in Hr, Hl. cbn [fst] in Hr, Hl. now split.
      * intros sid [=].
    + cbn [fst]. split; [|split].
      * now split.
      * intros related query_type total_found [=].
      * intros sid [=].
Qed.

Lemma unindexed_app_done (t : string) (items : list (string * string))
    (rows added : list Service.row) :
  Indexing.unindexed t items rows = [] ->
  Indexing.unindexed t items (rows ++ added) = [].
Proof.
  intros Hdone. unfold Indexing.unindexed. apply filter_none.
  intros s Hs. rewrite fetchone_app.
  destruct (fetchone Service.key (t, s.1) rows) eqn:Hf; [reflexivity|].
  assert (Hin : In s (Indexing.unindexed t items rows)).
  { apply filter_In. split; [exact Hs|]. now rewrite Hf. }
  rewrite Hdone in Hin. contradiction.
Qed.

Lemma unindexed_app_other (t t' : string) (items items' : list (string * string))
    (rows added : list Service.row) :
  t <> t' ->
  (forall r, In r added -> added_by t' items' r) ->
  Indexing.unindexed t items (rows ++ added) = Indexing.unindexed t items rows.
Proof.
  intros Hne Hadded. unfold Indexing.unindexed. apply filter_ext.
  intros s. rewrite fetchone_app.
  destruct (fetchone Service.key (t, s.1) rows); [reflexivity|].
  rewrite fetchone_absent; [reflexivity|].
  intros Hin. apply in_map_iff in Hin as (r & Hkey & Hr).
  destruct (Hadded r Hr) as [Ht _].
  unfold Service.key in Hkey. congruence.
Qed.

(** When every write goes through, [/api/reindex] reports the number of
    summaries and the number of tasks that had no embedding, and a second
    call finds nothing to do: it reports zeros and changes neither the table
    nor the random generator. *)
Theorem reindex_twice (summaries tasks : list (string * string))
    (e1 e2 : Indexing.outcomes) (rows : list Service.row) (g : rng) :
  (forall i, (e1 i).1 = true) -> (forall i, (e2 i).1 = true) ->
  let first := Chandresh.trigger_reindex encode summaries tasks e1 e2 rows g in
  Chandresh.summaries_indexed first.1.1
  = length (Indexing.unindexed "summary" summaries rows) /\
  Chandresh.tasks_indexed first.1.1
  = length (Indexing.unindexed "task" tasks rows) /\
  Chandresh.total_indexed first.1.1
  = (length (Indexing.unindexed "summary" summaries rows)
     + length (Indexing.unindexed "task" tasks rows))%nat /\
  forall (e3 e4 : Indexing.outcomes) (g' : rng),
    Chandresh.trigger_reindex encode summaries tasks e3 e4 first.1.2 g'
    = ({| Chandresh.summaries_indexed := 0; Chandresh.tasks_indexed := 0;
          Chandresh.total_indexed := 0 |}, first.1.2, g').
Proof.
  intros H1 H2. cbv zeta.
  unfold Chandresh.trigger_reindex, Indexing.index_existing_summaries,
    Indexing.index_existing_tasks.
  destruct (index_existing_appends encode "summary" summaries e1 rows g)
    as (added1 & Hrows1 & Hadded1).
  pose proof (index_existing_all_present encode "summary" summaries e1 rows g
                (fun i _ => H1 i)) as Hdone1.
  pose proof (index_existing_all_ok encode "summary" summaries e1 rows g
                (fun i _ => H1 i)) as Hc1.
  destruct (Indexing.index_existing encode "summary" summaries e1 rows g)
    as [[c1 rows1] g1].
  cbn [fst snd] in Hrows1, Hdone1, Hc1.
  destruct (index_existing_appends encode "task" tasks e2 rows1 g1)
    as (added2 & Hrows2 & Hadded2).
  pose proof (index_existing_all_present encode "task" tasks e2 rows1 g1
                (fun i _ => H2 i)) as Hdone2.
  pose proof (index_existing_all_ok encode "task" tasks e2 rows1 g1
                (fun i _ => H2 i)) as Hc2.
  destruct (Indexing.index_existing encode "task" tasks e2 rows1 g1)
    as [[c2 rows2] g2].
  cbn [fst snd] in Hrows2, Hdone2, Hc2 |- *.
  assert (Htasks : Indexing.unindexed "task" tasks rows1
                   = Indexing.unindexed "task" tasks rows).
  { rewrite Hrows1.
    apply (unindexed_app_other "task" "summary" tasks
             (Indexing.unindexed "summary" summaries rows));
      [discriminate | exact Hadded1]. }
  rewrite Htasks in Hc2.
  split; [exact Hc1|]. split; [exact Hc2|]. split; [now rewrite Hc1, Hc2|].
  intros e3 e4 g'.
  assert (Hdone1' : Indexing.unindexed "summary" summaries rows2 = []).
  { rewrite Hrows2. now apply unindexed_app_done. }
  unfold Indexing.index_existing. rewrite Hdone1'.
  cbn [Indexing.index_loop]. now rewrite Hdone2.
Qed.

End ChandreshFacts.

Lemma chandresh_store_embedding_retries_witness :
  (Chandresh.store_embedding sample_encode third_write_ok service_rows
     sample_rng "summary" "s7" "hotel booking").1.1
  = Chandresh.Stored "Embedding stored for summary s7".
Proof.
  refine (proj1 (proj1 (proj2 (chandresh_store_embedding_retries sample_encode
                                 third_write_ok service_rows sample_rng
                                 "summary" "s7" "hotel booking")
                          _ _ _) _)); try discriminate.
  exists 2%nat. split; [lia | reflexivity].
Defined.

Lemma chandresh_search_similar_witness :
  Chandresh.search_similar sample_encode service_rows sample_rng
    (Some "s9") (Some "hotel booking") None
  = (Chandresh.Found [] "summary_id" 0, sample_rng).
Proof.
  exact (proj2 (proj2 (chandresh_search_similar sample_encode service_rows
                         sample_rng (Some "s9") (Some "hotel booking") None))
               "s9" eq_refl eq_refl).
Defined.

Lemma reindex_twice_witness :
  Chandresh.total_indexed
    (Chandresh.trigger_reindex sample_encode sample_summaries []
       all_writes_ok all_writes_ok service_rows sample_rng).1.1
  = 1%nat.
Proof.
  exact (proj1 (proj2 (proj2 (reindex_twice sample_encode sample_summaries []
                                all_writes_ok all_writes_ok service_rows
                                sample_rng (fun _ => eq_refl)
                                (fun _ => eq_refl))))).
Defined.

(** ** The safety filter and the responder *)

Section ResponderFacts.

Lemma first_banned_ok (words : list string) (lower : string) :
  (Responder.first_banned words lower).1
  = negb (existsb (fun w => Responder.contains w lower) words).
Proof.
  induction words as [|w words IH]; [reflexivity|].
  cbn [Responder.first_banned existsb].
  destruct (Responder.contains w lower); [reflexivity | exact IH].
Qed.

Lemma first_banned_reason (words : list string) (lower : string) :
  match (Responder.first_banned words lower).2 with
  | Some reason =>
      (Responder.first_banned words lower).1 = false /\
      exists w, In w words /\ Responder.contains w lower = true /\
                reason = ("Contains banned word: " ++ w)%string
  | None => (Responder.first_banned words lower).1 = true
  end.
Proof.
  induction words as [|w words IH]; [reflexivity|].
  cbn [Responder.first_banned].
  destruct (Responder.contains w lower) eqn:Hw.
  - cbn [fst snd]. split; [reflexivity|]. exists w. cbn. auto.
  - destruct (Responder.first_banned words lower).2 as [reason|].
    + destruct IH as (Hf & w' & Hin & Hc & Hr). split; [exact Hf|].
      exists w'. cbn. auto.
    + exact IH.
Qed.

Lemma existsb_same_members {A : Type} (p : A -> bool) (l1 l2 : list A) :
  (forall x, In x l1 <-> In x l2) -> existsb p l1 = existsb p l2.
Proof.
  intros Hsame. apply eq_true_iff_eq.
  rewrite !existsb_exists. split; intros (x & Hx & Hp); exists x;
    (split; [now apply Hsame | exact Hp]).
Qed.

(** Whether [check_safety] lets a text pass does not depend on the order in
    which the set of banned words is iterated: the text is refused exactly
    when its lower-case form contains one of the words.  A reason is given
    exactly for a refused text and names a word that the text contains. *)
Theorem check_safety_verdict (order : list string) (text : string) :
  ((Responder.check_safety order text).1 = false <->
   exists w, In w order /\
             Responder.contains w (Responder.lower text) = true) /\
  (forall order' : list string,
      (forall w, In w order <-> In w order') ->
      (Responder.check_safety order' text).1
      = (Responder.check_safety order text).1) /\
  match (Responder.check_safety order text).2 with
  | Some reason =>
      (Responder.check_safety order text).1 = false /\
      exists w, In w order /\
                Responder.contains w (Responder.lower text) = true /\
                reason = ("Contains banned word: " ++ w)%string
  | None => (Responder.check_safety order text).1 = true
  end.
Proof.
  unfold Responder.check_safety. split; [|split].
  - rewrite first_banned_ok, negb_false_iff, existsb_exists. reflexivity.
  - intros order' Hsame. rewrite !first_banned_ok. f_equal.
    symmetry. now apply existsb_same_members.
  - apply first_banned_reason.
Qed.

Lemma lower_append (s t : string) :
  Responder.lower (s ++ t) = (Responder.lower s ++ Responder.lower t)%string.
Proof.
  induction s as [|c s IH]; [reflexivity|].
  rewrite append_cons. cbn [Responder.lower]. now rewrite IH, append_cons.
Qed.

Lemma generated_text_badword (s : string) :
  Responder.contains "badword" ("generated response for task " ++ s)
  = Responder.contains "badword" s.
Proof. reflexivity. Qed.

Lemma generated_text_unsafe (s : string) :
  Responder.contains "unsafe" ("generated response for task " ++ s)
  = Responder.contains "unsafe" s.
Proof. reflexivity. Qed.

Lemma generated_text_verdict (order : list string) (task_id : string) :
  (forall w, In w order <-> In w Responder.BANNED_WORDS) ->
  (Responder.check_safety order
     (Responder.generate_response task_id).1).1
  = negb (Responder.contains "badword" (Responder.lower task_id)
          || Responder.contains "unsafe" (Responder.lower task_id)).
Proof.
  intros Hsame. unfold Responder.check_safety, Responder.generate_response.
  cbn [fst]. rewrite first_banned_ok.
  rewrite (existsb_same_members _ order Responder.BANNED_WORDS Hsame).
  rewrite lower_append.
  change (Responder.lower "Generated response for task ")
    with "generated response for task ".
  cbn [Responder.BANNED_WORDS existsb].
  now rewrite generated_text_badword, generated_text_unsafe, orb_false_r.
Qed.

(** [api_respond] marks its response as flagged exactly when the task id
    contains "badword" or "unsafe" in any letter case (the fixed part of the
    generated text contains neither), whatever the iteration order of the
    set; the response carries the generated text, and the handler fails
    exactly when the write fails or the response id is already taken, the
    table then being unchanged. *)
Theorem api_respond_status (order : list string) (uuid_hex now : string)
    (db_ok : bool) (responses : list Responder.response_row)
    (req : Responder.RespondRequest) :
  (forall w, In w order <-> In w Responder.BANNED_WORDS) ->
  let flagged :=
    Responder.contains "badword" (Responder.lower (Responder.task_id req))
    || Responder.contains "unsafe" (Responder.lower (Responder.task_id req)) in
  let taken :=
    existsb (fun r => String.eqb (Responder.row_response_id r)
                        ("r" ++ substring 0 8 uuid_hex))
            responses in
  match Responder.api_respond order uuid_hex now db_ok responses req with
  | (Some response, responses') =>
      db_ok = true /\ taken = false /\
      Responder.status response = (if flagged then "flagged" else "ok") /\
      Responder.response_text response
      = ("Generated response for task " ++ Responder.task_id req)%string /\
      exists r, responses' = responses ++ [r] /\
                Responder.row_response_id r = Responder.response_id response /\
                Responder.row_status r = Responder.status response
  | (None, responses') =>
      (db_ok = false \/ taken = true) /\ responses' = responses
  end.
Proof.
  intros Hsame. cbv zeta. unfold Responder.api_respond.
  pose proof (generated_text_verdict order (Responder.task_id req) Hsame)
    as Hverdict.
  destruct (Responder.generate_response (Responder.task_id req))
    as [text tone] eqn:Hgen.
  cbn [fst] in Hverdict.
  destruct (Responder.check_safety order text) as [ok reason].
  cbn [fst] in Hverdict. subst ok.
  injection Hgen as <- <-.
  destruct db_ok; cbn [andb].
  - destruct (existsb _ responses); cbn [negb].
    + split; [now right | reflexivity].
    + split; [reflexivity|]. split; [reflexivity|]. cbn.
      split; [|split; [reflexivity|]].
      * now destruct (Responder.contains "badword" _ || _).
      * eexists. split; [reflexivity|]. now split.
  - split; [now left | reflexivity].
Qed.

End ResponderFacts.

Lemma api_respond_status_witness :
  exists response responses',
    Responder.api_respond ["unsafe"; "badword"] "0123456789abcdef"
      "2024-01-03T00:00:00" true []
      {| Responder.task_id := "t-UnSafe-7"; Responder.user_id := None;
         Responder.task_text := None |}
    = (Some response, responses') /\
    Responder.status response = "flagged".
Proof.
  pose proof (api_respond_status ["unsafe"; "badword"] "0123456789abcdef"
                "2024-01-03T00:00:00" true []
                {| Responder.task_id := "t-UnSafe-7";
                   Responder.user_id := None;
                   Responder.task_text := None |}) as H.
  cbv zeta in H.
  destruct (Responder.api_respond _ _ _ _ _ _) as [[response|] responses'].
  - exists response, responses'. split; [reflexivity|].
    apply H. intros w. cbn. tauto.
  - exfalso. destruct H as [[H | H] _]; [intros w; cbn; tauto | | ];
      discriminate.
Defined.

Lemma check_safety_verdict_witness :
  (Responder.check_safety ["unsafe"; "badword"] "This is UNSAFE").1
  = (Responder.check_safety ["badword"; "unsafe"] "This is UNSAFE").1.
Proof.
  apply (proj1 (proj2 (check_safety_verdict ["badword"; "unsafe"]
                         "This is UNSAFE"))).
  intros w. cbn. tauto.
Defined.

(** ** The metrics report *)

Section MetricsFacts.

Lemma latencies_none (rows : list Metrics.row) :
  Metrics.latencies rows = None <->
  exists r, In r rows /\ Metrics.latency_ms r = None.
Proof.
  induction rows as [|r rows IH]; cbn [Metrics.latencies].
  - split; [discriminate | intros (r & [] & _)].
  - destruct (Metrics.latency_ms r) as [lat|] eqn:Hlat; cbn.
    + destruct (Metrics.latencies rows) as [lats|]; cbn.
      * split; [discriminate|]. intros (r' & [<- | Hin] & Hnone).
        -- congruence.
        -- assert (Hno : Some lats = None) by (apply IH; now exists r').
           discriminate.
      * split; [|reflexivity]. intros _.
        destruct (proj1 IH eq_refl) as (r' & Hin & Hnone).
        exists r'. auto.
    + split; [|reflexivity]. intros _. exists r. auto.
Qed.

Lemma list_sum_cons (a : nat) (l : list nat) :
  list_sum (a :: l) = (a + list_sum l)%nat.
Proof. reflexivity. Qed.

Lemma count_indicator (x : string) (eps : list string) :
  NoDup eps ->
  list_sum (map (fun ep => if decide (x = ep) then 1%nat else 0%nat) eps)
  = if decide (x ∈ eps) then 1%nat else 0%nat.
Proof.
  induction 1 as [|ep eps Hnot Hnd IH]; [reflexivity|].
  rewrite map_cons, list_sum_cons, IH.
  destruct (decide (x = ep)) as [-> | Hne].
  - rewrite decide_False by assumption.
    now rewrite decide_True by apply list_elem_of_here.
  - destruct (decide (x ∈ eps)) as [Hin | Hout].
    + now rewrite decide_True by now apply list_elem_of_further.
    + rewrite decide_False; [reflexivity|].
      intros Hin. apply elem_of_cons in Hin as [? | ?]; contradiction.
Qed.

Lemma list_sum_zero {A : Type} (l : list A) :
  list_sum (map (fun _ => 0%nat) l) = 0%nat.
Proof. induction l; [reflexivity | exact IHl]. Qed.

Lemma list_sum_add {A : Type} (f g : A -> nat) (l : list A) :
  list_sum (map (fun x => (f x + g x)%nat) l)
  = (list_sum (map f l) + list_sum (map g l))%nat.
Proof.
  induction l as [|x l IH]; [reflexivity|].
  rewrite !map_cons, !list_sum_cons. lia.
Qed.

Lemma groups_cover (eps : list string) (rows : list Metrics.row) :
  NoDup eps ->
  (forall r, In r rows -> Metrics.endpoint r ∈ eps) ->
  list_sum (map (fun ep => length (Metrics.group rows ep)) eps)
  = length rows.
Proof.
  intros Hnd. induction rows as [|r rows IH]; intros Hall.
  - apply list_sum_zero.
  - rewrite (map_ext _ (fun ep =>
               ((if decide (Metrics.endpoint r = ep) then 1 else 0)
                + length (Metrics.group rows ep))%nat)).
    + rewrite list_sum_add, count_indicator by assumption.
      rewrite decide_True by (apply Hall; now left).
      rewrite IH; [reflexivity|]. intros r' Hr'. apply Hall. now right.
    + intros ep. unfold Metrics.group. rewrite filter_cons.
      now destruct (decide (Metrics.endpoint r = ep)).
Qed.

Lemma error_rate_range (errors total : nat) :
  (errors <= total)%nat -> (0 < total)%nat ->
  0 <= INR errors / INR total <= 1.
Proof.
  intros Hle Hpos.
  assert (0 < INR total) by (apply lt_0_INR; lia).
  assert (0 <= INR errors) by apply pos_INR.
  assert (INR errors <= INR total) by now apply le_INR.
  split.
  - apply Rmult_le_pos; [assumption|]. left. now apply Rinv_0_lt_compat.
  - apply Rmult_le_reg_r with (INR total); [assumption|].
    unfold Rdiv. rewrite Rmult_assoc, Rinv_l by lra. lra.
Qed.

(** The metrics handler fails exactly when some row has no latency.  When
    it answers, the error rate lies between 0 and 1, the status is always
    ["active"], the endpoints of the per-endpoint statistics are distinct
    and their call counts add up to the total number of calls; on an empty
    table the averages are 0 and there are no statistics. *)
Theorem api_metrics_report (rows : list Metrics.row) (responses : nat) :
  (Metrics.api_metrics rows responses = None <->
   exists r, In r rows /\ Metrics.latency_ms r = None) /\
  forall rep : Metrics.report,
    Metrics.api_metrics rows responses = Some rep ->
    0 <= Metrics.error_rate rep <= 1 /\
    Metrics.total_calls (Metrics.api_metrics_of rep) = length rows /\
    (Metrics.error_count (Metrics.api_metrics_of rep) <= length rows)%nat /\
    Metrics.service_status rep = "active" /\
    NoDup (Metrics.stat_endpoint <$> Metrics.endpoint_stats rep) /\
    list_sum (Metrics.calls <$> Metrics.endpoint_stats rep) = length rows /\
    (rows = [] ->
     Metrics.avg_latency_ms rep = 0 /\ Metrics.error_rate rep = 0 /\
     Metrics.endpoint_stats rep = []).
Proof.
  unfold Metrics.api_metrics.
  assert (Herr : (length (List.filter Metrics.is_error rows) <= length rows)%nat)
    by apply filter_length_le.
  destruct (Nat.ltb_spec 0 (length rows)) as [Hpos | Hzero].
  - assert (Hnz : INR (length rows) <> 0) by (apply not_0_INR; lia).
    rewrite (py_div_nonzero (INR (length (List.filter Metrics.is_error rows))))
      by assumption.
    destruct (Metrics.latencies rows) as [lats|] eqn:Hlats; cbn.
    + rewrite py_div_nonzero by assumption. cbn. split.
      * split; [discriminate|]. intros Hex. apply latencies_none in Hex.
        congruence.
      * intros rep [= <-]. cbn.
        split; [now apply error_rate_range|]. split; [reflexivity|].
        split; [exact Herr|]. split; [reflexivity|].
        unfold Metrics.ep_rows. rewrite <- !list_fmap_compose.
        split; [|split].
        -- rewrite (list_fmap_ext _ (fun ep => ep) (remove_dups _))
             by reflexivity.
           rewrite (list_fmap_id (remove_dups _)). apply NoDup_remove_dups.
        -- apply (groups_cover (remove_dups (Metrics.endpoint <$> rows)) rows).
           ++ apply NoDup_remove_dups.
           ++ intros r Hr. apply elem_of_remove_dups, list_elem_of_fmap_2.
              now apply list_elem_of_In.
        -- intros ->. cbn in Hpos. lia.
    + split.
      * split; [|reflexivity]. intros _. now apply latencies_none.
      * discriminate.
  - destruct rows as [|r rows]; [|cbn in Hzero; lia].
    cbn. split.
    + split; [discriminate | intros (r & [] & _)].
    + intros rep [= <-]. cbn. repeat split; try lra; try lia.
      apply NoDup_nil_2.
Qed.

End MetricsFacts.

Lemma api_metrics_report_witness :
  exists rep,
    Metrics.api_metrics sample_metrics 1 = Some rep /\
    0 <= Metrics.error_rate rep <= 1.
Proof.
  destruct (Metrics.api_metrics sample_metrics 1) as [rep|] eqn:Hrep.
  - exists rep. split; [reflexivity|].
    apply (proj2 (api_metrics_report sample_metrics 1) rep Hrep).
  - exfalso.
    apply (proj1 (api_metrics_report sample_metrics 1)) in Hrep
      as (r & Hr & Hnone).
    cbn in Hr. destruct Hr as [<- | [<- | [<- | []]]]; discriminate.
Defined.

(** ** The hashing embedding across interpreter processes *)

Section SaltedHash.

Lemma split_from_no_space (tok s : string) :
  has_space s = false ->
  split_from tok s
  = if String.eqb (tok ++ s) "" then [] else [(tok ++ s)%string].
Proof.
  revert tok. induction s as [|c s IH]; intros tok Hs.
  - cbn [split_from]. now rewrite append_empty_r.
  - cbn [has_space] in Hs. apply orb_false_iff in Hs as [Hc Hs].
    cbn [split_from]. rewrite Hc, IH by assumption.
    now rewrite append_assoc.
Qed.

Lemma py_split_token (token : string) :
  is_token token -> py_split token = [token].
Proof.
  intros [Hne Hs]. unfold py_split. rewrite split_from_no_space by assumption.
  change ("" ++ token)%string with token.
  destruct (String.eqb_spec token ""); [contradiction|reflexivity].
Qed.

Lemma slice_singleton {A : Type} (x : A) (k : Z) :
  (1 <= k)%Z -> py_slice_to [x] k = [x].
Proof.
  intros Hk. unfold py_slice_to. destruct (Z.leb_spec 0 k); [|lia].
  destruct (Z.to_nat k) as [|n] eqn:Hn; [lia|].
  cbn [firstn]. now rewrite firstn_nil.
Qed.

Lemma py_sum_zeros (l : vector) :
  Forall (fun x => x = 0) l -> py_sum l = 0.
Proof.
  induction 1 as [|x l -> _ IH]; [reflexivity|].
  rewrite py_sum_cons, IH. ring.
Qed.

Lemma combine_fmap_same {A B C : Type} (f : A -> B) (g : A -> C)
    (l : list A) :
  combine (f <$> l) (g <$> l) = (fun x => (f x, g x)) <$> l.
Proof.
  induction l as [|x l IH]; [reflexivity|].
  rewrite !fmap_cons. cbn [combine]. now rewrite IH.
Qed.

Lemma unit_scaled_factor (h : vector) :
  exists k, HashingSpec.unit_scaled h = (fun c => c * k) <$> h.
Proof.
  unfold HashingSpec.unit_scaled.
  destruct (Req_dec_T (l2_norm h) 0).
  - exists 1. symmetry. etransitivity; [|apply list_fmap_id].
    apply list_fmap_ext. intros _ c _. cbn. ring.
  - exists (/ l2_norm h). reflexivity.
Qed.

(** Two hashes that send the one token of a text to different buckets give
    embeddings with disjoint supports. *)
Lemma embed_token_orthogonal (hash1 hash2 : string -> Z) (dim : Z)
    (token : string) :
  is_token token ->
  (hash1 token mod dim <> hash2 token mod dim)%Z ->
  zip_dot (HashingSpec.embed hash1 dim token)
          (HashingSpec.embed hash2 dim token) = 0.
Proof.
  intros Htok Hdiff. unfold HashingSpec.embed.
  rewrite py_split_token by assumption.
  destruct (unit_scaled_factor (HashingSpec.histogram hash1 dim [token]))
    as [k1 ->].
  destruct (unit_scaled_factor (HashingSpec.histogram hash2 dim [token]))
    as [k2 ->].
  unfold HashingSpec.histogram. rewrite <- !list_fmap_compose.
  unfold zip_dot. rewrite combine_fmap_same.
  apply py_sum_zeros. apply List.Forall_forall. intros x Hx.
  apply in_map_iff in Hx as ([a b] & <- & Hab).
  apply list_elem_of_In, list_elem_of_fmap in Hab as (i & [= -> ->] & _).
  cbn [fst snd compose]. unfold HashingSpec.bucket_count.
  cbn [List.filter].
  destruct (Z.eqb_spec (hash1 token mod dim) (Z.of_nat i)) as [E1|_];
    destruct (Z.eqb_spec (hash2 token mod dim) (Z.of_nat i)) as [E2|_];
    cbn [length INR]; try ring.
  exfalso. apply Hdiff. congruence.
Qed.

Lemma embed_token_norm (hash : string -> Z) (token : string) :
  is_token token -> l2_norm (HashingSpec.embed hash Main.DIM token) = 1.
Proof.
  intros Htok. unfold HashingSpec.embed. rewrite py_split_token by assumption.
  apply unit_scaled_norm, l2_norm_nonzero.
  apply histogram_some_token. unfold Main.DIM. lia.
Qed.

Lemma embed_token_score (hash1 hash2 : string -> Z) (token : string) :
  is_token token ->
  (hash1 token mod Main.DIM <> hash2 token mod Main.DIM)%Z ->
  cosine_value (HashingSpec.embed hash2 Main.DIM token)
               (HashingSpec.embed hash1 Main.DIM token) = 0.
Proof.
  intros Htok Hdiff. unfold cosine_value.
  rewrite !embed_token_norm by assumption.
  destruct (Req_dec_T 1 0) as [H|_]; [lra|].
  rewrite embed_token_orthogonal by (try assumption; congruence).
  unfold Rdiv. ring.
Qed.

(** C6, the code against the claim.  [text_to_vector] buckets a token by the
    built-in [hash], which differs between interpreter processes.  When two
    processes disagree on the bucket of a token, the text made of that token
    has two different embeddings, and the process that searches for the text
    scores the vector that the other process stored for the very same text
    with 0 instead of 1. *)
Theorem text_to_vector_salted (hash1 hash2 : string -> Z) (token : string) :
  is_token token ->
  (hash1 token mod Main.DIM <> hash2 token mod Main.DIM)%Z ->
  Main.text_to_vector hash1 token Main.DIM
    <> Main.text_to_vector hash2 token Main.DIM /\
  forall (ts t i : string) (k : Z),
    Main.api_search_similar hash2
      (Main.store_embedding hash1 true ts [] t i token).2
      (by_message token k)
    = Main.SearchSimilarResponse
        [ {| Main.related_type := t; Main.related_id := i;
             Main.score := 0; Main.text := None |} ].
Proof.
  intros Htok Hdiff.
  pose proof (embed_token_score hash1 hash2 token Htok Hdiff) as Hscore.
  split.
  - rewrite !text_to_vector_embed by (unfold Main.DIM; lia).
    intros [= Heq]. rewrite Heq in Hscore.
    unfold cosine_value in Hscore.
    rewrite embed_token_norm in Hscore by assumption.
    destruct (Req_dec_T 1 0) as [H|_]; [lra|].
    rewrite zip_dot_self, <- l2_norm_sqr, embed_token_norm in Hscore
      by assumption.
    lra.
  - intros ts t i k.
    assert (Hne : token <> EmptyString) by apply Htok.
    rewrite (api_resolved hash2 _ _ (HashingSpec.embed hash2 Main.DIM token))
      by now apply resolves_by_message.
    rewrite rank_closed, eligible_no_reference by reflexivity.
    rewrite main_store_ok. cbn [snd].
    unfold insert_or_replace. rewrite filter_nil. cbn [app].
    cbn [Main.get_all_embeddings Main.vector_blob json_dumps json_loads
         Main.item_type Main.item_id map].
    unfold scored_against. cbn [fst snd]. rewrite Hscore.
    cbn [sort_desc foldr insert_desc].
    rewrite slice_singleton; [reflexivity|].
    pose proof (limit_bounds (by_message token k)). lia.
Qed.

End SaltedHash.

Lemma text_to_vector_salted_witness :
  Main.api_search_similar hash_of_second_process
    (Main.store_embedding hash_of_first_process true "2024-01-03T00:00:00" []
       "summary" "s1" "hotel").2
    (by_message "hotel" 3)
  = Main.SearchSimilarResponse
      [ {| Main.related_type := "summary"; Main.related_id := "s1";
           Main.score := 0; Main.text := None |} ].
Proof.
  apply (text_to_vector_salted hash_of_first_process hash_of_second_process
           "hotel").
  - split; [discriminate | reflexivity].
  - discriminate.
Defined.

(** ** Whitespace tokens *)

Section Tokens.

Lemma tokenised_space_cons (c : ascii) (s : string) (tokens : list string) :
  is_space c = true -> tokenised s tokens -> tokenised (String c s) tokens.
Proof.
  intros Hc [ws Hws | ws token rest tokens' Hws Htok Hb Hrest].
  - apply tokenised_end. cbn [all_space]. now rewrite Hc, Hws.
  - rewrite <- append_cons. apply tokenised_token; try assumption.
    cbn [all_space]. now rewrite Hc, Hws.
Qed.

(** [split_from] with a token in progress closes that token at the next
    boundary and tokenises what follows. *)
Lemma split_from_tokenised (s : string) :
  tokenised s (split_from "" s) /\
  forall tok, has_space tok = false -> tok <> EmptyString ->
    exists pre rest tokens,
      s = (pre ++ rest)%string /\ has_space pre = false /\ boundary rest /\
      tokenised rest tokens /\
      split_from tok s = (tok ++ pre)%string :: tokens.
Proof.
  induction s as [|c s [IH0 IH]].
  - split.
    + now apply tokenised_end.
    + intros tok Htok Hne. exists EmptyString, EmptyString, [].
      cbn [split_from]. destruct (String.eqb_spec tok ""); [contradiction|].
      rewrite (append_empty_r tok).
      split; [reflexivity|]. split; [reflexivity|]. split; [exact I|].
      split; [now apply tokenised_end | reflexivity].
  - destruct (is_space c) eqn:Hc.
    + split.
      * cbn [split_from]. rewrite Hc. cbn. now apply tokenised_space_cons.
      * intros tok Htok Hne. exists EmptyString, (String c s), (split_from "" s).
        cbn [split_from]. rewrite Hc.
        destruct (String.eqb_spec tok ""); [contradiction|].
        rewrite (append_empty_r tok).
        split; [reflexivity|]. split; [reflexivity|]. split; [exact Hc|].
        split; [now apply tokenised_space_cons | reflexivity].
    + assert (Hstep : forall tok, has_space tok = false ->
                exists pre rest tokens,
                  String c s = (pre ++ rest)%string /\
                  has_space pre = false /\ pre <> EmptyString /\
                  boundary rest /\ tokenised rest tokens /\
                  split_from tok (String c s) = (tok ++ pre)%string :: tokens).
      { intros tok Htok.
        destruct (IH (tok ++ String c "")%string)
          as (pre & rest & tokens & Hs & Hpre & Hb & Hrest & Hsplit).
        - rewrite has_space_app, Htok. cbn. now rewrite Hc.
        - destruct tok; discriminate.
        - exists (String c pre), rest, tokens.
          cbn [split_from]. rewrite Hc, Hsplit, append_assoc.
          split; [rewrite append_cons; now rewrite Hs|].
          split; [cbn [has_space]; now rewrite Hc, Hpre|].
          split; [discriminate|].
          split; [exact Hb|]. split; [exact Hrest | reflexivity]. }
      split.
      * destruct (Hstep EmptyString eq_refl)
          as (pre & rest & tokens & Hs & Hpre & Hne & Hb & Hrest & Hsplit).
        rewrite Hsplit, Hs.
        change (tokenised ("" ++ pre ++ rest) (pre :: tokens)).
        apply tokenised_token; try assumption; [reflexivity | now split].
      * intros tok Htok _.
        destruct (Hstep tok Htok)
          as (pre & rest & tokens & Hs & Hpre & _ & Hb & Hrest & Hsplit).
        now exists pre, rest, tokens.
Qed.

Lemma split_from_spaces (ws s : string) :
  all_space ws = true -> split_from "" (ws ++ s) = split_from "" s.
Proof.
  induction ws as [|c ws IH]; [reflexivity|].
  cbn [all_space]. intros [Hc Hws]%andb_true_iff.
  rewrite append_cons. cbn [split_from]. rewrite Hc. cbn. now apply IH.
Qed.

Lemma split_from_run (pre rest tok : string) :
  has_space pre = false ->
  split_from tok (pre ++ rest) = split_from (tok ++ pre) rest.
Proof.
  revert tok. induction pre as [|c pre IH]; intros tok Hpre.
  - now rewrite append_empty_r.
  - cbn [has_space] in Hpre. apply orb_false_iff in Hpre as [Hc Hpre].
    rewrite append_cons. cbn [split_from]. rewrite Hc, IH by assumption.
    now rewrite append_assoc.
Qed.

(** A text has one tokenisation, the one [text.split()] computes. *)
Lemma tokenised_unique (s : string) (tokens : list string) :
  tokenised s tokens -> tokens = split_from "" s.
Proof.
  induction 1 as [ws Hws | ws token rest tokens Hws [Hne Hsp] Hb _ IH].
  - rewrite <- (append_empty_r ws), split_from_spaces by assumption.
    reflexivity.
  - rewrite split_from_spaces, split_from_run by assumption.
    change ("" ++ token)%string with token.
    destruct rest as [|c rest].
    + cbn [split_from] in *. subst tokens.
      destruct (String.eqb_spec token ""); [contradiction|reflexivity].
    + cbn [boundary] in Hb. cbn [split_from] in *. rewrite Hb in *.
      destruct (String.eqb_spec token ""); [contradiction|].
      cbn in IH. now subst tokens.
Qed.

End Tokens.

Section HashingHistogram.
Variable hash : string -> Z.

(** Within one interpreter process, whose built-in hash is [hash]:
    [text_to_vector] splits the text into its whitespace tokens, counts in
    each of the [dim] buckets the tokens whose hash is that bucket modulo
    [dim], and divides the counts by their Euclidean norm unless they are all
    zero.  The vector has [dim] components, and a text without tokens gives
    the zero vector. *)
Theorem text_to_vector_histogram (text : string) (dim : Z) :
  (0 < dim)%Z ->
  tokenised text (py_split text) /\
  forall tokens, tokenised text tokens ->
    Main.text_to_vector hash text dim
    = Some (HashingSpec.unit_scaled (HashingSpec.histogram hash dim tokens)) /\
    length (HashingSpec.unit_scaled (HashingSpec.histogram hash dim tokens))
    = Z.to_nat dim /\
    (tokens = [] ->
     Main.text_to_vector hash text dim = Some (replicate (Z.to_nat dim) 0)).
Proof.
  intros Hdim. split; [apply split_from_tokenised|].
  intros tokens Htok. apply tokenised_unique in Htok.
  fold (py_split text) in Htok. subst tokens.
  pose proof (text_to_vector_embed hash text dim Hdim) as Hcode.
  unfold HashingSpec.embed in Hcode.
  split; [exact Hcode|]. split.
  - now rewrite unit_scaled_length, histogram_length.
  - intros Hno. rewrite Hcode, Hno, histogram_no_tokens.
    unfold HashingSpec.unit_scaled.
    destruct (Req_dec_T (l2_norm (replicate (Z.to_nat dim) 0)) 0) as [_|Hn];
      [reflexivity|].
    destruct Hn. apply replicate_zero_norm.
Qed.

End HashingHistogram.

Lemma text_to_vector_histogram_witness :
  tokenised " hotel  booking" ["hotel"; "booking"] /\
  Main.text_to_vector length_hash " hotel  booking" Main.DIM
  = Some (HashingSpec.unit_scaled
            (HashingSpec.histogram length_hash Main.DIM ["hotel"; "booking"])).
Proof.
  destruct (text_to_vector_histogram length_hash " hotel  booking" Main.DIM
              eq_refl) as [Htok Hcode].
  split; [exact Htok|]. exact (proj1 (Hcode _ Htok)).
Defined.
